(** * Nexus-Graph frontend: the streaming chat reducers, the upload flows
      and the ingestion polling loop

    A shallow embedding of
    - [frontend/src/lib/api.ts]            ([NexusAPI.chatStream] and the
      JSON endpoints),
    - [frontend/src/hooks/use-chat.ts]     ([useChat], [useWebSocketChat]),
    - the home page ([HomePage.handleSubmit]),
    - [frontend/src/components/inline-upload.tsx] and the upload modal
      ([uploadFiles], [getFileIcon]),
    - [frontend/src/hooks/use-ingestion.ts] ([uploadFile], [uploadFiles],
      [pollJobStatus], [getJobStatus], [clearJobs]),
    - [frontend/src/app/upload/page.tsx]   ([removeFile], [handleUpload]).

    React state is threaded explicitly: every hook is a record of its
    [useState] cells and every handler a function on that record.  What the
    platform supplies ([JSON.parse], the network) is a parameter of the
    model. *)

From Stdlib Require Import ZArith QArith Lia.
From Stdlib Require String.
From Stdlib Require Import Ascii.
From stdpp Require Import base option list strings pretty gmap.

#[local] Set Warnings "-register-all,-clear-no-such-hyp".
#[local] Open Scope Z_scope.
#[local] Open Scope stdpp_scope.

(** ** JSON values and the JavaScript operations the hooks apply to them *)

(** What [JSON.parse] returns.  An object keeps its fields in insertion
    order, as a JavaScript object does; number literals are kept as
    integers (the code only tests them for zero and copies them). *)
Inductive json : Type :=
| JNull
| JBool (b : bool)
| JNum (n : Z)
| JStr (s : string)
| JArr (xs : list json)
| JObj (fields : list (string * json)).

(** A JavaScript value: [None] is [undefined]. *)
Definition jsval : Type := option json.

(** What a [throw] carries.  [ErrorObj] is an instance of [Error] (a
    [TypeError], a [SyntaxError], the errors the code constructs);
    [OtherThrown] is any other thrown value.  [RenderFault] stands for an
    error raised inside a state updater: React runs the updater while it
    re-renders, outside every [try] block of the handler that queued it. *)
Inductive exn : Type :=
| ErrorObj (message : string)
| OtherThrown
| RenderFault.

Inductive except (A : Type) : Type :=
| Ok (a : A)
| Throw (e : exn).
Arguments Ok {A} a.
Arguments Throw {A} e.

#[global] Instance except_bind : MBind except := λ A B k m,
  match m with
  | Ok a => k a
  | Throw e => Throw e
  end.

(** A fault of the renderer is not an exception any handler sees: it goes
    through [try]/[catch]. *)
Definition catchable (e : exn) : bool :=
  match e with RenderFault => false | _ => true end.

Definition JS_truthy (v : jsval) : bool :=
  match v with
  | None | Some JNull => false
  | Some (JBool b) => b
  | Some (JNum n) => negb (n =? 0)
  | Some (JStr s) => negb (String.eqb s "")
  | Some (JArr _) | Some (JObj _) => true
  end.

(** [a === b].  Two primitives are equal when they have the same value; an
    object or an array is only equal to itself, and the values compared
    here always come from two different [JSON.parse] calls. *)
Definition strict_eq (a b : jsval) : bool :=
  match a, b with
  | None, None => true
  | Some JNull, Some JNull => true
  | Some (JBool x), Some (JBool y) => Bool.eqb x y
  | Some (JNum x), Some (JNum y) => x =? y
  | Some (JStr x), Some (JStr y) => String.eqb x y
  | _, _ => false
  end.

Fixpoint assoc (k : string) (fs : list (string * json)) : option json :=
  match fs with
  | [] => None
  | (k', v) :: rest => if String.eqb k k' then Some v else assoc k rest
  end.

(** [v.k] for the property names the hooks read ([agent], [content],
    [type], ...): a [TypeError] on [undefined] and [null], the field of an
    object, [undefined] on every other value. *)
Definition get (v : jsval) (k : string) : except jsval :=
  match v with
  | None | Some JNull => Throw (ErrorObj "TypeError")
  | Some (JObj fs) => Ok (assoc k fs)
  | Some _ => Ok None
  end.

(** Text is held as its UTF-8 bytes (see the section on text below).  The
    indexed properties of a string are its UTF-16 code units: one for a
    character of up to three bytes, the two surrogates for a character of
    four; a surrogate on its own is written as the three bytes of its code
    point. *)
Definition byte_of (c : Ascii.ascii) : N := Ascii.N_of_ascii c.

Definition surrogate (h : N) : string :=
  String (Ascii.ascii_of_N 237)
    (String (Ascii.ascii_of_N (128 + (h / 64) mod 64))
       (String (Ascii.ascii_of_N (128 + h mod 64)) "")).

Fixpoint code_units (s : string) : list string :=
  match s with
  | "" => []
  | String a r1 =>
      if (byte_of a <? 192)%N then String a "" :: code_units r1
      else match r1 with
           | "" => [s]
           | String b r2 =>
               if (byte_of a <? 224)%N
               then String a (String b "") :: code_units r2
               else match r2 with
                    | "" => [s]
                    | String c r3 =>
                        if (byte_of a <? 240)%N
                        then String a (String b (String c "")) :: code_units r3
                        else match r3 with
                             | "" => [s]
                             | String d r4 =>
                                 let v := ((byte_of a mod 8) * 262144
                                           + (byte_of b mod 64) * 4096
                                           + (byte_of c mod 64) * 64
                                           + byte_of d mod 64 - 65536)%N in
                                 surrogate (55296 + v / 1024)
                                 :: surrogate (56320 + v mod 1024)
                                 :: code_units r4
                             end
                    end
           end
  end.

(** The own enumerable properties an object spread copies. *)
Definition own_props (v : jsval) : list (string * json) :=
  match v with
  | Some (JObj fs) => fs
  | Some (JArr xs) => imap (λ i x, (pretty i, x)) xs
  | Some (JStr s) => imap (λ i c, (pretty i, JStr c)) (code_units s)
  | _ => []
  end.

(** [{ ...s, ...p }] on the property lists: the keys of [s] keep their
    place and take the value [p] gives them, the keys only [p] has follow. *)
Definition spread_fields (s p : list (string * json)) : list (string * json) :=
  map (λ kv, (kv.1, default kv.2 (assoc kv.1 p))) s
  ++ filter (λ kv, assoc kv.1 s = None) p.

Definition spread (s p : jsval) : jsval :=
  Some (JObj (spread_fields (own_props s) (own_props p))).

(** [Array.prototype.find] and [Array.prototype.map] with a callback that
    may throw. *)
Fixpoint array_find (f : jsval → except bool) (xs : list jsval) : except jsval :=
  match xs with
  | [] => Ok None
  | x :: rest =>
      hit ← f x;
      if hit : bool then Ok x else array_find f rest
  end.

Fixpoint array_map (f : jsval → except jsval) (xs : list jsval)
  : except (list jsval) :=
  match xs with
  | [] => Ok []
  | x :: rest =>
      y ← f x;
      ys ← array_map f rest;
      Ok (y :: ys)
  end.

(** [ToNumber(v)], which an arithmetic operator applies to its operand,
    throws a [TypeError] when [v] cannot be turned into a primitive.  On
    what [JSON.parse] returns that is an object with an own [toString]
    field (it hides [Object.prototype.toString], no field is a function,
    and [valueOf] returns the object), and an array that holds such a
    value ([Array.prototype.toString] joins the elements). *)
Fixpoint unconvertible (v : json) : bool :=
  match v with
  | JObj fs => bool_decide (is_Some (assoc "toString" fs))
  | JArr xs => existsb unconvertible xs
  | _ => false
  end.

Definition ToNumber_throws (v : jsval) : bool :=
  match v with
  | Some j => unconvertible j
  | None => false
  end.

(** ** The step reducer

    The updater passed to [setCurrentSteps]; [useChat], [useWebSocketChat]
    and the home page each carry the same text:
<<
    (prev) => {
        const existing = prev.find((s) => s.agent === chunk.agent);
        if (existing) {
            return prev.map((s) =>
                s.agent === chunk.agent ? { ...s, ...chunk } : s);
        }
        return [...prev, chunk];
    }
>> *)
Definition same_agent (chunk s : jsval) : except bool :=
  sa ← get s "agent";
  ca ← get chunk "agent";
  Ok (strict_eq sa ca).

Definition step_update (chunk : jsval) (prev : list jsval) : except (list jsval) :=
  existing ← array_find (same_agent chunk) prev;
  if JS_truthy existing then
    array_map (λ s, hit ← same_agent chunk s;
                    Ok (if hit : bool then spread s chunk else s)) prev
  else Ok (prev ++ [chunk]).

(** A state updater runs in the renderer. *)
Definition in_render {A} (m : except A) : except A :=
  match m with
  | Ok a => Ok a
  | Throw _ => Throw RenderFault
  end.

(** ** Text

    Text is a byte string: the UTF-8 encoding of the JavaScript string.
    The code cuts and compares text at ASCII characters only (the line
    feed, [data:], [event:], the dot of a file name); in UTF-8 these are
    single bytes and stand for nothing else, so that [split], [slice],
    [startsWith], [replace] and [includes] are the same on the bytes.
    [trim] strips the white space of ECMAScript, whose code points take
    one to three bytes.  What [TextDecoder] makes of the bytes read is an
    input of the model: the body of a response is given as the texts
    decoded. *)

Definition newline : Ascii.ascii := "010"%char.

(** [s.split('\n')] *)
Fixpoint split_lines (s : string) : list string :=
  match s with
  | "" => [""]
  | String c rest =>
      if Ascii.eqb c newline then "" :: split_lines rest
      else match split_lines rest with
           | l :: ls => String c l :: ls
           | [] => [String c ""]
           end
  end.

(** [s.slice(n)] for [n] within the string or past its end. *)
Fixpoint slice_from (n : nat) (s : string) : string :=
  match n, s with
  | O, _ => s
  | S n', String _ rest => slice_from n' rest
  | S _, "" => ""
  end.

(** The white space and the line terminators of ECMAScript, which
    [String.prototype.trim] strips.  One byte: U+0009 to U+000D and U+0020
    ([Ascii.is_space]).  Two bytes: U+00A0 (C2 A0).  Three bytes: U+1680
    (E1 9A 80), U+2000 to U+200A (E2 80 80 to E2 80 8A), U+2028 and U+2029
    (E2 80 A8, E2 80 A9), U+202F (E2 80 AF), U+205F (E2 81 9F), U+3000
    (E3 80 80) and U+FEFF (EF BB BF). *)
Definition space2 (a b : Ascii.ascii) : bool :=
  ((byte_of a =? 194) && (byte_of b =? 160))%N.

Definition space3 (a b c : Ascii.ascii) : bool :=
  let '(x, y, z) := (byte_of a, byte_of b, byte_of c) in
  ((x =? 225) && (y =? 154) && (z =? 128)
   || (x =? 226) && (y =? 128)
      && ((128 <=? z) && (z <=? 138) || (z =? 168) || (z =? 169) || (z =? 175))
   || (x =? 226) && (y =? 129) && (z =? 159)
   || (x =? 227) && (y =? 128) && (z =? 128)
   || (x =? 239) && (y =? 187) && (z =? 191))%N.

Fixpoint trimStart (s : string) : string :=
  match s with
  | "" => ""
  | String a r1 =>
      if Ascii.is_space a then trimStart r1
      else match r1 with
           | "" => s
           | String b r2 =>
               if space2 a b then trimStart r2
               else match r2 with
                    | "" => s
                    | String c r3 => if space3 a b c then trimStart r3 else s
                    end
           end
  end.

(** The text up to its last character that is no white space: it is cut
    where what follows is white space only. *)
Fixpoint trimEnd (s : string) : string :=
  match s with
  | "" => ""
  | String c rest =>
      match trimStart s with
      | "" => ""
      | _ => String c (trimEnd rest)
      end
  end.

Definition trim (s : string) : string := trimEnd (trimStart s).

(** [s.replace(pat, rep)] with a string pattern: the first occurrence. *)
Fixpoint replace_first (pat rep s : string) : string :=
  if String.prefix pat s then rep +:+ slice_from (String.length pat) s
  else match s with
       | "" => ""
       | String c rest => String c (replace_first pat rep rest)
       end.

(** The text carried by a sequence of reads. *)
Definition joined (values : list string) : string :=
  foldr String.append "" values.

(** A list of lines as the stream carries them, each ended by a line feed. *)
Definition stream_of (lines : list string) : string :=
  joined (map (λ l, l +:+ String newline "") lines).

(** ** The network, as the hooks see it *)

(** How the body stream ends: [reader.read()] resolves with [done], or it
    rejects. *)
Inductive read_end : Type :=
| StreamDone
| ReadRejected (e : exn).

(** [response.body]: the decoded text of each chunk read, then the end. *)
Record body : Type := Body { reads : list string; ending : read_end }.

(** What [await fetch(...)] gives. *)
Inductive fetched : Type :=
| FetchRejected (e : exn)
| Response (ok : bool) (statusText : string) (stream : option body).

(** The body of a chat request: [message] and [conversation_id]. *)
Record request : Type :=
  Request { req_url : string; req_message : string; req_conversation_id : jsval }.

(** The [Message] interface, declared alike in [use-chat.ts] and on the
    home page.  [id] and [timestamp] are read from the clock and play no
    part in what follows; they are left out. *)
Module Message.
Inductive role_t : Type := user | assistant.
Record t : Type := Make {
  role : role_t;
  content : jsval;
  data : jsval;
  executionTrace : option (list json);
  processingTime : jsval
}.
End Message.

Definition userMessage (text : string) : Message.t :=
  Message.Make Message.user (Some (JStr text)) None None None.

(** ** [lib/api.ts] *)
Module Api.
Section Parser.
(** [JSON.parse]; [None] when it throws a [SyntaxError]. *)
Variable JSON_parse : string → option json.

(** The body of [for (const line of lines)]: what the line yields. *)
Definition line_event (line : string) : option json :=
  if String.prefix "data:" line
  then JSON_parse (trim (slice_from 5 line))
  else None.

(** One turn of [while (true)] after a read that is not [done]: the new
    [buffer] and the values yielded. *)
Definition read_step (buffer value : string) : string * list json :=
  let lines := split_lines (buffer +:+ value) in
  (default "" (last lines), omap line_event (removelast lines)).

Fixpoint read_loop (buffer : string) (values : list string) : list json :=
  match values with
  | [] => []
  | value :: rest =>
      let '(buffer', out) := read_step buffer value in
      out ++ read_loop buffer' rest
  end.

(** [chatStream]: the values the generator yields, then how it ends
    ([None]: it returns; [Some e]: it throws [e]). *)
Definition chatStream (net : fetched) : list json * option exn :=
  match net with
  | FetchRejected e => ([], Some e)
  | Response false statusText _ =>
      ([], Some (ErrorObj ("Stream request failed: " +:+ statusText)))
  | Response true _ None => ([], Some (ErrorObj "No response body"))
  | Response true _ (Some b) =>
      (read_loop "" (reads b),
       match ending b with
       | StreamDone => None
       | ReadRejected e => Some e
       end)
  end.
End Parser.

(** [IngestionResponse] *)
Record IngestionResponse : Type :=
  Accepted { job_id : string; status : string; message : string }.

(** What a request to one of the JSON endpoints meets: [fetch] rejects, or
    it resolves with [response.ok] and [response.statusText], and
    [response.json()] then gives a value or rejects. *)
Inductive answer (A : Type) : Type :=
| NoAnswer (e : exn)
| Answer (ok : bool) (statusText : string) (json : except A).
Arguments NoAnswer {A} e.
Arguments Answer {A} ok statusText json.

(** The body the JSON endpoints share, each with its own words in the
    error:
<<
    const response = await fetch(...);
    if (!response.ok) {
        throw new Error(`... failed: ${response.statusText}`);
    }
    return response.json();
>> *)
Definition endpoint {A} (what : string) (a : answer A) : except A :=
  match a with
  | NoAnswer e => Throw e
  | Answer false statusText _ =>
      Throw (ErrorObj (what +:+ " failed: " +:+ statusText))
  | Answer true _ json => json
  end.

Definition chat {A} : answer A → except A := endpoint "Chat request".
Definition uploadDocument {A} : answer A → except A := endpoint "Upload".
Definition uploadDocuments {A} : answer A → except A := endpoint "Bulk upload".
Definition getIngestionStatus {A} : answer A → except A := endpoint "Status check".
Definition listIngestionJobs {A} : answer A → except A := endpoint "List jobs".
Definition getHealth {A} : answer A → except A := endpoint "Health check".

End Api.

(** How an [async] handler settles.  [Unmounted]: a state updater threw
    while React rendered, and the component is gone. *)
Inductive settled : Type :=
| Resolved
| Rejected (e : exn)
| Unmounted.

(** [error instanceof Error ? error : new Error(fallback)] *)
Definition as_Error (fallback : string) (e : exn) : exn :=
  match e with
  | OtherThrown => ErrorObj fallback
  | _ => e
  end.

Definition placeholder : string := "I processed your request.".

(** ** [hooks/use-chat.ts]: [useChat] *)
Module UseChat.
Record state : Type := State {
  messages : list Message.t;
  isLoading : bool;
  currentSteps : list jsval;
  conversationId : jsval
}.

(** [useState] initial values. *)
Definition init : state := State [] false [] (Some JNull).

(** The [let] variables of the [try] block. *)
Record locals : Type := Locals {
  assistantContent : jsval;
  responseData : jsval;
  executionTrace : list json;
  processingTime : jsval;
  newConversationId : jsval
}.

Definition locals0 (st : state) : locals :=
  Locals (Some (JStr "")) (Some JNull) [] (Some (JNum 0)) (conversationId st).

(** What the turn did besides setting state: the request it sent, the
    calls of [options.onStepUpdate] and [options.onError], and how the
    promise of [sendMessage] settled. *)
Record turn : Type := Turn {
  final : state;
  outcome : settled;
  requests : list request;
  stepUpdates : list json;
  errorsReported : list exn
}.

(** The body of [for await (const chunk of api.chatStream(...))].  The
    one statement that can throw into the [catch] is the first property
    read, on a [null] chunk, before any state is set. *)
Definition on_chunk (chunk : json) (st : state) (v : locals)
  : except (state * locals) :=
  let c : jsval := Some chunk in
  cid ← get c "conversation_id";
  let fresh := JS_truthy cid && negb (JS_truthy (newConversationId v)) in
  let v1 := if fresh
            then Locals (assistantContent v) (responseData v)
                   (executionTrace v) (processingTime v) cid
            else v in
  let st1 := if fresh
             then State (messages st) (isLoading st) (currentSteps st) cid
             else st in
  agent ← get c "agent";
  '(st2, v2) ←
    (if JS_truthy agent then
       steps ← in_render (step_update c (currentSteps st1));
       Ok (State (messages st1) (isLoading st1) steps (conversationId st1),
           Locals (assistantContent v1) (responseData v1)
             (executionTrace v1 ++ [chunk]) (processingTime v1)
             (newConversationId v1))
     else Ok (st1, v1));
  text ← get c "content";
  let v3 := match text with
            | Some _ => Locals text (responseData v2) (executionTrace v2)
                          (processingTime v2) (newConversationId v2)
            | None => v2
            end in
  kind ← get c "response_type";
  let v4 := if JS_truthy kind
            then Locals (assistantContent v3) c (executionTrace v3)
                   (processingTime v3) (newConversationId v3)
            else v3 in
  time ← get c "processing_time_ms";
  let v5 := if JS_truthy time
            then Locals (assistantContent v4) (responseData v4)
                   (executionTrace v4) time (newConversationId v4)
            else v4 in
  Ok (st2, v5).

(** The loop over the yielded chunks: the state and variables when it
    stops, and what stopped it. *)
Fixpoint for_await (chunks : list json) (st : state) (v : locals)
  : state * locals * option exn :=
  match chunks with
  | [] => (st, v, None)
  | chunk :: rest =>
      match on_chunk chunk st v with
      | Ok (st', v') => for_await rest st' v'
      | Throw e => (st, v, Some e)
      end
  end.

Definition assistantMessage (v : locals) : Message.t :=
  Message.Make Message.assistant
    (if JS_truthy (assistantContent v) then assistantContent v
     else Some (JStr placeholder))
    (responseData v)
    (Some (executionTrace v))
    (processingTime v).

(** The [finally] block. *)
Definition finally (st : state) : state :=
  State (messages st) false [] (conversationId st).

(** The state once the user message is queued and the turn is open. *)
Definition started (content : string) (st : state) : state :=
  State (messages st ++ [userMessage (trim content)]) true [] (conversationId st).

Definition chat_request (content : string) (st : state) : request :=
  Request "/api/v1/chat/stream" content
    (if JS_truthy (conversationId st) then conversationId st else None).

Section Parser.
Variable JSON_parse : string → option json.

(** [sendMessage(content)] run to the end against the network [net]. *)
Definition sendMessage (content : string) (net : fetched) (st : state) : turn :=
  if negb (JS_truthy (Some (JStr (trim content)))) || isLoading st
  then Turn st Resolved [] [] []
  else
    let '(yielded, stop) := Api.chatStream JSON_parse net in
    let '(st1, v, thrown) := for_await yielded (started content st) (locals0 st) in
    let failure := match thrown with Some e => Some e | None => stop end in
    match failure with
    | None =>
        Turn (finally (State (messages st1 ++ [assistantMessage v])
                         (isLoading st1) (currentSteps st1)
                         (conversationId st1)))
          Resolved [chat_request content st] (executionTrace v) []
    | Some RenderFault =>
        Turn st1 Unmounted [chat_request content st] (executionTrace v) []
    | Some e =>
        let err := as_Error "Unknown error" e in
        Turn (finally st1) (Rejected err) [chat_request content st]
          (executionTrace v) [err]
    end.
End Parser.

(** [clearMessages] and [abort] ([abortControllerRef] is never assigned,
    so [abort] only sets state). *)
Definition clearMessages (st : state) : state :=
  State [] (isLoading st) [] (Some JNull).

Definition abort (st : state) : state :=
  State (messages st) false [] (conversationId st).
End UseChat.

(** ** The home page: [HomePage.handleSubmit] *)
Module HomePage.
Inductive toast : Type :=
| toast_success (title : string)
| toast_error (title description : string).

Record state : Type := State {
  messages : list Message.t;
  input : string;
  isLoading : bool;
  currentSteps : list jsval;
  showDataViewer : bool;
  currentData : jsval
}.

Definition init : state := State [] "" false [] false (Some JNull).

Record locals : Type := Locals {
  assistantContent : jsval;
  responseData : jsval;
  executionTrace : list json;
  processingTime : jsval
}.

Definition locals0 : locals :=
  Locals (Some (JStr "")) (Some JNull) [] (Some (JNum 0)).

Record turn : Type := Turn {
  final : state;
  outcome : settled;
  requests : list request;
  toasts : list toast
}.

Definition with_steps (st : state) (steps : list jsval) : state :=
  State (messages st) (input st) (isLoading st) steps
    (showDataViewer st) (currentData st).

(** The statements of the inner [try] after [JSON.parse]. *)
Definition on_data (d : json) (st : state) (v : locals)
  : except (state * locals) :=
  let c : jsval := Some d in
  agent ← get c "agent";
  '(st1, v1) ←
    (if JS_truthy agent then
       steps ← in_render (step_update c (currentSteps st));
       Ok (with_steps st steps,
           Locals (assistantContent v) (responseData v)
             (executionTrace v ++ [d]) (processingTime v))
     else Ok (st, v));
  text ← get c "content";
  let v2 := match text with
            | Some _ => Locals text (responseData v1) (executionTrace v1)
                          (processingTime v1)
            | None => v1
            end in
  kind ← get c "response_type";
  let v3 := if JS_truthy kind
            then Locals (assistantContent v2) c (executionTrace v2)
                   (processingTime v2)
            else v2 in
  time ← get c "processing_time_ms";
  let v4 := if JS_truthy time
            then Locals (assistantContent v3) (responseData v3)
                   (executionTrace v3) time
            else v3 in
  Ok (st1, v4).

Definition assistantMessage (v : locals) : Message.t :=
  Message.Make Message.assistant
    (if JS_truthy (assistantContent v) then assistantContent v
     else Some (JStr placeholder))
    (responseData v)
    (Some (executionTrace v))
    (processingTime v).

Definition finally (st : state) : state :=
  State (messages st) (input st) false [] (showDataViewer st) (currentData st).

(** [if (responseData && responseData.response_type !== 'text')] *)
Definition reveals_viewer (v : locals) : bool :=
  JS_truthy (responseData v) &&
  match get (responseData v) "response_type" with
  | Ok kind => negb (strict_eq kind (Some (JStr "text")))
  | Throw _ => false
  end.

Section Parser.
Variable JSON_parse : string → option json.

(** The body of [for (const line of lines)].  The inner [catch] takes
    what [JSON.parse] and the property reads throw; nothing has been set
    when they do. *)
Definition on_line (line : string) (st : state) (v : locals)
  : except (state * locals) :=
  if String.prefix "event:" line then Ok (st, v)
  else if String.prefix "data:" line then
    match JSON_parse (trim (replace_first "data:" "" line)) with
    | None => Ok (st, v)
    | Some d =>
        match on_data d st v with
        | Ok r => Ok r
        | Throw e => if catchable e then Ok (st, v) else Throw e
        end
    end
  else Ok (st, v).

Fixpoint on_lines (lines : list string) (st : state) (v : locals)
  : except (state * locals) :=
  match lines with
  | [] => Ok (st, v)
  | line :: rest => '(st', v') ← on_line line st v; on_lines rest st' v'
  end.

(** [while (true)]: each value read is decoded and split on its own. *)
Fixpoint read_loop (values : list string) (st : state) (v : locals)
  : except (state * locals) :=
  match values with
  | [] => Ok (st, v)
  | value :: rest =>
      '(st', v') ← on_lines (split_lines value) st v;
      read_loop rest st' v'
  end.

(** The last statement of the outer [try],
<<
    toast.success('Response generated', {
        description: `Processed in ${(processingTime / 1000).toFixed(2)}s`,
    });
>>
    The division throws when [processingTime] cannot be turned into a
    number; the [catch] block then shows the error toast instead. *)
Definition closing_toast (time : jsval) : toast :=
  if ToNumber_throws time
  then toast_error "Failed to process request" "Please try again."
  else toast_success "Response generated".

(** The end of the outer [try] once the body is read: the assistant
    message is appended and the viewer set before the toast is built. *)
Definition completed (st : state) (v : locals) (req : request) : turn :=
  let show := reveals_viewer v in
  Turn (finally (State (messages st ++ [assistantMessage v]) (input st)
                   (isLoading st) (currentSteps st)
                   (if show then true else showDataViewer st)
                   (if show then responseData v else currentData st)))
    Resolved [req] [closing_toast (processingTime v)].

Definition failed (st : state) (req : request) : turn :=
  Turn (finally st) Resolved [req]
    [toast_error "Failed to process request" "Please try again."].

(** [handleSubmit()] run to the end against the network [net]. *)
Definition handleSubmit (net : fetched) (st : state) : turn :=
  if negb (JS_truthy (Some (JStr (trim (input st))))) || isLoading st
  then Turn st Resolved [] []
  else
    let text := trim (input st) in
    let st0 := State (messages st ++ [userMessage text]) "" true []
                 (showDataViewer st) (currentData st) in
    let req := Request "/api/chat/stream" text None in
    match net with
    | FetchRejected _ => failed st0 req
    | Response false _ _ => failed st0 req
    | Response true _ None => completed st0 locals0 req
    | Response true _ (Some b) =>
        match read_loop (reads b) st0 locals0 with
        | Throw _ => Turn st0 Unmounted [req] []
        | Ok (st1, v) =>
            match ending b with
            | StreamDone => completed st1 v req
            | ReadRejected _ => failed st1 req
            end
        end
    end.
End Parser.
End HomePage.

(** ** [hooks/use-chat.ts]: [useWebSocketChat] *)
Module UseWebSocketChat.
Record state : Type := State {
  messages : list Message.t;
  isConnected : bool;
  isLoading : bool;
  currentSteps : list jsval;
  wsRef : bool  (** [wsRef.current] holds a socket *)
}.

(** Before the effect has run. *)
Definition init : state := State [] false false [] false.

(** The effect: the socket is created and stored in [wsRef]. *)
Definition mount (st : state) : state :=
  State (messages st) (isConnected st) (isLoading st) (currentSteps st) true.

Definition onopen (st : state) : state :=
  State (messages st) true (isLoading st) (currentSteps st) (wsRef st).

Definition onclose (st : state) : state :=
  State (messages st) false (isLoading st) (currentSteps st) (wsRef st).

Definition is_type (ty : jsval) (name : string) : bool :=
  strict_eq ty (Some (JStr name)).

(** [case 'response'] *)
Definition on_response (payload : jsval) (st : state) : except state :=
  text ← get payload "message";
  block ← get payload "data";
  time ← get payload "processing_time_ms";
  Ok (State (messages st ++ [Message.Make Message.assistant text block None time])
        (isConnected st) false [] (wsRef st)).

(** [case 'error'] *)
Definition on_error (payload : jsval) (st : state) : except state :=
  _ ← get payload "message";
  Ok (State (messages st) (isConnected st) false [] (wsRef st)).

(** [case 'step'] *)
Definition on_step (payload : jsval) (st : state) : except state :=
  steps ← in_render (step_update payload (currentSteps st));
  Ok (State (messages st) (isConnected st) (isLoading st) steps (wsRef st)).

(** The [switch (data.type)] on a parsed message. *)
Definition dispatch (d : json) (st : state) : except state :=
  ty ← get (Some d) "type";
  if is_type ty "ack" then Ok st
  else if is_type ty "step" then
    payload ← get (Some d) "data"; on_step payload st
  else if is_type ty "response" then
    payload ← get (Some d) "data"; on_response payload st
  else if is_type ty "error" then
    payload ← get (Some d) "data"; on_error payload st
  else Ok st.

(** [try { ... } catch (e) { console.error(...) }] *)
Definition try_dispatch (d : json) (st : state) : except state :=
  match dispatch d st with
  | Ok st' => Ok st'
  | Throw e => if catchable e then Ok st else Throw e
  end.

Fixpoint replay (ds : list json) (st : state) : except state :=
  match ds with
  | [] => Ok st
  | d :: rest => st' ← try_dispatch d st; replay rest st'
  end.

(** A frame sent on the socket: [{ message, conversation_id }]. *)
Record frame : Type :=
  Frame { frame_message : string; frame_conversation_id : option string }.

(** [sendMessage(content, conversationId)]: the new state and the frames
    sent. *)
Definition sendMessage (content : string) (conversationId : option string)
    (st : state) : state * list frame :=
  if negb (JS_truthy (Some (JStr (trim content)))) || isLoading st
     || negb (wsRef st)
  then (st, [])
  else (State (messages st ++ [userMessage (trim content)]) (isConnected st)
          true [] (wsRef st),
        [Frame content conversationId]).

Definition clearMessages (st : state) : state :=
  State [] (isConnected st) (isLoading st) [] (wsRef st).

Section Parser.
Variable JSON_parse : string → option json.

(** [ws.onmessage] on the text of one message. *)
Definition onmessage (text : string) (st : state) : except state :=
  match JSON_parse text with
  | None => Ok st
  | Some d => try_dispatch d st
  end.

Fixpoint onmessages (texts : list string) (st : state) : except state :=
  match texts with
  | [] => Ok st
  | text :: rest => st' ← onmessage text st; onmessages rest st'
  end.
End Parser.
End UseWebSocketChat.

(** ** The upload flows: [UploadModal] and [InlineUpload] *)
Module Upload.
Inductive status_t : Type :=
| pending | uploading | processing | completed | failed.

(** [UploadedFile]; the [File] object is represented by its name. *)
Record UploadedFile : Type := Make {
  id : string;
  file : string;
  status : status_t;
  progress : Z;
  error : option string;
  jobId : jsval
}.

(** What the upload request of one file meets: [fetch] rejects, or it
    resolves with [response.ok] and [response.json()] resolves with a
    value ([None]: it rejects). *)
Inductive outcome : Type :=
| rejected
| responded (ok : bool) (result : option json).

(** One turn of the loop of [uploadFiles], as the event loop runs it.
    [ticks] counts the firings of the progress interval while the request
    is pending.  [early] counts the completion timers set before this turn
    that fire while the turn waits (for the answer, and in the inline
    upload for the delay of its [catch] block): the timers of a component
    all run the same time, so they fire oldest first, and a request can
    outlast them. *)
Record net : Type := Make_net { ticks : nat; result_of : outcome; early : nat }.

(** A turn that meets its answer before any completion timer fires. *)
Definition Net (ticks : nat) (result : outcome) : net :=
  Make_net ticks result 0%nat.

(** [prev.map((f) => f.id === id ? g(f) : f)] *)
Definition map_id (target : string) (g : UploadedFile → UploadedFile)
    (prev : list UploadedFile) : list UploadedFile :=
  map (λ f, if String.eqb (id f) target then g f else f) prev.

Definition is_pending (f : UploadedFile) : bool :=
  match status f with pending => true | _ => false end.

Definition to_uploading (f : UploadedFile) : UploadedFile :=
  Make (id f) (file f) uploading 0 (error f) (jobId f).

Definition to_processing (p : Z) (job : jsval) (f : UploadedFile) : UploadedFile :=
  Make (id f) (file f) processing p (error f) job.

Definition to_completed (f : UploadedFile) : UploadedFile :=
  Make (id f) (file f) completed 100 (error f) (jobId f).

Definition to_failed (msg : string) (f : UploadedFile) : UploadedFile :=
  Make (id f) (file f) failed (progress f) (Some msg) (jobId f).

(** The [try] block up to [await response.json()]: the body of the answer,
    or a throw. *)
Definition try_request (o : outcome) : except json :=
  match o with
  | rejected => Throw (ErrorObj "Failed to fetch")
  | responded false _ => Throw (ErrorObj "Upload failed")
  | responded true None => Throw (ErrorObj "SyntaxError")
  | responded true (Some result) => Ok result
  end.

(** The updater queued once the body is there,
<<
    (prev) => prev.map((f) => f.id === uploadFile.id
        ? { ...f, status: 'processing', progress: p, jobId: result.job_id }
        : f)
>>
    [result.job_id] is read when the updater runs, and for a file of that
    id only. *)
Definition set_processing (p : Z) (result : json) (target : string)
    (prev : list UploadedFile) : except (list UploadedFile) :=
  match get (Some result) "job_id" with
  | Ok job => Ok (map_id target (to_processing p job) prev)
  | Throw e =>
      if existsb (λ f, String.eqb (id f) target) prev then Throw e else Ok prev
  end.

(** A hook state and the timers still pending, oldest first, each the id
    of the file its callback marks completed. *)
Record run : Type := Run {
  files : list UploadedFile;
  isUploading : bool;
  timers : list string
}.

(** The oldest [n] pending timers fire. *)
Definition fire (n : nat) (r : run) : run :=
  Run (foldl (λ fs target, map_id target to_completed fs) (files r)
         (take n (timers r)))
    (isUploading r) (drop n (timers r)).

(** Every pending timer fires. *)
Definition settle (r : run) : run :=
  Run (foldl (λ fs target, map_id target to_completed fs) (files r) (timers r))
    (isUploading r) [].

(** The component as [uploadFiles] goes on: mounted with its state, or
    taken down.  React takes the component down when a state updater throws
    while it renders; no [setFiles] has an effect from then on, and
    [Unmounted_at r] keeps the state [r] that was rendered last. *)
Inductive component : Type :=
| Mounted (r : run)
| Unmounted_at (r : run).

Definition shown (c : component) : run :=
  match c with
  | Mounted r | Unmounted_at r => r
  end.

(** The updaters run in the renderer: the statements after [setFiles] run
    on, but a throw of the updater takes the component down with what it
    showed before. *)
Definition render (r : run) (update : except (list UploadedFile))
    (timer : list string) : component :=
  match in_render update with
  | Ok fs => Mounted (Run fs (isUploading r) (timers r ++ timer))
  | Throw _ => Unmounted_at (Run (files r) (isUploading r) [])
  end.
End Upload.

Module UploadModal.
Import Upload.

(** One turn of [for (const uploadFile of files)] on the files shown. *)
Definition upload_one (n : net) (uploadFile : UploadedFile) (c : component)
  : component :=
  match c with
  | Unmounted_at _ => c
  | Mounted r =>
      if negb (is_pending uploadFile) then c
      else
        let target := id uploadFile in
        let r1 := fire (early n)
                    (Run (map_id target to_uploading (files r))
                       (isUploading r) (timers r)) in
        match try_request (result_of n) with
        | Ok result =>
            render r1 (set_processing 50 result target (files r1)) [target]
        | Throw _ =>
            Mounted
              (Run (map_id target (to_failed "Upload failed. Please try again.")
                      (files r1))
                 (isUploading r1) (timers r1))
        end
  end.

Fixpoint upload_loop (nets : nat → net) (i : nat) (todo : list UploadedFile)
    (c : component) : component :=
  match todo with
  | [] => c
  | uploadFile :: rest =>
      upload_loop nets (S i) rest (upload_one (nets i) uploadFile c)
  end.

(** [uploadFiles()] called in the state [st]; [nets i] is what the turn
    of the [i]-th file meets. *)
Definition upload (nets : nat → net) (st : run) : component :=
  match files st with
  | [] => Mounted st
  | _ =>
      match upload_loop nets 0 (files st)
              (Mounted (Run (files st) true (timers st))) with
      | Mounted r => Mounted (Run (files r) false (timers r))
      | Unmounted_at r => Unmounted_at r
      end
  end.

(** What the component shows when [uploadFiles] has returned. *)
Definition uploadFiles (nets : nat → net) (st : run) : run :=
  shown (upload nets st).
End UploadModal.

Module InlineUpload.
Import Upload.

(** One firing of the progress interval. *)
Definition tick (target : string) (prev : list UploadedFile) : list UploadedFile :=
  map (λ f, if String.eqb (id f) target && (progress f <? 90)
            then Make (id f) (file f) (status f) (progress f + 10)
                   (error f) (jobId f)
            else f) prev.

Definition upload_one (n : net) (uploadFile : UploadedFile) (c : component)
  : component :=
  match c with
  | Unmounted_at _ => c
  | Mounted r =>
      if negb (is_pending uploadFile) then c
      else
        let target := id uploadFile in
        let fs := map_id target to_uploading (files r) in
        let fs := Nat.iter (ticks n) (tick target) fs in
        let r1 := fire (early n) (Run fs (isUploading r) (timers r)) in
        match try_request (result_of n) with
        | Ok result =>
            render r1 (set_processing 70 result target (files r1)) [target]
        | Throw _ =>
            (* the catch block: "For demo, simulate success after a delay" *)
            Mounted (Run (map_id target to_completed (files r1))
                       (isUploading r1) (timers r1))
        end
  end.

Fixpoint upload_loop (nets : nat → net) (i : nat) (todo : list UploadedFile)
    (c : component) : component :=
  match todo with
  | [] => c
  | uploadFile :: rest =>
      upload_loop nets (S i) rest (upload_one (nets i) uploadFile c)
  end.

Definition upload (nets : nat → net) (st : run) : component :=
  match files st with
  | [] => Mounted st
  | _ =>
      match upload_loop nets 0 (files st)
              (Mounted (Run (files st) true (timers st))) with
      | Mounted r => Mounted (Run (files r) false (timers r))
      | Unmounted_at r => Unmounted_at r
      end
  end.

Definition uploadFiles (nets : nat → net) (st : run) : run :=
  shown (upload nets st).
End InlineUpload.

(** ** [hooks/use-ingestion.ts]: the polling loop *)
Module UseIngestion.
Inductive status_t : Type :=
| pending | processing | completed | failed.

(** [IngestionJobStatus] *)
Record IngestionJobStatus : Type := Make {
  job_id : string;
  status : status_t;
  filename : string;
  progress : Q;
  chunks_processed : Z;
  total_chunks : Z;
  error : option string
}.

Inductive callback : Type :=
| onUploadComplete (jobId : string)
| onProcessingComplete (s : IngestionJobStatus)
| onError (e : exn).

(** The hook's state with the part of the event loop its closures live
    in: the status requests awaiting a response, the [setTimeout(poll,
    interval)] timers not yet fired (each by its job id), and the
    callbacks called so far. *)
Record world : Type := World {
  jobs : gmap string IngestionJobStatus;
  isUploading : bool;
  inflight : list string;
  timers : list string;
  called : list callback
}.

Definition init : world := World ∅ false [] [] [].

(** Removes one occurrence. *)
Fixpoint remove_one (j : string) (l : list string) : list string :=
  match l with
  | [] => []
  | x :: rest => if String.eqb x j then rest else x :: remove_one j rest
  end.

Definition mem (j : string) (l : list string) : bool :=
  existsb (String.eqb j) l.

(** [pollJobStatus(jobId)]: [poll()] is called at once and awaits
    [api.getIngestionStatus(jobId)]. *)
Definition pollJobStatus (jobId : string) (w : world) : world :=
  World (jobs w) (isUploading w) (inflight w ++ [jobId]) (timers w) (called w).

(** [status.error || 'Processing failed'] *)
Definition failure_message (st : IngestionJobStatus) : string :=
  match error st with
  | Some msg => if String.eqb msg "" then "Processing failed" else msg
  | None => "Processing failed"
  end.

(** The rest of [poll] once the status request of [jobId] has settled:
    [api.getIngestionStatus] resolved with a status, or it threw. *)
Definition poll_settles (jobId : string) (r : except IngestionJobStatus)
    (w : world) : world :=
  let waiting := remove_one jobId (inflight w) in
  match r with
  | Ok st =>
      let next := <[jobId := st]> (jobs w) in
      match status st with
      | completed =>
          World next (isUploading w) waiting (timers w)
            (called w ++ [onProcessingComplete st])
      | failed =>
          World next (isUploading w) waiting (timers w)
            (called w ++ [onError (ErrorObj (failure_message st))])
      | _ =>
          World next (isUploading w) waiting (timers w ++ [jobId]) (called w)
      end
  | Throw e =>
      World (jobs w) (isUploading w) waiting (timers w)
        (called w ++ [onError (as_Error "Status check failed" e)])
  end.

(** A timer set by [setTimeout(poll, interval)] fires. *)
Definition timer_fires (jobId : string) (w : world) : world :=
  World (jobs w) (isUploading w) (inflight w ++ [jobId])
    (remove_one jobId (timers w)) (called w).

(** [clearJobs()] *)
Definition clearJobs (w : world) : world :=
  World ∅ (isUploading w) (inflight w) (timers w) (called w).

(** [uploadFile(file)] once [api.uploadDocument] has resolved with
    [job_id]. *)
Definition uploadFile_accepted (jobId name : string) (w : world) : world :=
  let w1 := World (<[jobId := Make jobId pending name 0 0 0 None]> (jobs w))
              (isUploading w) (inflight w) (timers w)
              (called w ++ [onUploadComplete jobId]) in
  let w2 := pollJobStatus jobId w1 in
  World (jobs w2) false (inflight w2) (timers w2) (called w2).

(** What can happen next.  A response needs its request in flight, a
    timer firing needs the timer pending. *)
Inductive event : Type :=
| Settles (jobId : string) (r : except IngestionJobStatus)
| Fires (jobId : string)
| ClearJobs.

Definition enabled (ev : event) (w : world) : bool :=
  match ev with
  | Settles j _ => mem j (inflight w)
  | Fires j => mem j (timers w)
  | ClearJobs => true
  end.

Definition step (ev : event) (w : world) : world :=
  match ev with
  | Settles j r => poll_settles j r w
  | Fires j => timer_fires j w
  | ClearJobs => clearJobs w
  end.

(** A run of the event loop; [None] when an event is not enabled. *)
Fixpoint run (evs : list event) (w : world) : option world :=
  match evs with
  | [] => Some w
  | ev :: rest => if enabled ev w then run rest (step ev w) else None
  end.

(** [uploadFile(file)] run until its promise settles; [r] is what
    [api.uploadDocument(file)] gave.  The response is what its type says,
    an [IngestionResponse]. *)
Definition uploadFile (name : string) (r : except Api.IngestionResponse)
    (w : world) : world * settled :=
  match r with
  | Ok response => (uploadFile_accepted (Api.job_id response) name w, Resolved)
  | Throw e =>
      let err := as_Error "Upload failed" e in
      (World (jobs w) false (inflight w) (timers w) (called w ++ [onError err]),
       Rejected err)
  end.

(** [s.includes(t)] *)
Fixpoint includes (s t : string) : bool :=
  String.prefix t s ||
  match s with
  | "" => false
  | String _ rest => includes rest t
  end.

(** [files.find((f) => job.message.includes(f.name))], then
    [file?.name || 'Unknown']; a [File] is represented by its name. *)
Definition filename_for (files : list string) (text : string) : string :=
  match List.find (λ name, includes text name) files with
  | Some name => if String.eqb name "" then "Unknown" else name
  | None => "Unknown"
  end.

(** One turn of [for (const job of response.jobs)] in [uploadFiles]. *)
Definition track (files : list string) (job : Api.IngestionResponse) (w : world)
  : world :=
  if String.eqb (Api.job_id job) "" then w
  else
    pollJobStatus (Api.job_id job)
      (World (<[Api.job_id job :=
                  Make (Api.job_id job) pending
                    (filename_for files (Api.message job)) 0 0 0 None]> (jobs w))
         (isUploading w) (inflight w) (timers w) (called w)).

(** [uploadFiles(files)] run until its promise settles; [r] is the [jobs]
    of what [api.uploadDocuments(files)] gave. *)
Definition uploadFiles (files : list string)
    (r : except (list Api.IngestionResponse)) (w : world) : world * settled :=
  match r with
  | Ok response_jobs =>
      let w1 := foldl (λ acc job, track files job acc) w response_jobs in
      (World (jobs w1) false (inflight w1) (timers w1) (called w1), Resolved)
  | Throw e =>
      let err := as_Error "Upload failed" e in
      (World (jobs w) false (inflight w) (timers w) (called w ++ [onError err]),
       Rejected err)
  end.

(** [getJobStatus(jobId)] *)
Definition getJobStatus (jobId : string) (w : world) : option IngestionJobStatus :=
  jobs w !! jobId.

End UseIngestion.

(** ** [app/upload/page.tsx]: the upload page, a caller of [useIngestion] *)
Module UploadPage.
(** The page's own state; a [File] is represented by its name. *)
Record state : Type := State { dragActive : bool; selectedFiles : list string }.

(** [prev.filter((_, i) => keep(i))]; [i] is the index of the head. *)
Fixpoint filter_index {A} (keep : nat → bool) (i : nat) (prev : list A) : list A :=
  match prev with
  | [] => []
  | x :: rest =>
      if keep i then x :: filter_index keep (S i) rest
      else filter_index keep (S i) rest
  end.

Definition handleDrop (files : list string) (st : state) : state :=
  State false (selectedFiles st ++ files).

Definition handleFileSelect (files : list string) (st : state) : state :=
  State (dragActive st) (selectedFiles st ++ files).

(** [removeFile(index)] *)
Definition removeFile (index : nat) (st : state) : state :=
  State (dragActive st)
    (filter_index (λ i, negb (i =? index)%nat) 0 (selectedFiles st)).

(** [handleUpload()] run to the end: the page and the hook afterwards.
    [a] is what the request of [api.uploadDocuments] meets. *)
Definition handleUpload (a : Api.answer (list Api.IngestionResponse))
    (st : state) (w : UseIngestion.world) : state * UseIngestion.world :=
  match selectedFiles st with
  | [] => (st, w)
  | _ =>
      match UseIngestion.uploadFiles (selectedFiles st) (Api.uploadDocuments a) w with
      | (w', Resolved) => (State (dragActive st) [], w')
      | (w', _) => (st, w')
      end
  end.
End UploadPage.


(** ** [getFileIcon]

    The upload modal, the inline upload and the upload page each define
    the same table and the same function.  A name is a string of bytes;
    only its ASCII letters can make it one of the keys. *)
Module FileIcon.
Inductive icon : Type :=
| FileText | FileSpreadsheet | Table | Image | File
| Inherited.  (** what the table object inherits from [Object.prototype] *)

Definition fileTypeIcons : list (string * icon) :=
  [("pdf", FileText); ("doc", FileText); ("docx", FileText); ("txt", FileText);
   ("md", FileText); ("xlsx", FileSpreadsheet); ("xls", FileSpreadsheet);
   ("csv", Table); ("png", Image); ("jpg", Image); ("jpeg", Image)].

(** The properties every object inherits; each holds a truthy value. *)
Definition inherited : list string :=
  ["constructor"; "__defineGetter__"; "__defineSetter__"; "hasOwnProperty";
   "__lookupGetter__"; "__lookupSetter__"; "isPrototypeOf";
   "propertyIsEnumerable"; "toString"; "valueOf"; "__proto__";
   "toLocaleString"].

(** [fileTypeIcons[ext]] *)
Definition property (ext : string) : option icon :=
  match List.find (λ kv, String.eqb ext kv.1) fileTypeIcons with
  | Some kv => Some kv.2
  | None => if existsb (String.eqb ext) inherited then Some Inherited else None
  end.

Definition lower (c : Ascii.ascii) : Ascii.ascii :=
  let n := Ascii.nat_of_ascii c in
  if (65 <=? n)%nat && (n <=? 90)%nat then Ascii.ascii_of_nat (n + 32) else c.

Fixpoint toLowerCase (s : string) : string :=
  match s with
  | "" => ""
  | String c rest => String (lower c) (toLowerCase rest)
  end.

Definition dot : Ascii.ascii := "."%char.

(** [s.split('.')] *)
Fixpoint split_dots (s : string) : list string :=
  match s with
  | "" => [""]
  | String c rest =>
      if Ascii.eqb c dot then "" :: split_dots rest
      else match split_dots rest with
           | l :: ls => String c l :: ls
           | [] => [String c ""]
           end
  end.

(** [filename.split('.').pop()?.toLowerCase() || ''] *)
Definition extension (filename : string) : string :=
  toLowerCase (default "" (last (split_dots filename))).

Definition getFileIcon (filename : string) : icon :=
  default File (property (extension filename)).
End FileIcon.


(** ** A reference reader and writer for the closed examples

    [JSON.parse] is a parameter of everything above.  The examples below
    run with [Sample.parse], which reads the fragment of JSON they use:
    [null], [true], [false], integers, strings without escapes, arrays and
    objects.  [Sample.stringify] writes a value of that fragment the way
    [JSON.stringify] does. *)
Module Sample.
Definition quote : Ascii.ascii := "034"%char.

Definition is_digit (c : Ascii.ascii) : bool :=
  match Ascii.is_nat c with Some _ => true | None => false end.

(** JSON white space: space, tab, line feed, carriage return. *)
Definition is_ws (c : Ascii.ascii) : bool :=
  match c with
  | " " | "009" | "010" | "013" => true
  | _ => false
  end%char.

Fixpoint skip_ws (s : list Ascii.ascii) : list Ascii.ascii :=
  match s with
  | c :: rest => if is_ws c then skip_ws rest else s
  | [] => []
  end.

(** The characters of a string up to its closing quote. *)
Fixpoint read_string (s : list Ascii.ascii) : option (string * list Ascii.ascii) :=
  match s with
  | [] => None
  | c :: rest =>
      if Ascii.eqb c quote then Some ("", rest)
      else if Ascii.eqb c "\"%char || (Ascii.nat_of_ascii c <? 32)%nat then None
      else '(t, rest') ← read_string rest; Some (String c t, rest')
  end.

Fixpoint read_digits (acc : Z) (s : list Ascii.ascii) : Z * list Ascii.ascii :=
  match s with
  | c :: rest =>
      match Ascii.is_nat c with
      | Some d => read_digits (10 * acc + Z.of_nat d) rest
      | None => (acc, s)
      end
  | [] => (acc, [])
  end.

(** An integer literal: no leading zero, no fraction, no exponent. *)
Definition read_number (s : list Ascii.ascii) : option (json * list Ascii.ascii) :=
  let '(neg, s1) := match s with
                    | "-"%char :: rest => (true, rest)
                    | _ => (false, s)
                    end in
  match s1 with
  | c :: rest =>
      if is_digit c then
        let '(n, s2) := read_digits 0 s1 in
        let leading_zero := Ascii.eqb c "0"%char &&
                            match rest with
                            | c' :: _ => is_digit c'
                            | [] => false
                            end in
        let more := match s2 with
                    | c' :: _ => Ascii.eqb c' "."%char || Ascii.eqb c' "e"%char
                                 || Ascii.eqb c' "E"%char
                    | [] => false
                    end in
        if leading_zero || more then None
        else Some (JNum (if neg then - n else n), s2)
      else None
  | [] => None
  end.

(** A later member with the same key replaces the earlier value. *)
Fixpoint set_member (k : string) (v : json) (fs : list (string * json))
  : list (string * json) :=
  match fs with
  | [] => [(k, v)]
  | (k', v') :: rest =>
      if String.eqb k k' then (k, v) :: rest else (k', v') :: set_member k v rest
  end.

Fixpoint read_value (fuel : nat) (s : list Ascii.ascii)
  : option (json * list Ascii.ascii) :=
  match fuel with
  | O => None
  | S fuel' =>
      match skip_ws s with
      | "n" :: "u" :: "l" :: "l" :: rest => Some (JNull, rest)
      | "t" :: "r" :: "u" :: "e" :: rest => Some (JBool true, rest)
      | "f" :: "a" :: "l" :: "s" :: "e" :: rest => Some (JBool false, rest)
      | "[" :: rest =>
          match skip_ws rest with
          | "]" :: rest' => Some (JArr [], rest')
          | _ => '(xs, rest') ← read_elements fuel' rest; Some (JArr xs, rest')
          end
      | "{" :: rest =>
          match skip_ws rest with
          | "}" :: rest' => Some (JObj [], rest')
          | _ => '(fs, rest') ← read_members fuel' [] rest; Some (JObj fs, rest')
          end
      | c :: rest =>
          if Ascii.eqb c quote
          then '(t, rest') ← read_string rest; Some (JStr t, rest')
          else read_number (c :: rest)
      | [] => None
      end%char
  end
with read_elements (fuel : nat) (s : list Ascii.ascii)
  : option (list json * list Ascii.ascii) :=
  match fuel with
  | O => None
  | S fuel' =>
      '(x, rest) ← read_value fuel' s;
      match skip_ws rest with
      | "," :: rest' =>
          '(xs, rest'') ← read_elements fuel' rest'; Some (x :: xs, rest'')
      | "]" :: rest' => Some ([x], rest')
      | _ => None
      end%char
  end
with read_members (fuel : nat) (acc : list (string * json)) (s : list Ascii.ascii)
  : option (list (string * json) * list Ascii.ascii) :=
  match fuel with
  | O => None
  | S fuel' =>
      match skip_ws s with
      | c :: rest =>
          if Ascii.eqb c quote then
            '(k, rest1) ← read_string rest;
            match skip_ws rest1 with
            | ":" :: rest2 =>
                '(v, rest3) ← read_value fuel' rest2;
                let acc' := set_member k v acc in
                match skip_ws rest3 with
                | "," :: rest4 => read_members fuel' acc' rest4
                | "}" :: rest4 => Some (acc', rest4)
                | _ => None
                end
            | _ => None
            end%char
          else None
      | [] => None
      end
  end.

Definition parse (text : string) : option json :=
  let s := String.list_ascii_of_string text in
  '(v, rest) ← read_value (S (length s)) s;
  match skip_ws rest with
  | [] => Some v
  | _ => None
  end.

Definition quoted (s : string) : string :=
  String quote (s +:+ String quote "").

Fixpoint join (sep : string) (parts : list string) : string :=
  match parts with
  | [] => ""
  | [p] => p
  | p :: rest => p +:+ sep +:+ join sep rest
  end.

Fixpoint stringify (v : json) : string :=
  match v with
  | JNull => "null"
  | JBool true => "true"
  | JBool false => "false"
  | JNum n => pretty n
  | JStr s => quoted s
  | JArr xs => "[" +:+ join "," (map stringify xs) +:+ "]"
  | JObj fs =>
      "{" +:+ join "," (map (λ kv, quoted kv.1 +:+ ":" +:+ stringify kv.2) fs)
      +:+ "}"
  end.

(** One line of the chunked stream. *)
Definition data_line (v : json) : string :=
  "data: " +:+ stringify v +:+ String newline "".

(** The events of the scenario in the specification: [switchboard] and
    [librarian] each go from running to completed, then the terminal
    payload says [pong]. *)
Definition step (agent status : string) : list (string * json) :=
  [("agent", JStr agent); ("status", JStr status);
   ("thinking", JStr "..."); ("output_summary", JStr "")].

Definition result (text : string) (ms : Z) : list (string * json) :=
  [("content", JStr text); ("processing_time_ms", JNum ms)].

Definition ping_steps : list (list (string * json)) :=
  [step "switchboard" "running"; step "librarian" "running";
   step "switchboard" "completed"; step "librarian" "completed"].

Definition pong : list (string * json) := result "pong" 12.

(** The scenario on the wire, and the same bytes cut in two inside the
    first line. *)
Definition ping_stream : string :=
  joined (map (λ fs, data_line (JObj fs)) (ping_steps ++ [pong])).

Definition cut_head : string := String.substring 0 20 ping_stream.
Definition cut_tail : string := slice_from 20 ping_stream.

Definition asked : HomePage.state :=
  HomePage.State [] "ping" false [] false (Some JNull).

(** A stream with a line that is no JSON between two good ones, read in
    two parts. *)
Definition line (v : json) : string := "data: " +:+ stringify v.

Definition bad_line : string := "data: {oops".

(** A line whose payload is the JSON text [null]. *)
Definition null_line : string := "data: null".

Definition lines_before : list string :=
  [line (JObj (step "switchboard" "completed"))].

Definition lines_after : list string := [line (JObj pong)].

Definition mixed_reads : list string :=
  let text := stream_of (lines_before ++ bad_line :: lines_after) in
  [String.substring 0 30 text; slice_from 30 text].

(** The scenario on the socket: one message per step event, then the
    response. *)
Definition step_message (fs : list (string * json)) : json :=
  JObj [("type", JStr "step"); ("data", JObj fs)].

Definition response_message (payload : list (string * json)) : json :=
  JObj [("type", JStr "response"); ("data", JObj payload)].

Definition pong_payload : list (string * json) :=
  [("message", JStr "pong"); ("processing_time_ms", JNum 12)].

Definition ping_messages : list json :=
  map step_message ping_steps ++ [response_message pong_payload].

Definition ping_net : fetched :=
  Response true "OK" (Some (Body [ping_stream] StreamDone)).

(** The same turn when the pipeline ends with an empty text. *)
Definition silent_net : fetched :=
  Response true "OK"
    (Some (Body [joined (map (λ fs, data_line (JObj fs))
                           (ping_steps ++ [result "" 12]))] StreamDone)).

Definition silent_messages : list json :=
  map step_message ping_steps ++
  [response_message [("message", JStr ""); ("processing_time_ms", JNum 12)]].

Definition socket_ready : UseWebSocketChat.state :=
  UseWebSocketChat.onopen (UseWebSocketChat.mount UseWebSocketChat.init).

(** The connection drops after one of the two expected step events: the
    body ends there, or the read rejects. *)
Definition first_line : string := line (JObj (step "switchboard" "running")).

Definition closed_early : fetched :=
  Response true "OK" (Some (Body [stream_of [first_line]] StreamDone)).

Definition broken_early : fetched :=
  Response true "OK"
    (Some (Body [stream_of [first_line]] (ReadRejected (ErrorObj "network error")))).

(** One document accepted for ingestion, and two answers of the status
    endpoint while it is processed. *)
Definition polling : UseIngestion.world :=
  UseIngestion.uploadFile_accepted "job-1" "report.pdf" UseIngestion.init.

Definition at_40 : UseIngestion.IngestionJobStatus :=
  UseIngestion.Make "job-1" UseIngestion.processing "report.pdf" (2 # 5) 4 10 None.

Definition at_60 : UseIngestion.IngestionJobStatus :=
  UseIngestion.Make "job-1" UseIngestion.processing "report.pdf" (3 # 5) 6 10 None.

(** A stream whose chunks announce two conversation ids, the second one
    with the text of the answer. *)
Definition first_id : list (string * json) := [("conversation_id", JStr "c-1")].

Definition second_id : list (string * json) :=
  [("conversation_id", JStr "c-2"); ("content", JStr "pong")].

Definition two_ids_net : fetched :=
  Response true "OK"
    (Some (Body [stream_of [line (JObj first_id); line (JObj second_id)]]
             StreamDone)).


(** A terminal chunk that names tabular data. *)
Definition table_block : list (string * json) :=
  [("response_type", JStr "table"); ("content", JStr "rows")].


(** The socket hook after the answer to [ping] has arrived. *)
Definition answered : UseWebSocketChat.state :=
  UseWebSocketChat.State
    [userMessage "ping";
     Message.Make Message.assistant (Some (JStr "pong")) None None (Some (JNum 12))]
    true false [] true.


(** Two files in an upload list, the first failed earlier, and a server
    that accepts every upload. *)
Definition failed_file : Upload.UploadedFile :=
  Upload.Make "f1" "a.pdf" Upload.failed 0
    (Some "Upload failed. Please try again.") None.

Definition two_files : Upload.run :=
  Upload.Run [failed_file; Upload.Make "f2" "b.pdf" Upload.pending 0 None None]
    false [].

Definition two_pending : Upload.run :=
  Upload.Run [Upload.Make "f1" "a.pdf" Upload.pending 0 None None;
              Upload.Make "f2" "b.pdf" Upload.pending 0 None None]
    false [].

Definition accepting : nat → Upload.net :=
  λ _, Upload.Net 0 (Upload.responded true (Some (JObj [("job_id", JStr "j-2")]))).

(** Two uploads accepted, the second answered after the completion timer
    of the first has fired. *)
Definition slow_second : nat → Upload.net :=
  λ i, match i with
       | O => Upload.Net 2 (Upload.responded true
                              (Some (JObj [("job_id", JStr "j-1")])))
       | _ => Upload.Make_net 9
                (Upload.responded true (Some (JObj [("job_id", JStr "j-2")])))
                1
       end.


(** A step event whose processing time is an object with a field
    [toString], and the stream that ends after it. *)
Definition odd_time : list (string * json) :=
  [("agent", JStr "switchboard");
   ("processing_time_ms", JObj [("toString", JNum 1)])].

Definition odd_net : fetched :=
  Response true "OK" (Some (Body [stream_of [line (JObj odd_time)]] StreamDone)).

(** White space beyond ASCII: U+00A0, U+2003, U+3000 and U+FEFF in UTF-8,
    then a tab. *)
Definition wide_space : string :=
  String "194" (String "160"
    (String "226" (String "128" (String "131"
      (String "227" (String "128" (String "128"
        (String "239" (String "187" (String "191"
          (String "009" ""))))))))))).

(** The last answer of the status endpoint for the document. *)
Definition at_100 : UseIngestion.IngestionJobStatus :=
  UseIngestion.Make "job-1" UseIngestion.completed "report.pdf" 1 10 10 None.

(** The hook when the document has been processed. *)
Definition processed : UseIngestion.world :=
  UseIngestion.World {["job-1" := at_100]} false [] []
    [UseIngestion.onUploadComplete "job-1"; UseIngestion.onProcessingComplete at_100].

End Sample.

(** * The vocabulary of the statements *)

Definition obj (fs : list (string * json)) : jsval := Some (JObj fs).

(** The agent a step event is addressed to: a non-empty string under
    [agent]. *)
Definition agent_name (fs : list (string * json)) : option string :=
  match assoc "agent" fs with
  | Some (JStr a) => if String.eqb a "" then None else Some a
  | _ => None
  end.

Definition StepEvent (fs : list (string * json)) : Prop :=
  is_Some (agent_name fs).

(** A chunk that is no step event for the reducer: its [agent] is absent
    or falsy. *)
Definition no_agent (fs : list (string * json)) : Prop :=
  JS_truthy (assoc "agent" fs) = false.

Definition for_agent (a : string) (fs : list (string * json)) : bool :=
  bool_decide (agent_name fs = Some a).

(** The reducer on step objects: what [step_update] computes when every
    value involved is a step event. *)
Definition upsert (e : list (string * json)) (prev : list (list (string * json)))
  : list (list (string * json)) :=
  match agent_name e with
  | Some a =>
      if existsb (for_agent a) prev
      then map (λ s, if for_agent a s then spread_fields s e else s) prev
      else prev ++ [e]
  | None => prev
  end.

(** The distinct names of a list, each at the place of its first
    occurrence. *)
Fixpoint first_seen (l : list string) : list string :=
  match l with
  | [] => []
  | a :: rest => a :: filter (λ b, b ≠ a) (first_seen rest)
  end.

Definition agents (es : list (list (string * json))) : list string :=
  omap agent_name es.

Definition events_for (a : string) (es : list (list (string * json)))
  : list (list (string * json)) :=
  filter (λ e, agent_name e = Some a) es.

(** The events of one agent merged in arrival order: each later event is
    spread over what came before. *)
Definition merge_all (l : list (list (string * json))) : list (string * json) :=
  match l with
  | [] => []
  | e :: rest => foldl spread_fields e rest
  end.

(** The reducer run over step objects from a given list. *)
Definition fold_steps (es prev : list (list (string * json)))
  : list (list (string * json)) :=
  foldl (λ acc e, upsert e acc) prev es.

(** What one iteration leaves in the variables that only depend on the
    chunk. *)
Definition content_after (fs : list (string * json)) (before : jsval) : jsval :=
  match assoc "content" fs with
  | Some x => Some x
  | None => before
  end.

Definition time_after (fs : list (string * json)) (before : jsval) : jsval :=
  if JS_truthy (assoc "processing_time_ms" fs)
  then assoc "processing_time_ms" fs
  else before.

Definition data_after (fs : list (string * json)) (before : jsval) : jsval :=
  if JS_truthy (assoc "response_type" fs) then obj fs else before.

(** The line is a [data:] line whose payload parses to the object [fs]. *)
Definition data_line_of (JSON_parse : string → option json)
    (line : string) (fs : list (string * json)) : Prop :=
  String.prefix "data:" line = true ∧
  JSON_parse (trim (replace_first "data:" "" line)) = Some (JObj fs).

Definition entry_agent (s : jsval) : option string :=
  match s with
  | Some (JObj fs) => agent_name fs
  | _ => None
  end.






(** The last message of a list, as the chat shows it. *)
Definition last_message (ms : list Message.t) : option Message.t := last ms.

(** The text holds no line feed: it is one line. *)
Fixpoint single_line (s : string) : bool :=
  match s with
  | "" => true
  | String c rest => negb (Ascii.eqb c newline) && single_line rest
  end.

Definition SingleLine (s : string) : Prop := single_line s = true.

(** What the socket dispatcher takes for the step event [e] and for a
    response with payload [p]: an object whose [type] is the discriminator
    and whose [data] is the event or the payload. *)
Definition step_message_of (d : json) (e : list (string * json)) : Prop :=
  ∃ fs, d = JObj fs ∧ assoc "type" fs = Some (JStr "step") ∧
        assoc "data" fs = Some (JObj e).

Definition response_message_of (d : json) (p : list (string * json)) : Prop :=
  ∃ fs, d = JObj fs ∧ assoc "type" fs = Some (JStr "response") ∧
        assoc "data" fs = Some (JObj p).

Definition with_ws_steps (st : UseWebSocketChat.state) (steps : list jsval)
  : UseWebSocketChat.state :=
  UseWebSocketChat.State (UseWebSocketChat.messages st)
    (UseWebSocketChat.isConnected st) (UseWebSocketChat.isLoading st) steps
    (UseWebSocketChat.wsRef st).

(** The socket hook once the user message is sent. *)
Definition ws_started (content : string) (cid : option string)
    (ws : UseWebSocketChat.state) : UseWebSocketChat.state :=
  (UseWebSocketChat.sendMessage content cid ws).1.

Definition is_object (v : jsval) : Prop := ∃ fs, v = Some (JObj fs).

(** The transport fails: [fetch] rejects, the response is not ok, or a
    read of the body rejects. *)
Definition transport_fails (net : fetched) : bool :=
  match net with
  | FetchRejected _ => true
  | Response false _ _ => true
  | Response true _ None => false
  | Response true _ (Some b) =>
      match ending b with
      | ReadRejected _ => true
      | StreamDone => false
      end
  end.

(** What a rejected [fetch] or read carries is a thrown value, not a fault
    of the renderer. *)
Definition network_exn (net : fetched) : Prop :=
  match net with
  | FetchRejected e => catchable e = true
  | Response _ _ (Some b) =>
      match ending b with
      | ReadRejected e => catchable e = true
      | StreamDone => True
      end
  | _ => True
  end.

(** The [catch] block of the turn runs: the request is rejected, the
    answer is not ok, or its body is no JSON. *)
Definition request_fails (n : Upload.net) : Prop :=
  ∃ e, Upload.try_request (Upload.result_of n) = Throw e.

(** The answer is ok and its body is [null]: the updater that reads
    [result.job_id] throws. *)
Definition null_body (n : Upload.net) : bool :=
  match Upload.result_of n with
  | Upload.responded true (Some JNull) => true
  | _ => false
  end.

Definition occurrences (j : string) (l : list string) : nat :=
  length (List.filter (String.eqb j) l).

(** The poll loops of job [j] that are alive: a status request in flight,
    or a timer that will send one. *)
Definition polls (j : string) (w : UseIngestion.world) : nat :=
  (occurrences j (UseIngestion.inflight w) + occurrences j (UseIngestion.timers w))%nat.

(** The response ends the loop: a terminal status, or a failed request. *)
Definition ends_poll (r : except UseIngestion.IngestionJobStatus) : bool :=
  match r with
  | Throw _ => true
  | Ok s =>
      match UseIngestion.status s with
      | UseIngestion.completed | UseIngestion.failed => true
      | _ => false
      end
  end.

(** The text is empty once trimmed. *)
Definition blank (content : string) : Prop := trim content = "".

Fixpoint all_space (s : string) : bool :=
  match s with
  | "" => true
  | String c rest => Ascii.is_space c && all_space rest
  end.

(** The file shows as failed, with the message of the upload modal. *)
Definition shown_failed (f : Upload.UploadedFile) : Prop :=
  Upload.status f = Upload.failed ∧
  Upload.error f = Some "Upload failed. Please try again.".

(** The chunk is a step update for the loops: its [agent] is truthy. *)
Definition has_agent (fs : list (string * json)) : bool :=
  JS_truthy (assoc "agent" fs).

(** The conversation id after a chunk: the first truthy [conversation_id]
    is taken, and only when none is known yet. *)
Definition id_after (fs : list (string * json)) (before : jsval) : jsval :=
  if JS_truthy (assoc "conversation_id" fs) && negb (JS_truthy before)
  then assoc "conversation_id" fs
  else before.

(** The first truthy [conversation_id] a list of chunks carries. *)
Fixpoint announced (es : list (list (string * json))) : jsval :=
  match es with
  | [] => None
  | e :: rest =>
      if JS_truthy (assoc "conversation_id" e) then assoc "conversation_id" e
      else announced rest
  end.

(** The text the chat shows for the accumulated content. *)
Definition shown_text (text : jsval) : jsval :=
  if JS_truthy text then text else Some (JStr placeholder).

(** The assistant message a list of object chunks amounts to: the last
    [content] given, the last chunk with a truthy [response_type], the
    chunks with a truthy [agent], the last truthy [processing_time_ms]. *)
Definition message_of (es : list (list (string * json))) : Message.t :=
  Message.Make Message.assistant
    (shown_text (foldl (λ acc e, content_after e acc) (Some (JStr "")) es))
    (foldl (λ acc e, data_after e acc) (Some JNull) es)
    (Some (map JObj (List.filter has_agent es)))
    (foldl (λ acc e, time_after e acc) (Some (JNum 0)) es).

(** The chunk names a kind of structured data. *)
Definition has_kind (fs : list (string * json)) : bool :=
  JS_truthy (assoc "response_type" fs).

(** The kind is not the string [text]. *)
Definition structured (fs : list (string * json)) : bool :=
  negb (strict_eq (assoc "response_type" fs) (Some (JStr "text"))).

(** The value under [k] in the entry of agent [a], [undefined] when the
    list has no such entry or the entry no such field. *)
Definition displayed_field (a k : string) (steps : list jsval) : jsval :=
  match List.find (λ s, bool_decide (entry_agent s = Some a)) steps with
  | Some (Some (JObj fs)) => assoc k fs
  | _ => None
  end.

(** The value the last event that has the field [k] gives it. *)
Definition last_given (k : string) (l : list (list (string * json))) : jsval :=
  foldl (λ acc e, match assoc k e with Some x => Some x | None => acc end) None l.

(** The keys of an object, as [JSON.parse] builds it: no key twice. *)
Definition distinct_keys (fs : list (string * json)) : Prop := NoDup (map fst fs).

(** The loop of [uploadFiles] over the files it was called with; [one] is
    one turn of it (the upload modal and the inline upload have the same
    loop around different turns). *)
Fixpoint upload_loop_with
    (one : Upload.net → Upload.UploadedFile → Upload.component → Upload.component)
    (nets : nat → Upload.net) (i : nat) (todo : list Upload.UploadedFile)
    (c : Upload.component) : Upload.component :=
  match todo with
  | [] => c
  | uploadFile :: rest =>
      upload_loop_with one nets (S i) rest (one (nets i) uploadFile c)
  end.

(** The request got a body: the turn sets the completion timer. *)
Definition sets_timer (n : Upload.net) : bool :=
  match Upload.try_request (Upload.result_of n) with
  | Ok _ => true
  | Throw _ => false
  end.

(** The [job_id] of the body, [undefined] when the body has none. *)
Definition job_of (n : Upload.net) : jsval :=
  match Upload.try_request (Upload.result_of n) with
  | Ok (JObj fs) => assoc "job_id" fs
  | _ => None
  end.

(** The component has a file of this id. *)
Definition has_file (target : string) (l : list Upload.UploadedFile) : bool :=
  existsb (λ f, String.eqb (Upload.id f) target) l.

(** What a turn of the upload modal makes of a file it is for, once the
    answer is handled. *)
Definition modal_ends (n : Upload.net) (f : Upload.UploadedFile)
  : Upload.UploadedFile :=
  if sets_timer n then Upload.to_processing 50 (job_of n) f
  else Upload.to_failed "Upload failed. Please try again." f.

(** One firing of the progress interval, on the file it is for. *)
Definition tick1 (f : Upload.UploadedFile) : Upload.UploadedFile :=
  if Upload.progress f <? 90
  then Upload.Make (Upload.id f) (Upload.file f) (Upload.status f)
         (Upload.progress f + 10) (Upload.error f) (Upload.jobId f)
  else f.

(** What a turn of the inline upload shows for a file it is for while the
    request is pending, and what it makes of it once the answer is
    handled. *)
Definition inline_starts (n : Upload.net) (f : Upload.UploadedFile)
  : Upload.UploadedFile :=
  Nat.iter (Upload.ticks n) tick1 (Upload.to_uploading f).

Definition inline_ends (n : Upload.net) (f : Upload.UploadedFile)
  : Upload.UploadedFile :=
  if sets_timer n then Upload.to_processing 70 (job_of n) f
  else Upload.to_completed f.

(** A completion timer for the file is pending. *)
Definition awaited (ts : list string) (f : Upload.UploadedFile) : bool :=
  existsb (String.eqb (Upload.id f)) ts.

(** The run of a turn while it waits for its answer: the files of the
    turn's id show what [starts] makes of them, and the oldest [early]
    timers have fired. *)
Definition waiting (starts : Upload.net → Upload.UploadedFile → Upload.UploadedFile)
    (n : Upload.net) (u : Upload.UploadedFile) (r : Upload.run) : Upload.run :=
  Upload.fire (Upload.early n)
    (Upload.Run (Upload.map_id (Upload.id u) (starts n) (Upload.files r))
       (Upload.isUploading r) (Upload.timers r)).

(** No answer takes the component down. *)
Definition stays_mounted (nets : nat → Upload.net) : Prop :=
  ∀ i, null_body (nets i) = false.

(** Where the file at place [k] stands once the loop is past it: as its
    turn left it with its timer waiting, or completed by that timer, which
    takes a later turn that lets timers fire; as its turn left it when the
    turn set no timer. *)
Definition past_turn_at
    (starts ends : Upload.net → Upload.UploadedFile → Upload.UploadedFile)
    (nets : nat → Upload.net) (f : Upload.UploadedFile) (k : nat)
    (r : Upload.run) : Prop :=
  let left := ends (nets k) (starts (nets k) f) in
  if sets_timer (nets k)
  then (Upload.files r !! k = Some left ∧ Upload.id f ∈ Upload.timers r) ∨
       (Upload.files r !! k = Some (Upload.to_completed left) ∧
        ∃ j, (k < j)%nat ∧ Upload.early (nets j) ≠ 0%nat)
  else Upload.files r !! k = Some left ∧ Upload.id f ∉ Upload.timers r.

(** The poll loops alive in the hook, of all jobs. *)
Definition chains (w : UseIngestion.world) : nat :=
  (length (UseIngestion.inflight w) + length (UseIngestion.timers w))%nat.

(** The callbacks a poll loop ends with. *)
Definition ends_chain (c : UseIngestion.callback) : bool :=
  match c with
  | UseIngestion.onProcessingComplete _ | UseIngestion.onError _ => true
  | UseIngestion.onUploadComplete _ => false
  end.

Definition delivered (w : UseIngestion.world) : nat :=
  length (List.filter ends_chain (UseIngestion.called w)).

(** The callback a terminal status is reported with. *)
Definition report (s : UseIngestion.IngestionJobStatus) : UseIngestion.callback :=
  match UseIngestion.status s with
  | UseIngestion.failed =>
      UseIngestion.onError (ErrorObj (UseIngestion.failure_message s))
  | _ => UseIngestion.onProcessingComplete s
  end.

(** The life of one poll loop: each status of [ss] is answered and the
    timer it sets fires, then the status [s] is answered. *)
Definition poll_events (j : string) (ss : list UseIngestion.IngestionJobStatus)
    (s : UseIngestion.IngestionJobStatus) : list UseIngestion.event :=
  flat_map (λ si, [UseIngestion.Settles j (Ok si); UseIngestion.Fires j]) ss
  ++ [UseIngestion.Settles j (Ok s)].

(** The ids [uploadFiles] starts to poll: the ids that are not empty. *)
Definition tracked (response_jobs : list Api.IngestionResponse) : list string :=
  List.filter (λ j, negb (String.eqb j "")) (map Api.job_id response_jobs).

(** The text holds no dot. *)
Fixpoint no_dot (s : string) : bool :=
  match s with
  | "" => true
  | String c rest => negb (Ascii.eqb c FileIcon.dot) && no_dot rest
  end.

(** The line gives no event to read: it is no [data:] line, or what
    follows the prefix is no JSON text. *)
Definition unreadable (JSON_parse : string → option json) (line : string) : Prop :=
  String.prefix "data:" line = false ∨
  JSON_parse (trim (replace_first "data:" "" line)) = None.

(** The line is a [data:] line whose payload is the JSON text [null]. *)
Definition null_line (JSON_parse : string → option json) (line : string) : Prop :=
  String.prefix "data:" line = true ∧
  JSON_parse (trim (replace_first "data:" "" line)) = Some JNull.

(** The text of a socket message that carries the step event [e]. *)
Definition step_text_of (JSON_parse : string → option json)
    (text : string) (e : list (string * json)) : Prop :=
  ∃ d, JSON_parse text = Some d ∧ step_message_of d e.


(** * Properties *)

(** ** Objects and spreads *)

Lemma assoc_app k (l1 l2 : list (string * json)) :
  assoc k (l1 ++ l2) =
  match assoc k l1 with Some v => Some v | None => assoc k l2 end.
Proof.
  induction l1 as [|[k' v] l1 IH]; simpl; [done|].
  by destruct (String.eqb k k').
Qed.

Lemma assoc_overridden k (s p : list (string * json)) :
  assoc k (map (λ kv, (kv.1, default kv.2 (assoc kv.1 p))) s) =
  match assoc k s with
  | Some v => Some (default v (assoc k p))
  | None => None
  end.
Proof.
  induction s as [|[k' v] s IH]; simpl; [done|].
  destruct (String.eqb k k') eqn:E; [|done].
  apply String.eqb_eq in E. by subst.
Qed.

Lemma assoc_added k (s p : list (string * json)) :
  assoc k (filter (λ kv, assoc kv.1 s = None) p) =
  match assoc k s with
  | Some _ => None
  | None => assoc k p
  end.
Proof.
  induction p as [|[k' v] p IH]; simpl.
  - by destruct (assoc k s).
  - rewrite filter_cons. simpl. case_decide as Hk'; simpl.
    + destruct (String.eqb k k') eqn:E; [|done].
      apply String.eqb_eq in E. subst. by rewrite Hk'.
    + rewrite IH. destruct (String.eqb k k') eqn:E; [|done].
      apply String.eqb_eq in E. subst. by destruct (assoc k' s).
Qed.

(** A field of [{ ...s, ...p }] is the field of [p] when [p] has it, and
    the field of [s] otherwise. *)
Lemma assoc_spread k (s p : list (string * json)) :
  assoc k (spread_fields s p) =
  match assoc k p with Some v => Some v | None => assoc k s end.
Proof.
  unfold spread_fields.
  rewrite assoc_app, assoc_overridden, assoc_added.
  destruct (assoc k s), (assoc k p); done.
Qed.

(** ** Step events *)

Lemma agent_name_truthy fs a :
  agent_name fs = Some a → JS_truthy (assoc "agent" fs) = true.
Proof.
  unfold agent_name. destruct (assoc "agent" fs) as [[]|]; try done.
  simpl. by destruct (String.eqb s "").
Qed.

Lemma agent_name_field fs a :
  agent_name fs = Some a → assoc "agent" fs = Some (JStr a).
Proof.
  unfold agent_name. destruct (assoc "agent" fs) as [[]|]; try done.
  destruct (String.eqb s ""); naive_solver.
Qed.

Lemma same_agent_steps e s a b :
  agent_name e = Some a → agent_name s = Some b →
  same_agent (obj e) (obj s) = Ok (for_agent a s).
Proof.
  intros He Hs. unfold same_agent, for_agent. simpl.
  rewrite (agent_name_field _ _ He), (agent_name_field _ _ Hs), Hs. simpl.
  f_equal. destruct (String.eqb b a) eqn:E.
  - apply String.eqb_eq in E. subst. by rewrite bool_decide_eq_true_2.
  - apply String.eqb_neq in E. rewrite bool_decide_eq_false_2; [done|congruence].
Qed.

Lemma array_find_steps e a prev :
  agent_name e = Some a → Forall StepEvent prev →
  array_find (same_agent (obj e)) (map obj prev) =
  Ok (if existsb (for_agent a) prev
      then obj (default [] (List.find (for_agent a) prev))
      else None).
Proof.
  intros He. induction 1 as [|s prev [b Hs] _ IH]; [done|].
  cbn [array_find List.map existsb List.find].
  rewrite (same_agent_steps _ _ _ _ He Hs). cbn [mbind except_bind].
  destruct (for_agent a s); [done|].
  by rewrite IH.
Qed.

Lemma array_map_steps e a prev :
  agent_name e = Some a → Forall StepEvent prev →
  array_map (λ s, hit ← same_agent (obj e) s;
                  Ok (if hit : bool then spread s (obj e) else s)) (map obj prev) =
  Ok (map obj (map (λ s, if for_agent a s then spread_fields s e else s) prev)).
Proof.
  intros He. induction 1 as [|s prev [b Hs] _ IH]; [done|].
  cbn [array_map List.map].
  rewrite (same_agent_steps _ _ _ _ He Hs). cbn [mbind except_bind].
  rewrite IH. cbn [mbind except_bind]. by destruct (for_agent a s).
Qed.

(** On step events the updater never throws, and it is [upsert]. *)
Lemma step_update_steps e prev :
  StepEvent e → Forall StepEvent prev →
  step_update (obj e) (map obj prev) = Ok (map obj (upsert e prev)).
Proof.
  intros [a He] Hprev. unfold step_update, upsert.
  rewrite (array_find_steps _ _ _ He Hprev), He. simpl.
  destruct (existsb (for_agent a) prev); simpl.
  - by apply array_map_steps.
  - by rewrite map_app.
Qed.

Lemma agent_name_spread s e a :
  agent_name e = Some a → agent_name (spread_fields s e) = Some a.
Proof.
  intros He. unfold agent_name in *. rewrite assoc_spread.
  destruct (assoc "agent" e) as [[]|]; done.
Qed.

Lemma upsert_steps e prev :
  StepEvent e → Forall StepEvent prev → Forall StepEvent (upsert e prev).
Proof.
  intros [a He] Hprev. unfold upsert. rewrite He.
  destruct (existsb (for_agent a) prev).
  - apply Forall_map. eapply Forall_impl; [exact Hprev|].
    intros s Hs. simpl. destruct (for_agent a s); [|done].
    exists a. by apply agent_name_spread.
  - apply Forall_app. split; [done|]. constructor; [by exists a|constructor].
Qed.

(** ** What a sequence of step events folds to *)

Lemma elem_of_first_seen a l : a ∈ first_seen l ↔ a ∈ l.
Proof.
  induction l as [|b l IH]; simpl; [done|].
  rewrite !elem_of_cons, list_elem_of_filter, IH.
  destruct (decide (a = b)); naive_solver.
Qed.

Lemma first_seen_sound a l : a ∈ first_seen l → a ∈ l.
Proof. apply elem_of_first_seen. Qed.


Lemma first_seen_snoc l a :
  first_seen (l ++ [a]) =
  if decide (a ∈ l) then first_seen l else first_seen l ++ [a].
Proof.
  induction l as [|b l IH]; simpl; [done|].
  rewrite IH. destruct (decide (a ∈ l)) as [Hin|Hout].
  - rewrite decide_True; [done|by constructor].
  - rewrite filter_app, filter_cons, filter_nil.
    destruct (decide (a = b)) as [->|Hne].
    + rewrite (decide_True (P := b ∈ b :: l)) by constructor.
      rewrite (decide_False (P := b ≠ b)) by (intros H; by apply H).
      by rewrite app_nil_r.
    + rewrite (decide_False (P := a ∈ b :: l))
        by (rewrite elem_of_cons; naive_solver).
      by rewrite decide_True.
Qed.

Lemma merge_all_snoc l e :
  merge_all (l ++ [e]) =
  match l with
  | [] => e
  | _ => spread_fields (merge_all l) e
  end.
Proof.
  destruct l as [|e0 l]; simpl; [done|]. by rewrite foldl_snoc.
Qed.

Lemma agent_name_merge_all a l :
  l ≠ [] → Forall (λ e, agent_name e = Some a) l →
  agent_name (merge_all l) = Some a.
Proof.
  induction l as [|e l IH] using rev_ind; [done|].
  intros _ [Hl He]%Forall_app. apply Forall_cons in He as [He _].
  rewrite merge_all_snoc. destruct l as [|e0 l]; [done|].
  by apply agent_name_spread.
Qed.

Lemma events_for_snoc a es e :
  events_for a (es ++ [e]) =
  if decide (agent_name e = Some a) then events_for a es ++ [e]
  else events_for a es.
Proof.
  unfold events_for. rewrite filter_app, filter_cons, filter_nil.
  case_decide; [done|]. by rewrite app_nil_r.
Qed.

Lemma events_for_all a es : Forall (λ e, agent_name e = Some a) (events_for a es).
Proof.
  apply Forall_forall. intros e. unfold events_for.
  rewrite list_elem_of_filter. naive_solver.
Qed.

Lemma events_for_nil a es : events_for a es = [] ↔ a ∉ agents es.
Proof.
  unfold events_for, agents. rewrite list_elem_of_omap. split.
  - intros Hnil (e & He & Ha).
    by apply (filter_nil_not_elem_of _ _ e Hnil Ha).
  - intros Hout. induction es as [|e es IH]; [done|].
    rewrite filter_cons. case_decide as Ha.
    + destruct Hout. exists e. split; [constructor|done].
    + apply IH. intros (e' & He' & Ha'). apply Hout.
      exists e'. split; [by constructor|done].
Qed.

Lemma agents_snoc es e a :
  agent_name e = Some a → agents (es ++ [e]) = agents es ++ [a].
Proof. intros He. unfold agents. rewrite omap_app. simpl. by rewrite He. Qed.

Lemma agent_name_merged a es :
  a ∈ agents es → agent_name (merge_all (events_for a es)) = Some a.
Proof.
  intros Ha. apply agent_name_merge_all; [|apply events_for_all].
  intros Hnil%events_for_nil. done.
Qed.

(** The reducer's list after any sequence of step events, in closed form:
    one entry per distinct agent, in first-seen order, each the merge of
    that agent's events. *)
Lemma fold_steps_closed es :
  Forall StepEvent es →
  fold_steps es [] =
  map (λ a, merge_all (events_for a es)) (first_seen (agents es)).
Proof.
  unfold fold_steps.
  induction es as [|e es IH] using rev_ind; [done|].
  intros [Hes He]%Forall_app. apply Forall_cons in He as [[a He] _].
  rewrite foldl_snoc, (IH Hes). clear IH.
  rewrite (agents_snoc _ _ _ He), first_seen_snoc.
  unfold upsert. rewrite He.
  assert (∀ b, b ∈ first_seen (agents es) →
     for_agent a (merge_all (events_for b es)) = bool_decide (b = a)) as Hkey.
  { intros b Hb%first_seen_sound. unfold for_agent.
    rewrite (agent_name_merged _ _ Hb).
    apply bool_decide_ext. naive_solver. }
  destruct (decide (a ∈ agents es)) as [Hin|Hout].
  - assert (existsb (for_agent a)
      (map (λ b, merge_all (events_for b es)) (first_seen (agents es))) = true)
      as ->.
    { apply existsb_exists. exists (merge_all (events_for a es)). split.
      - apply in_map_iff. exists a. split; [done|].
        apply list_elem_of_In. by apply elem_of_first_seen.
      - rewrite Hkey by (by apply elem_of_first_seen).
        by apply bool_decide_eq_true_2. }
    rewrite map_map. apply map_ext_in. intros b Hb%list_elem_of_In.
    rewrite (Hkey _ Hb), events_for_snoc.
    destruct (decide (b = a)) as [->|Hne].
    + rewrite bool_decide_eq_true_2 by done. rewrite decide_True by done.
      rewrite merge_all_snoc.
      destruct (events_for a es) eqn:E; [|done].
      by apply events_for_nil in E.
    + rewrite bool_decide_eq_false_2 by done.
      rewrite decide_False by congruence. done.
  - assert (existsb (for_agent a)
      (map (λ b, merge_all (events_for b es)) (first_seen (agents es))) = false)
      as ->.
    { apply not_true_is_false. intros (s & Hs & Hfor)%existsb_exists.
      apply in_map_iff in Hs as (b & <- & Hb%list_elem_of_In).
      rewrite (Hkey _ Hb) in Hfor. apply bool_decide_eq_true_1 in Hfor.
      subst. by apply first_seen_sound in Hb. }
    rewrite map_app. f_equal.
    + apply map_ext_in. intros b Hb%list_elem_of_In.
      rewrite events_for_snoc, decide_False; [done|].
      rewrite He. intros [= <-]. by apply first_seen_sound in Hb.
    + simpl. rewrite events_for_snoc, decide_True by done.
      apply events_for_nil in Hout. rewrite Hout. done.
Qed.

(** ** The loop of [useChat] on step events and plain chunks *)

Lemma no_agent_name fs : no_agent fs → agent_name fs = None.
Proof.
  unfold no_agent. intros H. destruct (agent_name fs) as [a|] eqn:E; [|done].
  apply agent_name_truthy in E. congruence.
Qed.

Lemma upsert_no_agent fs prev : no_agent fs → upsert fs prev = prev.
Proof. intros H. unfold upsert. by rewrite (no_agent_name _ H). Qed.

Lemma fold_steps_snoc es e prev :
  fold_steps (es ++ [e]) prev = upsert e (fold_steps es prev).
Proof. unfold fold_steps. by rewrite foldl_snoc. Qed.

Lemma fold_steps_cons e es prev :
  fold_steps (e :: es) prev = fold_steps es (upsert e prev).
Proof. done. Qed.

Lemma fold_steps_valid es prev :
  Forall StepEvent es → Forall StepEvent prev → Forall StepEvent (fold_steps es prev).
Proof.
  intros Hes. revert prev. induction Hes as [|e es He _ IH]; intros prev Hprev.
  - done.
  - rewrite fold_steps_cons. apply IH. by apply upsert_steps.
Qed.

Lemma UseChat_on_chunk_step fs prev st v :
  StepEvent fs → Forall StepEvent prev →
  UseChat.currentSteps st = map obj prev →
  ∃ st' v',
    UseChat.on_chunk (JObj fs) st v = Ok (st', v') ∧
    UseChat.currentSteps st' = map obj (upsert fs prev) ∧
    UseChat.messages st' = UseChat.messages st ∧
    UseChat.isLoading st' = UseChat.isLoading st ∧
    UseChat.executionTrace v' = UseChat.executionTrace v ++ [JObj fs] ∧
    UseChat.assistantContent v' = content_after fs (UseChat.assistantContent v) ∧
    UseChat.processingTime v' = time_after fs (UseChat.processingTime v) ∧
    UseChat.responseData v' = data_after fs (UseChat.responseData v).
Proof.
  intros Hfs Hprev Hsteps. pose proof Hfs as [a Ha].
  unfold UseChat.on_chunk, content_after, time_after, data_after.
  cbn [get mbind except_bind].
  rewrite (agent_name_truthy _ _ Ha).
  assert (∀ b : bool,
    UseChat.currentSteps
      (if b then UseChat.State (UseChat.messages st) (UseChat.isLoading st)
                   (UseChat.currentSteps st) (assoc "conversation_id" fs)
       else st) = map obj prev) as Hs by (by intros []).
  rewrite Hs. fold (obj fs). rewrite (step_update_steps _ _ Hfs Hprev).
  cbn [in_render mbind except_bind].
  destruct (JS_truthy (assoc "conversation_id" fs)
            && negb (JS_truthy (UseChat.newConversationId v)));
    destruct (assoc "content" fs), (JS_truthy (assoc "response_type" fs)),
      (JS_truthy (assoc "processing_time_ms" fs));
    eexists _, _; (split; [reflexivity|]); repeat split; reflexivity.
Qed.

Lemma UseChat_on_chunk_plain fs st v :
  no_agent fs →
  ∃ st' v',
    UseChat.on_chunk (JObj fs) st v = Ok (st', v') ∧
    UseChat.currentSteps st' = UseChat.currentSteps st ∧
    UseChat.messages st' = UseChat.messages st ∧
    UseChat.isLoading st' = UseChat.isLoading st ∧
    UseChat.executionTrace v' = UseChat.executionTrace v ∧
    UseChat.assistantContent v' = content_after fs (UseChat.assistantContent v) ∧
    UseChat.processingTime v' = time_after fs (UseChat.processingTime v) ∧
    UseChat.responseData v' = data_after fs (UseChat.responseData v).
Proof.
  intros Hfs. unfold no_agent in Hfs.
  unfold UseChat.on_chunk, content_after, time_after, data_after.
  cbn [get mbind except_bind]. rewrite Hfs. cbn [mbind except_bind].
  destruct (JS_truthy (assoc "conversation_id" fs)
            && negb (JS_truthy (UseChat.newConversationId v)));
    destruct (assoc "content" fs), (JS_truthy (assoc "response_type" fs)),
      (JS_truthy (assoc "processing_time_ms" fs));
    eexists _, _; (split; [reflexivity|]); repeat split; reflexivity.
Qed.

(** The loop over a run of step events: the reducer's list is the fold,
    the trace grows by the events, nothing throws. *)
Lemma UseChat_for_await_steps es rest prev st v :
  Forall StepEvent es → Forall StepEvent prev →
  UseChat.currentSteps st = map obj prev →
  ∃ st' v',
    UseChat.for_await (map JObj es ++ rest) st v = UseChat.for_await rest st' v' ∧
    UseChat.currentSteps st' = map obj (fold_steps es prev) ∧
    UseChat.messages st' = UseChat.messages st ∧
    UseChat.isLoading st' = UseChat.isLoading st ∧
    UseChat.executionTrace v' = UseChat.executionTrace v ++ map JObj es ∧
    UseChat.assistantContent v' =
      foldl (λ acc e, content_after e acc) (UseChat.assistantContent v) es.
Proof.
  intros Hes. revert prev st v.
  induction Hes as [|e es He _ IH]; intros prev st v Hprev Hsteps.
  - exists st, v. by rewrite app_nil_r.
  - destruct (UseChat_on_chunk_step e prev st v He Hprev Hsteps)
      as (st1 & v1 & Hrun & Hs1 & Hm1 & Hl1 & Ht1 & Hc1 & _).
    destruct (IH (upsert e prev) st1 v1 (upsert_steps _ _ He Hprev) Hs1)
      as (st2 & v2 & Hrun2 & Hs2 & Hm2 & Hl2 & Ht2 & Hc2).
    exists st2, v2. cbn [List.map app UseChat.for_await foldl].
    rewrite Hrun, Hrun2, Hs2, Hm2, Hl2, Ht2, Hc2, Hm1, Hl1, Ht1, Hc1.
    by rewrite <- app_assoc.
Qed.

(** ** The loop of the home page on step events and plain chunks *)

Lemma HomePage_on_data_step fs prev st v :
  StepEvent fs → Forall StepEvent prev →
  HomePage.currentSteps st = map obj prev →
  ∃ v',
    HomePage.on_data (JObj fs) st v =
      Ok (HomePage.with_steps st (map obj (upsert fs prev)), v') ∧
    HomePage.executionTrace v' = HomePage.executionTrace v ++ [JObj fs] ∧
    HomePage.assistantContent v' = content_after fs (HomePage.assistantContent v) ∧
    HomePage.processingTime v' = time_after fs (HomePage.processingTime v) ∧
    HomePage.responseData v' = data_after fs (HomePage.responseData v).
Proof.
  intros Hfs Hprev Hsteps. pose proof Hfs as [a Ha].
  unfold HomePage.on_data, content_after, time_after, data_after.
  cbn [get mbind except_bind].
  rewrite (agent_name_truthy _ _ Ha), Hsteps.
  fold (obj fs). rewrite (step_update_steps _ _ Hfs Hprev).
  cbn [in_render mbind except_bind].
  eexists. split; [reflexivity|].
  destruct (assoc "content" fs), (JS_truthy (assoc "response_type" fs)),
    (JS_truthy (assoc "processing_time_ms" fs)); repeat split; reflexivity.
Qed.


Section HomePageLines.
Variable JSON_parse : string → option json.

Lemma data_line_not_event line :
  String.prefix "data:" line = true → String.prefix "event:" line = false.
Proof.
  destruct line as [|c line]; [done|]. cbn [String.prefix].
  destruct (ascii_dec "d" c) as [<-|]; [|done]. intros _.
  destruct (ascii_dec "e" "d"); [discriminate|done].
Qed.

Lemma HomePage_on_line_data line fs st v :
  data_line_of JSON_parse line fs →
  HomePage.on_line JSON_parse line st v =
  match HomePage.on_data (JObj fs) st v with
  | Ok r => Ok r
  | Throw e => if catchable e then Ok (st, v) else Throw e
  end.
Proof.
  intros [Hpre Hparse]. unfold HomePage.on_line.
  by rewrite (data_line_not_event _ Hpre), Hpre, Hparse.
Qed.

Lemma HomePage_on_lines_steps lines es rest prev st v :
  Forall2 (data_line_of JSON_parse) lines es →
  Forall StepEvent es → Forall StepEvent prev →
  HomePage.currentSteps st = map obj prev →
  ∃ v',
    HomePage.on_lines JSON_parse (lines ++ rest) st v =
      HomePage.on_lines JSON_parse rest
        (HomePage.with_steps st (map obj (fold_steps es prev))) v' ∧
    HomePage.executionTrace v' = HomePage.executionTrace v ++ map JObj es ∧
    HomePage.assistantContent v' =
      foldl (λ acc e, content_after e acc) (HomePage.assistantContent v) es ∧
    HomePage.processingTime v' =
      foldl (λ acc e, time_after e acc) (HomePage.processingTime v) es.
Proof.
  intros Hlines. revert prev st v.
  induction Hlines as [|line e lines es Hline _ IH];
    intros prev st v Hes Hprev Hsteps.
  - exists v. split; [|by rewrite app_nil_r]. simpl.
    destruct st. unfold HomePage.with_steps. simpl in *. by subst.
  - apply Forall_cons in Hes as [He Hes].
    destruct (HomePage_on_data_step e prev st v He Hprev Hsteps)
      as (v1 & Hrun & Ht1 & Hc1 & Hp1 & _).
    destruct (IH (upsert e prev) (HomePage.with_steps st (map obj (upsert e prev)))
                v1 Hes (upsert_steps _ _ He Hprev) eq_refl)
      as (v2 & Hrun2 & Ht2 & Hc2 & Hp2).
    exists v2. cbn [app HomePage.on_lines foldl].
    rewrite (HomePage_on_line_data _ _ _ _ Hline), Hrun.
    cbn [mbind except_bind]. rewrite Hrun2, Ht2, Ht1, Hc2, Hc1, Hp2, Hp1.
    split; [done|]. by rewrite <- app_assoc.
Qed.
End HomePageLines.

(** ** C2: one entry per agent, at its first-seen place, last write wins *)




Lemma ping_steps_are_steps : Forall StepEvent Sample.ping_steps.
Proof. repeat constructor; by eexists. Defined.


(** The scenario of the specification, run: two entries, both completed,
    in first-seen order. *)
Example ping_steps_fold :
  fold_steps Sample.ping_steps [] =
  [Sample.step "switchboard" "completed"; Sample.step "librarian" "completed"].
Proof. reflexivity. Qed.

(** ** C7: the status the list displays for an agent *)




Lemma find_for_agent_some a prev s :
  List.find (for_agent a) prev = Some s → existsb (for_agent a) prev = true.
Proof.
  intros H. apply existsb_exists. exists s.
  by apply find_some in H.
Qed.








(** ** C3: the chunked-stream parser and chunk boundaries *)

Lemma append_cons (x : Ascii.ascii) (a b : string) :
  String x a +:+ b = String x (a +:+ b).
Proof. reflexivity. Qed.

Lemma append_nil_l (b : string) : "" +:+ b = b.
Proof. reflexivity. Qed.

Lemma append_assoc (a b c : string) : (a +:+ b) +:+ c = a +:+ (b +:+ c).
Proof. induction a as [|x a IH]; [done|]. by rewrite !append_cons, IH. Qed.

Lemma append_nil_r (a : string) : a +:+ "" = a.
Proof. induction a as [|x a IH]; [done|]. by rewrite append_cons, IH. Qed.

Lemma split_lines_nonempty s : split_lines s ≠ [].
Proof.
  destruct s as [|c s]; [done|]. simpl.
  destruct (Ascii.eqb c newline); [done|]. by destruct (split_lines s).
Qed.

Lemma removelast_cons {A} (x : A) (l : list A) :
  l ≠ [] → removelast (x :: l) = x :: removelast l.
Proof. by destruct l. Qed.

Lemma last_cons_nonempty {A} (x : A) (l : list A) :
  l ≠ [] → last (x :: l) = last l.
Proof. by destruct l. Qed.

Lemma removelast_app_nonempty {A} (l1 l2 : list A) :
  l2 ≠ [] → removelast (l1 ++ l2) = l1 ++ removelast l2.
Proof. intros H. by apply removelast_app. Qed.

Lemma last_app_nonempty {A} (l1 l2 : list A) :
  l2 ≠ [] → last (l1 ++ l2) = last l2.
Proof.
  intros H. destruct l2 as [|x l2 _] using rev_ind; [done|].
  by rewrite app_assoc, !last_snoc.
Qed.

(** Splitting the text [a +:+ b]: the complete lines of [a], then the
    lines of what [a] left unfinished followed by [b]. *)
Lemma split_lines_app a b :
  split_lines (a +:+ b) =
  removelast (split_lines a) ++
  split_lines (default "" (last (split_lines a)) +:+ b).
Proof.
  induction a as [|c a IH]; [done|].
  rewrite append_cons. cbn [split_lines].
  destruct (Ascii.eqb c newline) eqn:Hc.
  - rewrite removelast_cons, last_cons_nonempty by apply split_lines_nonempty.
    by rewrite IH.
  - rewrite IH. pose proof (split_lines_nonempty a) as Hne.
    destruct (split_lines a) as [|l [|l2 ls]]; [done| |].
    + cbn [removelast last default from_option id app]. rewrite append_cons.
      cbn [split_lines]. by rewrite Hc.
    + cbn [removelast last default from_option id app]. done.
Qed.

Section ChunkBoundaries.
Variable JSON_parse : string → option json.

(** Two reads in a row do what one read of the joined text does: the
    buffer carries the unfinished line over the boundary. *)
Lemma read_step_join buffer a b :
  Api.read_step JSON_parse buffer (a +:+ b) =
  ((Api.read_step JSON_parse
      (Api.read_step JSON_parse buffer a).1 b).1,
   (Api.read_step JSON_parse buffer a).2 ++
   (Api.read_step JSON_parse
      (Api.read_step JSON_parse buffer a).1 b).2).
Proof.
  unfold Api.read_step. cbn [fst snd].
  rewrite <- append_assoc, split_lines_app.
  set (l1 := split_lines (buffer +:+ a)).
  set (l2 := split_lines (default "" (last l1) +:+ b)).
  assert (l2 ≠ []) as Hl2 by apply split_lines_nonempty.
  rewrite removelast_app_nonempty, last_app_nonempty by done.
  by rewrite omap_app.
Qed.

Lemma read_loop_join buffer a b rest :
  Api.read_loop JSON_parse buffer (a :: b :: rest) =
  Api.read_loop JSON_parse buffer ((a +:+ b) :: rest).
Proof.
  cbn [Api.read_loop]. rewrite (read_step_join buffer a b).
  destruct (Api.read_step JSON_parse buffer a) as [buffer1 out1].
  cbn [fst snd].
  destruct (Api.read_step JSON_parse buffer1 b) as [buffer2 out2].
  cbn [fst snd]. by rewrite app_assoc.
Qed.

(** However the stream is cut into reads, the generator yields what it
    yields on the whole text read at once. *)
Lemma read_loop_whole buffer a values :
  Api.read_loop JSON_parse buffer (a :: values) =
  Api.read_loop JSON_parse buffer [joined (a :: values)].
Proof.
  revert a. induction values as [|b values IH]; intros a.
  - cbn [joined foldr]. by rewrite append_nil_r.
  - rewrite read_loop_join, IH. cbn [joined foldr].
    by rewrite append_assoc.
Qed.

(** The same, for the generator: cutting one read in two at any place
    changes neither what [chatStream] yields nor how it ends. *)
Lemma chatStream_split a b before after fin statusText :
  Api.chatStream JSON_parse
    (Response true statusText
       (Some (Body (before ++ [a; b] ++ after) fin))) =
  Api.chatStream JSON_parse
    (Response true statusText
       (Some (Body (before ++ [a +:+ b] ++ after) fin))).
Proof.
  cbn [Api.chatStream reads ending]. f_equal.
  generalize "" as buffer.
  induction before as [|x before IH]; intros buffer.
  - apply read_loop_join.
  - cbn [app Api.read_loop].
    destruct (Api.read_step JSON_parse buffer x) as [buffer' out].
    by rewrite IH.
Qed.
End ChunkBoundaries.

(** C3 on the home page.  [HomePage.handleSubmit] decodes and splits every
    read on its own and keeps no buffer.  The scenario stream read whole
    gives the trace of its four step events; the same bytes read in two
    parts, cut inside the first line, lose the event of that line: both
    halves of the line fail to parse and are skipped.  [chatStream], fed the
    same two reads, yields what it yields on the whole. *)
Theorem C3_home_page_cut_drops_event :
  Sample.cut_head +:+ Sample.cut_tail = Sample.ping_stream ∧
  Message.executionTrace <$>
    last_message (HomePage.messages (HomePage.final
      (HomePage.handleSubmit Sample.parse
         (Response true "OK" (Some (Body [Sample.ping_stream] StreamDone)))
         Sample.asked)))
  = Some (Some (map JObj Sample.ping_steps)) ∧
  Message.executionTrace <$>
    last_message (HomePage.messages (HomePage.final
      (HomePage.handleSubmit Sample.parse
         (Response true "OK"
            (Some (Body [Sample.cut_head; Sample.cut_tail] StreamDone)))
         Sample.asked)))
  = Some (Some (map JObj (tail Sample.ping_steps))) ∧
  Api.chatStream Sample.parse
    (Response true "OK"
       (Some (Body [Sample.cut_head; Sample.cut_tail] StreamDone)))
  = Api.chatStream Sample.parse
      (Response true "OK" (Some (Body [Sample.ping_stream] StreamDone))).
Proof. repeat split; vm_compute; reflexivity. Qed.

(** ** A stream of complete lines, and the messages of a socket *)

Lemma split_lines_line l rest :
  SingleLine l →
  split_lines (l +:+ String newline "" +:+ rest) = l :: split_lines rest.
Proof.
  unfold SingleLine. induction l as [|c l IH]; intros Hl.
  - done.
  - simpl in Hl. apply andb_true_iff in Hl as [Hc Hl].
    apply negb_true_iff in Hc.
    rewrite append_cons. cbn [split_lines]. rewrite Hc, (IH Hl). done.
Qed.

Lemma stream_of_cons l ls :
  stream_of (l :: ls) = l +:+ String newline "" +:+ stream_of ls.
Proof. unfold stream_of. cbn [List.map joined foldr]. by rewrite append_assoc. Qed.

Lemma split_lines_stream_of ls :
  Forall SingleLine ls → split_lines (stream_of ls) = ls ++ [""].
Proof.
  induction 1 as [|l ls Hl _ IH]; [done|].
  by rewrite stream_of_cons, (split_lines_line _ _ Hl), IH.
Qed.

Section MalformedUnits.
Variable JSON_parse : string → option json.

(** A stream of complete lines read whole: one attempt per line, in
    order, nothing left over. *)
Lemma read_step_stream_of ls :
  Forall SingleLine ls →
  Api.read_step JSON_parse "" (stream_of ls) =
  ("", omap (Api.line_event JSON_parse) ls).
Proof.
  intros Hls. unfold Api.read_step.
  rewrite append_nil_l, (split_lines_stream_of _ Hls).
  by rewrite removelast_last, last_snoc.
Qed.

Lemma read_loop_stream_of ls values :
  Forall SingleLine ls → joined values = stream_of ls →
  Api.read_loop JSON_parse "" values = omap (Api.line_event JSON_parse) ls.
Proof.
  intros Hls Hjoin. destruct values as [|a values].
  - destruct ls as [|l ls]; [done|].
    rewrite stream_of_cons in Hjoin. cbn in Hjoin.
    destruct l; discriminate.
  - rewrite read_loop_whole, Hjoin. cbn [Api.read_loop].
    rewrite (read_step_stream_of _ Hls). by rewrite app_nil_r.
Qed.

Lemma onmessages_app before after st :
  UseWebSocketChat.onmessages JSON_parse (before ++ after) st =
  st' ← UseWebSocketChat.onmessages JSON_parse before st;
  UseWebSocketChat.onmessages JSON_parse after st'.
Proof.
  revert st. induction before as [|m before IH]; intros st; [done|].
  cbn [app UseWebSocketChat.onmessages].
  destruct (UseWebSocketChat.onmessage JSON_parse m st) as [st1|e]; [|done].
  cbn [mbind except_bind]. apply IH.
Qed.
End MalformedUnits.

(** ** C1: the two transports side by side *)

Lemma ws_dispatch_step d e prev st :
  step_message_of d e → StepEvent e → Forall StepEvent prev →
  UseWebSocketChat.currentSteps st = map obj prev →
  UseWebSocketChat.try_dispatch d st = Ok (with_ws_steps st (map obj (upsert e prev))).
Proof.
  intros (fs & -> & Hty & Hdata) He Hprev Hst.
  unfold UseWebSocketChat.try_dispatch, UseWebSocketChat.dispatch.
  cbn [get mbind except_bind]. rewrite Hty, Hdata.
  cbn [UseWebSocketChat.is_type strict_eq String.eqb Ascii.eqb Bool.eqb].
  unfold UseWebSocketChat.on_step. rewrite Hst. fold (obj e).
  by rewrite (step_update_steps _ _ He Hprev).
Qed.

Lemma ws_replay_steps ds es rest prev st :
  Forall2 step_message_of ds es → Forall StepEvent es → Forall StepEvent prev →
  UseWebSocketChat.currentSteps st = map obj prev →
  UseWebSocketChat.replay (ds ++ rest) st =
  UseWebSocketChat.replay rest (with_ws_steps st (map obj (fold_steps es prev))).
Proof.
  intros Hds. revert prev st.
  induction Hds as [|d e ds es Hd _ IH]; intros prev st Hes Hprev Hst.
  - cbn [app fold_steps foldl]. f_equal. destruct st. cbn in *. by subst.
  - apply Forall_cons in Hes as [He Hes].
    cbn [app UseWebSocketChat.replay].
    rewrite (ws_dispatch_step _ _ _ _ Hd He Hprev Hst). cbn [mbind except_bind].
    by rewrite (IH (upsert e prev) (with_ws_steps st (map obj (upsert e prev)))
                  Hes (upsert_steps _ _ He Hprev) eq_refl).
Qed.

Lemma ws_dispatch_response d p st :
  response_message_of d p →
  UseWebSocketChat.try_dispatch d st =
  Ok (UseWebSocketChat.State
        (UseWebSocketChat.messages st ++
         [Message.Make Message.assistant (assoc "message" p) (assoc "data" p)
            None (assoc "processing_time_ms" p)])
        (UseWebSocketChat.isConnected st) false [] (UseWebSocketChat.wsRef st)).
Proof.
  intros (fs & -> & Hty & Hdata).
  unfold UseWebSocketChat.try_dispatch, UseWebSocketChat.dispatch.
  cbn [get mbind except_bind]. rewrite Hty, Hdata. reflexivity.
Qed.

(** C1, as the code has it.  The same step events [es] and the same
    terminal text [c] and time [t] reach [useChat] as the chunks
    [es ++ [r]] and [useWebSocketChat] as the messages [ds ++ [dr]].
    While the turn is open the two hooks hold the same step list.  When it
    has closed, both have cleared the loading flag and the step list and
    have appended one assistant message with the same processing time.  The
    message of [useWebSocketChat] shows the text [c]; the message of
    [useChat] shows [c] too unless [c] is empty, and the placeholder when it
    is.  The message of [useChat] carries the trace of the step chunks and,
    as data, the last chunk that named a [response_type] (or [null]); the
    message of [useWebSocketChat] carries no trace and, as data, the [data]
    field of the payload. *)
Theorem C1_transports_agree_up_to_trace (JSON_parse : string → option json)
    (es : list (list (string * json))) (r p : list (string * json))
    (ds : list json) (dr : json) (c : string) (t : Z)
    (content : string) (cid : option string) (net : fetched)
    (st : UseChat.state) (ws : UseWebSocketChat.state) :
  Forall StepEvent es → no_agent r →
  assoc "content" r = Some (JStr c) →
  assoc "processing_time_ms" r = Some (JNum t) → t ≠ 0 →
  Forall2 step_message_of ds es → response_message_of dr p →
  assoc "message" p = Some (JStr c) →
  assoc "processing_time_ms" p = Some (JNum t) →
  Api.chatStream JSON_parse net = (map JObj es ++ [JObj r], None) →
  JS_truthy (Some (JStr (trim content))) = true →
  UseChat.isLoading st = false →
  UseWebSocketChat.isLoading ws = false → UseWebSocketChat.wsRef ws = true →
  (∃ ws',
     UseWebSocketChat.replay ds (ws_started content cid ws) = Ok ws' ∧
     UseWebSocketChat.currentSteps ws' =
     UseChat.currentSteps
       (UseChat.for_await (map JObj es) (UseChat.started content st)
          (UseChat.locals0 st)).1.1) ∧
  (∃ block,
     let done_http := UseChat.final (UseChat.sendMessage JSON_parse content net st) in
     UseChat.messages done_http =
       UseChat.messages st ++
       [userMessage (trim content);
        Message.Make Message.assistant
          (Some (JStr (if String.eqb c "" then placeholder else c))) block
          (Some (map JObj es)) (Some (JNum t))] ∧
     UseChat.isLoading done_http = false ∧
     UseChat.currentSteps done_http = []) ∧
  (∃ done_ws,
     UseWebSocketChat.replay (ds ++ [dr]) (ws_started content cid ws) = Ok done_ws ∧
     UseWebSocketChat.messages done_ws =
       UseWebSocketChat.messages ws ++
       [userMessage (trim content);
        Message.Make Message.assistant (Some (JStr c)) (assoc "data" p)
          None (Some (JNum t))] ∧
     UseWebSocketChat.isLoading done_ws = false ∧
     UseWebSocketChat.currentSteps done_ws = []).
Proof.
  intros Hes Hr Hc Ht Ht0 Hds Hdr Hpc Hpt Hnet Hcontent Hidle Hws_idle Hws.
  assert (ws_started content cid ws =
          UseWebSocketChat.State
            (UseWebSocketChat.messages ws ++ [userMessage (trim content)])
            (UseWebSocketChat.isConnected ws) true [] true) as Hstart.
  { unfold ws_started, UseWebSocketChat.sendMessage.
    by rewrite Hcontent, Hws_idle, Hws. }
  destruct (UseChat_for_await_steps es [] [] (UseChat.started content st)
              (UseChat.locals0 st) Hes (List.Forall_nil _) eq_refl)
    as (st1 & v1 & Hrun1 & Hs1 & Hm1 & Hl1 & Htr1 & _).
  rewrite app_nil_r in Hrun1.
  destruct (UseChat_for_await_steps es [JObj r] [] (UseChat.started content st)
              (UseChat.locals0 st) Hes (List.Forall_nil _) eq_refl)
    as (st2 & v2 & Hrun2 & Hs2 & Hm2 & Hl2 & Htr2 & _).
  destruct (UseChat_on_chunk_plain r st2 v2 Hr)
    as (st3 & v3 & Hrun3 & Hs3 & Hm3 & Hl3 & Htr3 & Hac3 & Hpt3 & Hrd3).
  split; [|split].
  - eexists. split.
    + rewrite <- (app_nil_r ds).
      rewrite (ws_replay_steps ds es [] [] _ Hds Hes (List.Forall_nil _))
        by (by rewrite Hstart).
      reflexivity.
    + rewrite Hrun1.
      destruct (UseChat.for_await [] st1 v1) as [[st1' v1'] o] eqn:E.
      cbn in E. injection E as <- <- <-. cbn [fst]. by rewrite Hs1.
  - exists (UseChat.responseData v3). cbn zeta.
    unfold UseChat.sendMessage. rewrite Hcontent, Hidle, Hnet.
    cbn [negb orb]. rewrite Hrun2. cbn [UseChat.for_await]. rewrite Hrun3.
    cbn [UseChat.final UseChat.finally UseChat.messages UseChat.isLoading
         UseChat.currentSteps].
    split; [|done]. rewrite Hm3, Hm2. cbn [UseChat.started UseChat.messages].
    rewrite <- app_assoc. cbn [app]. do 3 f_equal.
    unfold UseChat.assistantMessage.
    rewrite Hac3, Hpt3, Htr3, Htr2. unfold content_after, time_after.
    rewrite Hc, Ht. cbn [JS_truthy UseChat.locals0 UseChat.executionTrace app].
    assert ((t =? 0) = false) as -> by (by apply Z.eqb_neq).
    by destruct (String.eqb c "").
  - rewrite (ws_replay_steps ds es [dr] [] _ Hds Hes (List.Forall_nil _))
      by (by rewrite Hstart).
    cbn [UseWebSocketChat.replay]. rewrite (ws_dispatch_response _ _ _ Hdr).
    cbn [mbind except_bind]. eexists. split; [reflexivity|].
    rewrite Hstart, Hpc, Hpt.
    cbn [UseWebSocketChat.messages UseWebSocketChat.isLoading
         UseWebSocketChat.currentSteps with_ws_steps].
    split; [|done]. by rewrite <- app_assoc.
Qed.

Lemma C1_transports_agree_up_to_trace_witness :
  ∃ block done_ws,
    UseChat.messages
      (UseChat.final (UseChat.sendMessage Sample.parse "ping" Sample.ping_net
                        UseChat.init)) =
      [userMessage "ping";
       Message.Make Message.assistant (Some (JStr "pong")) block
         (Some (map JObj Sample.ping_steps)) (Some (JNum 12))] ∧
    UseWebSocketChat.replay Sample.ping_messages
      (ws_started "ping" None Sample.socket_ready) = Ok done_ws ∧
    UseWebSocketChat.messages done_ws =
      [userMessage "ping";
       Message.Make Message.assistant (Some (JStr "pong")) None None
         (Some (JNum 12))].
Proof.
  destruct (C1_transports_agree_up_to_trace Sample.parse Sample.ping_steps
              Sample.pong Sample.pong_payload
              (map Sample.step_message Sample.ping_steps)
              (Sample.response_message Sample.pong_payload)
              "pong" 12 "ping" None Sample.ping_net UseChat.init
              Sample.socket_ready)
    as (_ & (block & Hhttp & _) & (done_ws & Hrun & Hws & _)).
  - exact ping_steps_are_steps.
  - reflexivity.
  - reflexivity.
  - reflexivity.
  - discriminate.
  - unfold Sample.ping_steps. cbn [List.map].
    repeat (apply List.Forall2_cons; [by eexists|]). apply List.Forall2_nil.
  - by eexists.
  - reflexivity.
  - reflexivity.
  - vm_compute. reflexivity.
  - reflexivity.
  - reflexivity.
  - reflexivity.
  - reflexivity.
  - exists block, done_ws. split; [exact Hhttp|]. split; [exact Hrun|exact Hws].
Defined.

(** C1 as stated fails.  The scenario of the specification, ended by a
    terminal payload whose text is empty, through both transports: the
    assistant message of [useChat] shows the placeholder, the assistant
    message of [useWebSocketChat] shows the empty text (and the two differ
    on data and execution trace as well). *)
Lemma C1_counterexample :
  last_message
    (UseChat.messages
       (UseChat.final (UseChat.sendMessage Sample.parse "ping" Sample.silent_net
                         UseChat.init))) =
  Some (Message.Make Message.assistant (Some (JStr "I processed your request."))
          (Some JNull) (Some (map JObj Sample.ping_steps)) (Some (JNum 12))) ∧
  (st ← UseWebSocketChat.onmessages Sample.parse
          (map Sample.stringify Sample.silent_messages)
          (ws_started "ping" None Sample.socket_ready);
   Ok (last_message (UseWebSocketChat.messages st))) =
  Ok (Some (Message.Make Message.assistant (Some (JStr "")) None None
              (Some (JNum 12)))).
Proof. split; vm_compute; reflexivity. Qed.

(** ** C4 and C5: how a turn ends *)

Lemma same_agent_objects fs s :
  is_object s → ∃ b, same_agent (obj fs) s = Ok b.
Proof. intros [gs ->]. by eexists. Qed.

Lemma array_find_objects fs prev :
  Forall is_object prev →
  ∃ found, array_find (same_agent (obj fs)) prev = Ok found.
Proof.
  induction 1 as [|s prev Hs _ [found IH]]; [by eexists|].
  destruct (same_agent_objects fs s Hs) as [b Hb].
  cbn [array_find]. rewrite Hb. cbn [mbind except_bind].
  destruct b; [by eexists|]. rewrite IH. by eexists.
Qed.

Lemma array_map_objects fs prev :
  Forall is_object prev →
  ∃ steps,
    array_map (λ s, hit ← same_agent (obj fs) s;
                    Ok (if hit : bool then spread s (obj fs) else s)) prev
      = Ok steps ∧
    Forall is_object steps.
Proof.
  induction 1 as [|s prev Hs _ (steps & IH & Hsteps)]; [by eexists|].
  destruct (same_agent_objects fs s Hs) as [b Hb].
  cbn [array_map]. rewrite Hb. cbn [mbind except_bind]. rewrite IH.
  cbn [mbind except_bind]. eexists. split; [reflexivity|].
  constructor; [|done]. destruct b; [by eexists|done].
Qed.

(** On a list of objects the updater of an object chunk never throws and
    leaves a list of objects. *)
Lemma step_update_objects fs prev :
  Forall is_object prev →
  ∃ steps, step_update (obj fs) prev = Ok steps ∧ Forall is_object steps.
Proof.
  intros Hprev. unfold step_update.
  destruct (array_find_objects fs prev Hprev) as [found ->].
  cbn [mbind except_bind]. destruct (JS_truthy found).
  - by apply array_map_objects.
  - eexists. split; [reflexivity|]. apply Forall_app. split; [done|].
    constructor; [by eexists|constructor].
Qed.

(** One iteration of the loop of [useChat], on any chunk: it touches
    neither the messages nor the loading flag, it keeps the step list a
    list of objects, and what it throws is caught. *)
Lemma UseChat_on_chunk_any chunk st v :
  Forall is_object (UseChat.currentSteps st) →
  match UseChat.on_chunk chunk st v with
  | Ok (st', v') =>
      UseChat.messages st' = UseChat.messages st ∧
      UseChat.isLoading st' = UseChat.isLoading st ∧
      Forall is_object (UseChat.currentSteps st')
  | Throw e => catchable e = true
  end.
Proof.
  intros Hsteps. unfold UseChat.on_chunk.
  destruct chunk as [|b|n|s|xs|fs]; try done;
    try (cbn; by destruct (UseChat.processingTime v)).
  cbn [get mbind except_bind].
  set (fresh := JS_truthy (assoc "conversation_id" fs)
                && negb (JS_truthy (UseChat.newConversationId v))).
  assert (UseChat.currentSteps
            (if fresh then UseChat.State (UseChat.messages st)
                             (UseChat.isLoading st) (UseChat.currentSteps st)
                             (assoc "conversation_id" fs)
             else st) = UseChat.currentSteps st) as Hs by (by destruct fresh).
  destruct (JS_truthy (assoc "agent" fs)).
  - rewrite Hs. fold (obj fs).
    destruct (step_update_objects fs _ Hsteps) as (steps & -> & Hobj).
    cbn [in_render mbind except_bind]. by destruct fresh.
  - cbn [mbind except_bind]. by destruct fresh.
Qed.

Lemma UseChat_for_await_any chunks st v :
  Forall is_object (UseChat.currentSteps st) →
  let '(st', v', thrown) := UseChat.for_await chunks st v in
  UseChat.messages st' = UseChat.messages st ∧
  UseChat.isLoading st' = UseChat.isLoading st ∧
  match thrown with Some e => catchable e = true | None => True end.
Proof.
  revert st v. induction chunks as [|chunk chunks IH]; intros st v Hsteps; [done|].
  cbn [UseChat.for_await].
  pose proof (UseChat_on_chunk_any chunk st v Hsteps) as H.
  destruct (UseChat.on_chunk chunk st v) as [[st1 v1]|e]; [|done].
  destruct H as (Hm & Hl & Hobj). specialize (IH st1 v1 Hobj).
  destruct (UseChat.for_await chunks st1 v1) as [[st2 v2] thrown].
  by rewrite <- Hm, <- Hl.
Qed.

Lemma HomePage_on_data_any d st v :
  Forall is_object (HomePage.currentSteps st) →
  match HomePage.on_data d st v with
  | Ok (st', v') =>
      HomePage.messages st' = HomePage.messages st ∧
      HomePage.input st' = HomePage.input st ∧
      HomePage.isLoading st' = HomePage.isLoading st ∧
      Forall is_object (HomePage.currentSteps st')
  | Throw e => catchable e = true
  end.
Proof.
  intros Hsteps. unfold HomePage.on_data.
  destruct d as [|b|n|s|xs|fs]; try done.
  cbn [get mbind except_bind].
  destruct (JS_truthy (assoc "agent" fs)).
  - fold (obj fs).
    destruct (step_update_objects fs _ Hsteps) as (steps & -> & Hobj).
    cbn [in_render mbind except_bind]. done.
  - cbn [mbind except_bind]. done.
Qed.

Section HomePageAny.
Variable JSON_parse : string → option json.

Lemma HomePage_on_line_any line st v :
  Forall is_object (HomePage.currentSteps st) →
  ∃ st' v',
    HomePage.on_line JSON_parse line st v = Ok (st', v') ∧
    HomePage.messages st' = HomePage.messages st ∧
    HomePage.input st' = HomePage.input st ∧
    HomePage.isLoading st' = HomePage.isLoading st ∧
    Forall is_object (HomePage.currentSteps st').
Proof.
  intros Hsteps. unfold HomePage.on_line.
  destruct (String.prefix "event:" line); [by eexists _, _|].
  destruct (String.prefix "data:" line); [|by eexists _, _].
  destruct (JSON_parse _) as [d|]; [|by eexists _, _].
  pose proof (HomePage_on_data_any d st v Hsteps) as H.
  destruct (HomePage.on_data d st v) as [[st1 v1]|e].
  - by eexists _, _.
  - rewrite H. by eexists _, _.
Qed.

Lemma HomePage_on_lines_any lines st v :
  Forall is_object (HomePage.currentSteps st) →
  ∃ st' v',
    HomePage.on_lines JSON_parse lines st v = Ok (st', v') ∧
    HomePage.messages st' = HomePage.messages st ∧
    HomePage.input st' = HomePage.input st ∧
    HomePage.isLoading st' = HomePage.isLoading st ∧
    Forall is_object (HomePage.currentSteps st').
Proof.
  revert st v. induction lines as [|line lines IH]; intros st v Hsteps.
  - by eexists _, _.
  - destruct (HomePage_on_line_any line st v Hsteps)
      as (st1 & v1 & Hrun & Hm & Hi & Hl & Hobj).
    destruct (IH st1 v1 Hobj) as (st2 & v2 & Hrun2 & Hm2 & Hi2 & Hl2 & Hobj2).
    exists st2, v2. cbn [HomePage.on_lines]. rewrite Hrun.
    cbn [mbind except_bind]. rewrite Hrun2, Hm2, Hi2, Hl2. done.
Qed.

Lemma HomePage_read_loop_any values st v :
  Forall is_object (HomePage.currentSteps st) →
  ∃ st' v',
    HomePage.read_loop JSON_parse values st v = Ok (st', v') ∧
    HomePage.messages st' = HomePage.messages st ∧
    HomePage.input st' = HomePage.input st ∧
    HomePage.isLoading st' = HomePage.isLoading st ∧
    Forall is_object (HomePage.currentSteps st').
Proof.
  revert st v. induction values as [|value values IH]; intros st v Hsteps.
  - by eexists _, _.
  - destruct (HomePage_on_lines_any (split_lines value) st v Hsteps)
      as (st1 & v1 & Hrun & Hm & Hi & Hl & Hobj).
    destruct (IH st1 v1 Hobj) as (st2 & v2 & Hrun2 & Hm2 & Hi2 & Hl2 & Hobj2).
    exists st2, v2. cbn [HomePage.read_loop]. rewrite Hrun.
    cbn [mbind except_bind]. rewrite Hrun2, Hm2, Hi2, Hl2. done.
Qed.
End HomePageAny.

Lemma replace_first_prefix line :
  String.prefix "data:" line = true →
  replace_first "data:" "" line = slice_from 5 line.
Proof.
  intros H. destruct line as [|c line]; [done|].
  cbn [replace_first]. by rewrite H.
Qed.

Lemma data_line_event (JSON_parse : string → option json) line e :
  data_line_of JSON_parse line e →
  Api.line_event JSON_parse line = Some (JObj e).
Proof.
  intros [Hpre Hparse]. unfold Api.line_event.
  by rewrite Hpre, <- (replace_first_prefix _ Hpre).
Qed.

Lemma data_lines_events (JSON_parse : string → option json) lines es :
  Forall2 (data_line_of JSON_parse) lines es →
  omap (Api.line_event JSON_parse) lines = map JObj es.
Proof.
  induction 1 as [|line e lines es Hline _ IH]; [done|].
  cbn [omap list_omap List.map]. fold (omap (Api.line_event JSON_parse) lines).
  by rewrite (data_line_event _ _ _ Hline), IH.
Qed.

Lemma foldl_content_after_none es before :
  Forall (λ e, assoc "content" e = None) es →
  foldl (λ acc e, content_after e acc) before es = before.
Proof.
  intros H. revert before. induction H as [|e es He _ IH]; intros before; [done|].
  cbn [foldl]. unfold content_after at 2. rewrite He. apply IH.
Qed.

Lemma transport_fails_stop (JSON_parse : string → option json) net :
  transport_fails net = true → network_exn net →
  ∃ e, (Api.chatStream JSON_parse net).2 = Some e ∧ catchable e = true.
Proof.
  destruct net as [e|[] statusText [b|]]; cbn; try done; try by eexists.
  destruct (ending b); [done|]. by eexists.
Qed.

(** C4, as the code has it.  When the transport fails, [useChat] reports
    the error to [onError] and rejects, the home page shows the error
    toast, and neither appends an assistant message.  When the stream
    instead just ends after step events and before any terminal payload,
    [useChat] resolves without a call of [onError], and both append an
    assistant message whose content is the placeholder; the home page then
    shows the success toast, or, when the last processing time the events
    gave cannot be turned into a number, the error toast next to the
    placeholder message. *)
Theorem C4_error_surfaces_close_does_not (JSON_parse : string → option json)
    (content : string) (net : fetched)
    (st : UseChat.state) (hp : HomePage.state) :
  JS_truthy (Some (JStr (trim content))) = true →
  UseChat.isLoading st = false →
  HomePage.input hp = content → HomePage.isLoading hp = false →
  (transport_fails net = true → network_exn net →
   (∃ err,
      UseChat.outcome (UseChat.sendMessage JSON_parse content net st)
        = Rejected err ∧
      UseChat.errorsReported (UseChat.sendMessage JSON_parse content net st)
        = [err] ∧
      UseChat.messages (UseChat.final (UseChat.sendMessage JSON_parse content net st))
        = UseChat.messages st ++ [userMessage (trim content)]) ∧
   HomePage.toasts (HomePage.handleSubmit JSON_parse net hp)
     = [HomePage.toast_error "Failed to process request" "Please try again."] ∧
   HomePage.messages (HomePage.final (HomePage.handleSubmit JSON_parse net hp))
     = HomePage.messages hp ++ [userMessage (trim content)]) ∧
  (∀ es lines statusText,
     Forall StepEvent es → Forall (λ e, assoc "content" e = None) es →
     Forall SingleLine lines → Forall2 (data_line_of JSON_parse) lines es →
     net = Response true statusText (Some (Body [stream_of lines] StreamDone)) →
     UseChat.outcome (UseChat.sendMessage JSON_parse content net st) = Resolved ∧
     UseChat.errorsReported (UseChat.sendMessage JSON_parse content net st) = [] ∧
     Message.content <$>
       last_message (UseChat.messages
         (UseChat.final (UseChat.sendMessage JSON_parse content net st)))
       = Some (Some (JStr placeholder)) ∧
     HomePage.toasts (HomePage.handleSubmit JSON_parse net hp)
       = [if ToNumber_throws (Message.processingTime (message_of es))
          then HomePage.toast_error "Failed to process request" "Please try again."
          else HomePage.toast_success "Response generated"] ∧
     Message.content <$>
       last_message (HomePage.messages
         (HomePage.final (HomePage.handleSubmit JSON_parse net hp)))
       = Some (Some (JStr placeholder))).
Proof.
  intros Hcontent Hidle Hinput Hhp_idle. split.
  - intros Hfail Hnet. split.
    + destruct (transport_fails_stop JSON_parse net Hfail Hnet) as (e & Hstop & He).
      unfold UseChat.sendMessage. rewrite Hcontent, Hidle. cbn [negb orb].
      destruct (Api.chatStream JSON_parse net) as [yielded stop].
      cbn [snd] in Hstop. subst stop.
      pose proof (UseChat_for_await_any yielded (UseChat.started content st)
                    (UseChat.locals0 st) (List.Forall_nil _)) as Hloop.
      destruct (UseChat.for_await yielded (UseChat.started content st)
                  (UseChat.locals0 st)) as [[st1 v] thrown].
      destruct Hloop as (Hm & _ & Hthrown).
      assert (∃ e', match thrown with Some e' => Some e' | None => Some e end
                    = Some e' ∧ catchable e' = true) as (e' & -> & He').
      { destruct thrown as [e'|]; by eexists. }
      destruct e' as [msg| |]; [| |done];
        (eexists; split; [reflexivity|]; split; [reflexivity|]; exact Hm).
    + unfold HomePage.handleSubmit. rewrite Hinput, Hcontent, Hhp_idle.
      cbn [negb orb].
      destruct net as [e|[] statusText [b|]]; try done.
      cbn in Hfail.
      destruct (HomePage_read_loop_any JSON_parse (reads b)
                  (HomePage.State (HomePage.messages hp ++ [userMessage (trim content)])
                     "" true [] (HomePage.showDataViewer hp) (HomePage.currentData hp))
                  HomePage.locals0 (List.Forall_nil _))
        as (st1 & v & -> & Hm & _).
      destruct (ending b); [done|]. split; [done|exact Hm].
  - intros es lines statusText Hes Hnone Hsingle Hlines ->.
    assert (Api.chatStream JSON_parse
              (Response true statusText (Some (Body [stream_of lines] StreamDone)))
            = (map JObj es, None)) as Hstream.
    { cbn [Api.chatStream reads ending Api.read_loop].
      rewrite (read_step_stream_of JSON_parse _ Hsingle), app_nil_r.
      by rewrite (data_lines_events _ _ _ Hlines). }
    split; [|split; [|split; [|split]]].
    1-3: unfold UseChat.sendMessage; rewrite Hcontent, Hidle, Hstream;
      cbn [negb orb];
      destruct (UseChat_for_await_steps es [] [] (UseChat.started content st)
                  (UseChat.locals0 st) Hes (List.Forall_nil _) eq_refl)
        as (st1 & v1 & Hrun & _ & _ & _ & _ & Hc);
      rewrite app_nil_r in Hrun; rewrite Hrun; cbn [UseChat.for_await];
      try reflexivity.
    { cbn [UseChat.final UseChat.finally UseChat.messages].
      unfold last_message. rewrite last_snoc. cbn [fmap option_fmap option_map].
      unfold UseChat.assistantMessage. cbn [Message.content].
      rewrite Hc, (foldl_content_after_none _ _ Hnone). reflexivity. }
    1-2: unfold HomePage.handleSubmit; rewrite Hinput, Hcontent, Hhp_idle;
      cbn [negb orb reads ending HomePage.read_loop];
      rewrite (split_lines_stream_of _ Hsingle);
      destruct (HomePage_on_lines_steps JSON_parse lines es [""] []
                  (HomePage.State (HomePage.messages hp ++ [userMessage (trim content)])
                     "" true [] (HomePage.showDataViewer hp) (HomePage.currentData hp))
                  HomePage.locals0 Hlines Hes (List.Forall_nil _) eq_refl)
        as (v1 & Hrun & _ & Hc & Ht);
      rewrite Hrun; cbn [HomePage.on_lines HomePage.on_line String.prefix
                         mbind except_bind].
    { cbn [HomePage.completed HomePage.toasts]. unfold HomePage.closing_toast.
      by rewrite Ht. }
    cbn [HomePage.completed HomePage.final HomePage.finally HomePage.messages].
    unfold last_message. rewrite last_snoc. cbn [fmap option_fmap option_map].
    unfold HomePage.assistantMessage. cbn [Message.content].
    rewrite Hc, (foldl_content_after_none _ _ Hnone). reflexivity.
Qed.

Lemma C4_error_surfaces_close_does_not_witness :
  ((∃ err,
      UseChat.outcome
        (UseChat.sendMessage Sample.parse "ping" Sample.broken_early UseChat.init)
        = Rejected err ∧
      UseChat.errorsReported
        (UseChat.sendMessage Sample.parse "ping" Sample.broken_early UseChat.init)
        = [err] ∧
      UseChat.messages
        (UseChat.final
           (UseChat.sendMessage Sample.parse "ping" Sample.broken_early UseChat.init))
        = UseChat.messages UseChat.init ++ [userMessage (trim "ping")]) ∧
   HomePage.toasts (HomePage.handleSubmit Sample.parse Sample.broken_early Sample.asked)
     = [HomePage.toast_error "Failed to process request" "Please try again."] ∧
   HomePage.messages
     (HomePage.final (HomePage.handleSubmit Sample.parse Sample.broken_early Sample.asked))
     = HomePage.messages Sample.asked ++ [userMessage (trim "ping")]) ∧
  UseChat.outcome
    (UseChat.sendMessage Sample.parse "ping" Sample.closed_early UseChat.init)
    = Resolved ∧
  (UseChat.outcome
     (UseChat.sendMessage Sample.parse "ping" Sample.odd_net UseChat.init)
     = Resolved ∧
   UseChat.errorsReported
     (UseChat.sendMessage Sample.parse "ping" Sample.odd_net UseChat.init)
     = [] ∧
   Message.content <$>
     last_message
       (UseChat.messages
          (UseChat.final
             (UseChat.sendMessage Sample.parse "ping" Sample.odd_net UseChat.init)))
     = Some (Some (JStr placeholder)) ∧
   HomePage.toasts (HomePage.handleSubmit Sample.parse Sample.odd_net Sample.asked)
     = [HomePage.toast_error "Failed to process request" "Please try again."] ∧
   Message.content <$>
     last_message
       (HomePage.messages
          (HomePage.final
             (HomePage.handleSubmit Sample.parse Sample.odd_net Sample.asked)))
     = Some (Some (JStr placeholder))).
Proof.
  split; [|split].
  - apply (C4_error_surfaces_close_does_not Sample.parse "ping"
             Sample.broken_early UseChat.init Sample.asked);
      reflexivity.
  - apply (C4_error_surfaces_close_does_not Sample.parse "ping"
             Sample.closed_early UseChat.init Sample.asked
             eq_refl eq_refl eq_refl eq_refl)
      with (es := [Sample.step "switchboard" "running"])
           (lines := [Sample.first_line]) (statusText := "OK").
    + apply List.Forall_cons; [by eexists|apply List.Forall_nil].
    + apply List.Forall_cons; [reflexivity|apply List.Forall_nil].
    + apply List.Forall_cons; [vm_compute; reflexivity|apply List.Forall_nil].
    + apply List.Forall2_cons; [|apply List.Forall2_nil].
      split; vm_compute; reflexivity.
    + reflexivity.
  - apply (proj2 (C4_error_surfaces_close_does_not Sample.parse "ping"
                    Sample.odd_net UseChat.init Sample.asked
                    eq_refl eq_refl eq_refl eq_refl)
             [Sample.odd_time] [Sample.line (JObj Sample.odd_time)] "OK").
    + apply List.Forall_cons; [by eexists|apply List.Forall_nil].
    + apply List.Forall_cons; [reflexivity|apply List.Forall_nil].
    + apply List.Forall_cons; [vm_compute; reflexivity|apply List.Forall_nil].
    + apply List.Forall2_cons; [|apply List.Forall2_nil].
      split; vm_compute; reflexivity.
    + reflexivity.
Defined.

(** C4 as stated fails.  The connection closes after one of two expected
    step events and before any terminal payload: [useChat] resolves, calls
    [onError] not at all and appends the placeholder message; the home page
    does the same and shows the success toast. *)
Lemma C4_counterexample :
  UseChat.outcome
    (UseChat.sendMessage Sample.parse "ping" Sample.closed_early UseChat.init)
    = Resolved ∧
  UseChat.errorsReported
    (UseChat.sendMessage Sample.parse "ping" Sample.closed_early UseChat.init)
    = [] ∧
  last_message
    (UseChat.messages
       (UseChat.final
          (UseChat.sendMessage Sample.parse "ping" Sample.closed_early UseChat.init)))
    = Some (Message.Make Message.assistant (Some (JStr "I processed your request."))
              (Some JNull) (Some [JObj (Sample.step "switchboard" "running")])
              (Some (JNum 0))) ∧
  HomePage.toasts (HomePage.handleSubmit Sample.parse Sample.closed_early Sample.asked)
    = [HomePage.toast_success "Response generated"] ∧
  last_message
    (HomePage.messages
       (HomePage.final
          (HomePage.handleSubmit Sample.parse Sample.closed_early Sample.asked)))
    = Some (Message.Make Message.assistant (Some (JStr "I processed your request."))
              (Some JNull) (Some [JObj (Sample.step "switchboard" "running")])
              (Some (JNum 0))).
Proof. repeat split; vm_compute; reflexivity. Qed.

(** The turn of [useChat] and of the home page: however it ends, the
    [finally] block has run. *)
Lemma http_turn_clears_loading (JSON_parse : string → option json)
    (content : string) (net : fetched) (st : UseChat.state) (hp : HomePage.state) :
  JS_truthy (Some (JStr (trim content))) = true →
  UseChat.isLoading st = false →
  HomePage.input hp = content → HomePage.isLoading hp = false →
  network_exn net →
  (UseChat.isLoading (UseChat.final (UseChat.sendMessage JSON_parse content net st))
     = false ∧
   UseChat.currentSteps (UseChat.final (UseChat.sendMessage JSON_parse content net st))
     = []) ∧
  (HomePage.isLoading (HomePage.final (HomePage.handleSubmit JSON_parse net hp))
     = false ∧
   HomePage.currentSteps (HomePage.final (HomePage.handleSubmit JSON_parse net hp))
     = []).
Proof.
  intros Hcontent Hidle Hinput Hhp_idle Hnet. split.
  - unfold UseChat.sendMessage. rewrite Hcontent, Hidle. cbn [negb orb].
    assert (match (Api.chatStream JSON_parse net).2 with
            | Some e => catchable e = true
            | None => True
            end) as Hstop.
    { destruct net as [e|[] statusText [b|]]; cbn; try done.
      cbn in Hnet. by destruct (ending b). }
    destruct (Api.chatStream JSON_parse net) as [yielded stop]. cbn [snd] in Hstop.
    pose proof (UseChat_for_await_any yielded (UseChat.started content st)
                  (UseChat.locals0 st) (List.Forall_nil _)) as Hloop.
    destruct (UseChat.for_await yielded (UseChat.started content st)
                (UseChat.locals0 st)) as [[st1 v] thrown].
    destruct Hloop as (_ & _ & Hthrown).
    destruct thrown as [[msg| |]|]; try done.
    destruct stop as [[msg| |]|]; done.
  - unfold HomePage.handleSubmit. rewrite Hinput, Hcontent, Hhp_idle.
    cbn [negb orb].
    destruct net as [e|[] statusText [b|]]; try done.
    destruct (HomePage_read_loop_any JSON_parse (reads b)
                (HomePage.State (HomePage.messages hp ++ [userMessage (trim content)])
                   "" true [] (HomePage.showDataViewer hp) (HomePage.currentData hp))
                HomePage.locals0 (List.Forall_nil _))
      as (st1 & v & -> & _).
    by destruct (ending b).
Qed.

(** The socket hook on a well-formed [response] or [error] message: the
    turn is closed. *)
Lemma ws_terminal_message_clears_loading d st st' :
  (∃ fs p, d = JObj fs ∧
           (assoc "type" fs = Some (JStr "response") ∨
            assoc "type" fs = Some (JStr "error")) ∧
           assoc "data" fs = Some (JObj p)) →
  UseWebSocketChat.try_dispatch d st = Ok st' →
  UseWebSocketChat.isLoading st' = false ∧ UseWebSocketChat.currentSteps st' = [].
Proof.
  intros (fs & p & -> & Hty & Hdata).
  unfold UseWebSocketChat.try_dispatch, UseWebSocketChat.dispatch.
  cbn [get mbind except_bind].
  destruct Hty as [-> | ->]; rewrite Hdata; cbn; by intros [= <-].
Qed.

(** C5 on the socket.  [ws.onclose] only sets [isConnected]: the loading
    flag and the step list stay as they were.  In the scenario, the socket
    closes after the first step message of an open turn: the hook still
    shows one step, is still loading, and [sendMessage] is refused from
    then on. *)
Theorem C5_onclose_leaves_turn_open :
  (∀ st,
     UseWebSocketChat.isLoading (UseWebSocketChat.onclose st)
       = UseWebSocketChat.isLoading st ∧
     UseWebSocketChat.currentSteps (UseWebSocketChat.onclose st)
       = UseWebSocketChat.currentSteps st) ∧
  ∃ st,
    UseWebSocketChat.replay
      [Sample.step_message (Sample.step "switchboard" "running")]
      (ws_started "ping" None Sample.socket_ready) = Ok st ∧
    UseWebSocketChat.isLoading (UseWebSocketChat.onclose st) = true ∧
    UseWebSocketChat.currentSteps (UseWebSocketChat.onclose st)
      = [obj (Sample.step "switchboard" "running")] ∧
    UseWebSocketChat.sendMessage "ping again" None (UseWebSocketChat.onclose st)
      = (UseWebSocketChat.onclose st, []).
Proof.
  split; [done|]. eexists. split; [vm_compute; reflexivity|].
  repeat split; vm_compute; reflexivity.
Qed.

(** ** C8: an upload whose request fails *)

Lemma map_id_lookup target g l k :
  Upload.map_id target g l !! k =
  (λ f, if String.eqb (Upload.id f) target then g f else f) <$> l !! k.
Proof. unfold Upload.map_id. apply list_lookup_fmap. Qed.

Lemma map_id_ids target g l :
  (∀ f, Upload.id (g f) = Upload.id f) →
  map Upload.id (Upload.map_id target g l) = map Upload.id l.
Proof.
  intros Hg. unfold Upload.map_id. rewrite map_map. apply map_ext.
  intros f. by destruct (String.eqb (Upload.id f) target).
Qed.

Lemma map_id_names target g l :
  (∀ f, Upload.file (g f) = Upload.file f) →
  map Upload.file (Upload.map_id target g l) = map Upload.file l.
Proof.
  intros Hg. unfold Upload.map_id. rewrite map_map. apply map_ext.
  intros f. by destruct (String.eqb (Upload.id f) target).
Qed.

Lemma map_id_other target g l k f :
  l !! k = Some f → Upload.id f ≠ target →
  Upload.map_id target g l !! k = Some f.
Proof.
  intros Hk Hne. rewrite map_id_lookup, Hk. simpl.
  by apply String.eqb_neq in Hne as ->.
Qed.

Lemma map_id_at target g l k f :
  l !! k = Some f → Upload.id f = target →
  Upload.map_id target g l !! k = Some (g f).
Proof.
  intros Hk Heq. rewrite map_id_lookup, Hk. simpl.
  by rewrite Heq, String.eqb_refl.
Qed.

Lemma map_id_absent target g l :
  has_file target l = false → Upload.map_id target g l = l.
Proof.
  unfold has_file, Upload.map_id. induction l as [|f l IH]; [done|].
  cbn [existsb map]. intros [Hf Hl]%orb_false_iff. by rewrite Hf, (IH Hl).
Qed.

Lemma has_file_ids target l l' :
  map Upload.id l = map Upload.id l' → has_file target l = has_file target l'.
Proof.
  unfold has_file. revert l'. induction l as [|f l IH]; intros [|f' l'] H;
    try done.
  cbn in H. injection H as Hf Hl. cbn [existsb]. by rewrite Hf, (IH l' Hl).
Qed.

Lemma awaited_false ts f : Upload.id f ∉ ts → awaited ts f = false.
Proof.
  intros Hout. unfold awaited. apply not_true_is_false.
  intros (t & Hin & Heq)%existsb_exists. apply String.eqb_eq in Heq as <-.
  by apply Hout, list_elem_of_In.
Qed.

Lemma awaited_true ts f : Upload.id f ∈ ts → awaited ts f = true.
Proof.
  intros Hin. unfold awaited. apply existsb_exists.
  exists (Upload.id f). split; [by apply list_elem_of_In|apply String.eqb_refl].
Qed.

Lemma awaited_elem ts f : awaited ts f = false → Upload.id f ∉ ts.
Proof.
  intros Hno Hin. by rewrite (awaited_true _ _ Hin) in Hno.
Qed.

(** What completion timers do to the file at a place of the list. *)
Lemma completed_by_lookup ts l k :
  foldl (λ fs target, Upload.map_id target Upload.to_completed fs) l ts !! k =
  (λ f, if awaited ts f then Upload.to_completed f else f) <$> l !! k.
Proof.
  revert l. induction ts as [|t ts IH]; intros l.
  - cbn. by destruct (l !! k).
  - cbn [foldl]. rewrite IH, map_id_lookup.
    destruct (l !! k) as [f|]; [|done]. cbn [fmap option_fmap option_map].
    f_equal. unfold awaited. cbn [existsb].
    destruct (String.eqb (Upload.id f) t) eqn:Ht; [|done].
    cbn [Upload.to_completed Upload.id orb].
    by destruct (existsb (String.eqb (Upload.id f)) ts).
Qed.

Lemma settle_lookup r k :
  Upload.files (Upload.settle r) !! k =
  (λ f, if awaited (Upload.timers r) f then Upload.to_completed f else f)
    <$> Upload.files r !! k.
Proof. apply completed_by_lookup. Qed.

Lemma fire_lookup n r k :
  Upload.files (Upload.fire n r) !! k =
  (λ f, if awaited (take n (Upload.timers r)) f then Upload.to_completed f else f)
    <$> Upload.files r !! k.
Proof. apply completed_by_lookup. Qed.

Lemma completed_by_ids ts l :
  map Upload.id (foldl (λ fs target, Upload.map_id target Upload.to_completed fs) l ts)
    = map Upload.id l ∧
  map Upload.file (foldl (λ fs target, Upload.map_id target Upload.to_completed fs) l ts)
    = map Upload.file l.
Proof.
  split; apply list_eq; intros k; rewrite !list_lookup_fmap, completed_by_lookup;
    destruct (l !! k) as [f|]; [|done| |done]; cbn;
    by destruct (awaited ts f).
Qed.

Lemma settle_ids r :
  map Upload.id (Upload.files (Upload.settle r)) = map Upload.id (Upload.files r) ∧
  map Upload.file (Upload.files (Upload.settle r)) = map Upload.file (Upload.files r).
Proof. apply completed_by_ids. Qed.

Lemma fire_ids n r :
  map Upload.id (Upload.files (Upload.fire n r)) = map Upload.id (Upload.files r) ∧
  map Upload.file (Upload.files (Upload.fire n r)) = map Upload.file (Upload.files r).
Proof. apply completed_by_ids. Qed.

Lemma elem_of_take_timers {A} (x : A) n l : x ∈ take n l → x ∈ l.
Proof. intros H. rewrite <- (take_drop n l). apply elem_of_app. by left. Qed.

Lemma elem_of_drop_timers {A} (x : A) n l : x ∈ drop n l → x ∈ l.
Proof. intros H. rewrite <- (take_drop n l). apply elem_of_app. by right. Qed.

(** The loop of [uploadFiles], for any turn of the shape the two
    components share. *)
Section UploadLoop.
Variable one : Upload.net → Upload.UploadedFile → Upload.component → Upload.component.
Variables starts ends : Upload.net → Upload.UploadedFile → Upload.UploadedFile.

Hypothesis one_gone : ∀ n u r,
  one n u (Upload.Unmounted_at r) = Upload.Unmounted_at r.
Hypothesis one_skip : ∀ n u c, Upload.is_pending u = false → one n u c = c.
Hypothesis one_run : ∀ n u r,
  Upload.is_pending u = true →
  one n u (Upload.Mounted r) =
  let r1 := waiting starts n u r in
  if null_body n && has_file (Upload.id u) (Upload.files r1)
  then Upload.Unmounted_at
         (Upload.Run (Upload.files r1) (Upload.isUploading r1) [])
  else Upload.Mounted
         (Upload.Run (Upload.map_id (Upload.id u) (ends n) (Upload.files r1))
            (Upload.isUploading r1)
            (Upload.timers r1 ++ if sets_timer n then [Upload.id u] else [])).
Hypothesis starts_id : ∀ n f, Upload.id (starts n f) = Upload.id f.
Hypothesis starts_file : ∀ n f, Upload.file (starts n f) = Upload.file f.
Hypothesis ends_id : ∀ n f, Upload.id (ends n f) = Upload.id f.
Hypothesis ends_file : ∀ n f, Upload.file (ends n f) = Upload.file f.
Hypothesis ends_settled : ∀ n f, Upload.is_pending (ends n f) = false.

Lemma waiting_ids n u r :
  map Upload.id (Upload.files (waiting starts n u r)) = map Upload.id (Upload.files r) ∧
  map Upload.file (Upload.files (waiting starts n u r)) = map Upload.file (Upload.files r).
Proof.
  unfold waiting. destruct (fire_ids (Upload.early n)
    (Upload.Run (Upload.map_id (Upload.id u) (starts n) (Upload.files r))
       (Upload.isUploading r) (Upload.timers r))) as [-> ->].
  cbn [Upload.files]. split; [by apply map_id_ids|by apply map_id_names].
Qed.

Lemma waiting_lookup n u r k :
  Upload.files (waiting starts n u r) !! k =
  (λ f, let f1 := if String.eqb (Upload.id f) (Upload.id u) then starts n f else f in
        if awaited (take (Upload.early n) (Upload.timers r)) f1
        then Upload.to_completed f1 else f1)
    <$> Upload.files r !! k.
Proof.
  unfold waiting. rewrite fire_lookup. cbn [Upload.files Upload.timers].
  rewrite map_id_lookup. by destruct (Upload.files r !! k).
Qed.

(** A file the turn is not for, with no timer waiting, is not touched
    while the turn waits. *)
Lemma waiting_other n u r k f :
  Upload.files r !! k = Some f → Upload.id f ≠ Upload.id u →
  Upload.id f ∉ Upload.timers r →
  Upload.files (waiting starts n u r) !! k = Some f.
Proof.
  intros Hk Hne Hout. rewrite waiting_lookup, Hk.
  cbn [fmap option_fmap option_map]. apply String.eqb_neq in Hne as ->.
  cbv zeta. rewrite awaited_false; [done|].
  intros Hin%elem_of_take_timers. by apply Hout.
Qed.

Lemma one_ids n u c :
  map Upload.id (Upload.files (Upload.shown (one n u c)))
    = map Upload.id (Upload.files (Upload.shown c)) ∧
  map Upload.file (Upload.files (Upload.shown (one n u c)))
    = map Upload.file (Upload.files (Upload.shown c)).
Proof.
  destruct (Upload.is_pending u) eqn:Hu; [|by rewrite (one_skip _ _ _ Hu)].
  destruct c as [r|r]; [|by rewrite one_gone].
  rewrite (one_run _ _ _ Hu). cbv zeta.
  destruct (waiting_ids n u r) as [Hids Hnames].
  destruct (null_body n && _); cbn [Upload.shown Upload.files].
  - done.
  - rewrite map_id_ids, map_id_names by done. done.
Qed.

Lemma loop_ids nets i todo c :
  map Upload.id (Upload.files (Upload.shown (upload_loop_with one nets i todo c)))
    = map Upload.id (Upload.files (Upload.shown c)) ∧
  map Upload.file (Upload.files (Upload.shown (upload_loop_with one nets i todo c)))
    = map Upload.file (Upload.files (Upload.shown c)).
Proof.
  revert i c. induction todo as [|u todo IH]; intros i c; [done|].
  cbn [upload_loop_with]. destruct (IH (S i) (one (nets i) u c)) as [-> ->].
  apply one_ids.
Qed.

(** A file the turn is not for, with no timer waiting, is as it was after
    the turn, and still no timer waits for it. *)
Lemma one_other n u c k f :
  Upload.files (Upload.shown c) !! k = Some f →
  (Upload.is_pending u = true → Upload.id f ≠ Upload.id u) →
  Upload.id f ∉ Upload.timers (Upload.shown c) →
  Upload.files (Upload.shown (one n u c)) !! k = Some f ∧
  Upload.id f ∉ Upload.timers (Upload.shown (one n u c)).
Proof.
  intros Hk Hne Hout.
  destruct (Upload.is_pending u) eqn:Hu; [|by rewrite (one_skip _ _ _ Hu)].
  destruct c as [r|r]; [|by rewrite one_gone].
  cbn [Upload.shown] in *. specialize (Hne eq_refl).
  rewrite (one_run _ _ _ Hu). cbv zeta.
  pose proof (waiting_other n u r k f Hk Hne Hout) as Hwait.
  destruct (null_body n && _); cbn [Upload.shown Upload.files Upload.timers].
  - split; [done|apply not_elem_of_nil].
  - split; [by apply map_id_other|].
    intros [Hin|Hin]%elem_of_app.
    + apply Hout. unfold waiting in Hin. cbn [Upload.fire Upload.timers] in Hin.
      by apply elem_of_drop_timers in Hin.
    + destruct (sets_timer n); [|by apply elem_of_nil in Hin].
      by apply list_elem_of_singleton in Hin.
Qed.

(** With distinct ids, a file that is not pending is out of the loop's
    reach, and no timer is set for it. *)
Lemma loop_untouched nets fs k f todo i c :
  NoDup (map Upload.id fs) → fs !! k = Some f → Upload.is_pending f = false →
  drop i fs = todo →
  Upload.files (Upload.shown c) !! k = Some f →
  Upload.id f ∉ Upload.timers (Upload.shown c) →
  Upload.files (Upload.shown (upload_loop_with one nets i todo c)) !! k = Some f ∧
  Upload.id f ∉ Upload.timers (Upload.shown (upload_loop_with one nets i todo c)).
Proof.
  intros Hdup Hk Hf. revert i c.
  induction todo as [|u todo IH]; intros i c Hdrop Hc Htimers; [done|].
  cbn [upload_loop_with].
  assert (fs !! i = Some u) as Hi.
  { rewrite <- (Nat.add_0_r i), <- lookup_drop, Hdrop. done. }
  assert (Upload.is_pending u = true → Upload.id f ≠ Upload.id u) as Hne.
  { intros Hu Heq. assert (k = i) as ->; [|congruence].
    eapply NoDup_lookup; [exact Hdup| |].
    - rewrite list_lookup_fmap, Hk. done.
    - rewrite list_lookup_fmap, Hi. simpl. by rewrite Heq. }
  destruct (one_other (nets i) u c k f Hc Hne Htimers) as [Hc' Htimers'].
  apply IH; [|done|done].
  rewrite (drop_S _ _ _ Hi) in Hdrop. by injection Hdrop.
Qed.

(** A turn whose answer is no [null] leaves the component mounted. *)
Lemma one_mounted n u r :
  Upload.is_pending u = true → null_body n = false →
  one n u (Upload.Mounted r) =
  Upload.Mounted
    (Upload.Run
       (Upload.map_id (Upload.id u) (ends n) (Upload.files (waiting starts n u r)))
       (Upload.isUploading r)
       (drop (Upload.early n) (Upload.timers r)
        ++ if sets_timer n then [Upload.id u] else [])).
Proof. intros Hu Hn. rewrite (one_run _ _ _ Hu). cbv zeta. by rewrite Hn. Qed.

(** Files still pending in the list are files the loop has not come to. *)
Lemma loop_no_pending nets fs todo i r :
  stays_mounted nets →
  drop i fs = todo →
  (∀ k f, Upload.files r !! k = Some f → Upload.is_pending f = true →
     (i ≤ k)%nat ∧ fs !! k = Some f) →
  ∃ r', upload_loop_with one nets i todo (Upload.Mounted r) = Upload.Mounted r' ∧
        Forall (λ f, Upload.is_pending f = false) (Upload.files r').
Proof.
  intros Hnets. revert i r. induction todo as [|u todo IH]; intros i r Hdrop Hinv.
  - exists r. split; [done|]. apply Forall_lookup. intros k f Hk.
    destruct (Upload.is_pending f) eqn:Hf; [|done].
    destruct (Hinv k f Hk Hf) as [Hle Hfs].
    apply lookup_lt_Some in Hfs. apply (f_equal length) in Hdrop.
    rewrite length_drop in Hdrop. cbn in Hdrop. lia.
  - cbn [upload_loop_with].
    assert (fs !! i = Some u) as Hi.
    { rewrite <- (Nat.add_0_r i), <- lookup_drop, Hdrop. done. }
    assert (drop (S i) fs = todo) as Hdrop'.
    { rewrite (drop_S _ _ _ Hi) in Hdrop. by injection Hdrop. }
    destruct (Upload.is_pending u) eqn:Hu.
    + rewrite (one_mounted _ _ _ Hu (Hnets i)). apply IH; [done|].
      intros k f Hk Hf. cbn [Upload.files] in Hk.
      rewrite map_id_lookup, waiting_lookup in Hk.
      destruct (Upload.files r !! k) as [f0|] eqn:Hf0; [|done].
      cbn [fmap option_fmap option_map] in Hk. cbv zeta in Hk.
      injection Hk as Hk.
      destruct (String.eqb (Upload.id f0) (Upload.id u)) eqn:Heq.
      * exfalso. revert Hk.
        destruct (awaited _ (starts (nets i) f0));
          cbn [Upload.to_completed Upload.id]; rewrite starts_id, Heq;
          intros <-; by rewrite ends_settled in Hf.
      * destruct (awaited _ f0).
        { exfalso. revert Hk. cbn [Upload.to_completed Upload.id].
          rewrite Heq. by intros <-. }
        rewrite Heq in Hk. subst f0.
        destruct (Hinv k f Hf0 Hf) as [Hle Hfs]. split; [|done].
        destruct (decide (k = i)) as [->|]; [|lia].
        assert (f = u) as -> by congruence.
        by rewrite String.eqb_refl in Heq.
    + rewrite (one_skip _ _ _ Hu). apply IH; [done|].
      intros k f Hk Hf. destruct (Hinv k f Hk Hf) as [Hle Hfs].
      split; [|done]. destruct (decide (k = i)) as [->|]; [|lia]. congruence.
Qed.

(** With distinct ids, a pending file is handled by its own turn, and
    after that by its timer only. *)
Lemma loop_at nets fs k f todo i r :
  stays_mounted nets →
  NoDup (map Upload.id fs) → fs !! k = Some f → Upload.is_pending f = true →
  drop i fs = todo →
  (if decide (i ≤ k)%nat
   then Upload.files r !! k = Some f ∧ Upload.id f ∉ Upload.timers r
   else past_turn_at starts ends nets f k r) →
  ∃ r', upload_loop_with one nets i todo (Upload.Mounted r) = Upload.Mounted r' ∧
        past_turn_at starts ends nets f k r'.
Proof.
  intros Hnets Hdup Hk Hf. revert i r.
  induction todo as [|u todo IH]; intros i r Hdrop Hr.
  - exists r. split; [done|].
    destruct (decide (i ≤ k)%nat) as [Hle|]; [|done].
    apply lookup_lt_Some in Hk. apply (f_equal length) in Hdrop.
    rewrite length_drop in Hdrop. cbn in Hdrop. lia.
  - cbn [upload_loop_with].
    assert (fs !! i = Some u) as Hi.
    { rewrite <- (Nat.add_0_r i), <- lookup_drop, Hdrop. done. }
    assert (drop (S i) fs = todo) as Hdrop'.
    { rewrite (drop_S _ _ _ Hi) in Hdrop. by injection Hdrop. }
    assert (i ≠ k → Upload.id f ≠ Upload.id u) as Hne.
    { intros Hik Heq. apply Hik. eapply NoDup_lookup; [exact Hdup| |].
      - rewrite list_lookup_fmap, Hi. done.
      - rewrite list_lookup_fmap, Hk. simpl. by rewrite Heq. }
    destruct (Upload.is_pending u) eqn:Hu.
    2:{ rewrite (one_skip _ _ _ Hu). apply IH; [done|].
        destruct (decide (i ≤ k)%nat) as [Hle|Hgt].
        - assert (i ≠ k) by (intros ->; congruence).
          by rewrite decide_True by lia.
        - by rewrite decide_False by lia. }
    rewrite (one_mounted _ _ _ Hu (Hnets i)). apply IH; [done|].
    destruct (decide (i ≤ k)%nat) as [Hle|Hgt].
    + destruct Hr as [Hr Hout]. destruct (decide (i = k)) as [->|Hik].
      * (* the turn of the file *)
        assert (u = f) as -> by congruence.
        rewrite decide_False by lia. unfold past_turn_at. cbv zeta.
        assert (Upload.files (waiting starts (nets k) f r) !! k = Some (starts (nets k) f))
          as Hwait.
        { rewrite waiting_lookup, Hr. cbn [fmap option_fmap option_map].
          cbv zeta. rewrite String.eqb_refl.
          rewrite awaited_false; [done|]. rewrite starts_id.
          intros Hin%elem_of_take_timers. by apply Hout. }
        cbn [Upload.files Upload.timers].
        rewrite (map_id_at _ _ _ _ _ Hwait) by apply starts_id.
        destruct (sets_timer (nets k)).
        -- left. split; [done|]. apply elem_of_app. right. by left.
        -- split; [done|]. rewrite app_nil_r.
           intros Hin%elem_of_drop_timers. by apply Hout.
      * rewrite decide_True by lia. cbn [Upload.files Upload.timers].
        split.
        -- apply map_id_other; [|by apply Hne].
           apply waiting_other; [done|by apply Hne|done].
        -- intros [Hin|Hin]%elem_of_app.
           ++ apply Hout. by apply elem_of_drop_timers in Hin.
           ++ destruct (sets_timer (nets i)); [|by apply elem_of_nil in Hin].
              apply list_elem_of_singleton in Hin. by apply (Hne Hik).
    + rewrite decide_False by lia.
      assert (Upload.id f ≠ Upload.id u) as Hfu by (apply Hne; lia).
      unfold past_turn_at in *. cbv zeta in *.
      set (left := ends (nets k) (starts (nets k) f)) in *.
      assert (Upload.id left = Upload.id f) as Hleft.
      { unfold left. by rewrite ends_id, starts_id. }
      cbn [Upload.files Upload.timers].
      assert (∀ g, Upload.id g = Upload.id f →
                Upload.files r !! k = Some g →
                Upload.files (waiting starts (nets i) u r) !! k =
                  Some (if awaited (take (Upload.early (nets i)) (Upload.timers r)) g
                        then Upload.to_completed g else g)) as Hwait.
      { intros g Hg Hrk. rewrite waiting_lookup, Hrk.
        cbn [fmap option_fmap option_map]. cbv zeta.
        assert (Upload.id g ≠ Upload.id u) as Hgu by (by rewrite Hg).
        by apply String.eqb_neq in Hgu as ->. }
      destruct (sets_timer (nets k)).
      * destruct Hr as [[Hr Hin]|[Hr Hlater]].
        -- pose proof (Hwait left Hleft Hr) as Hw.
           destruct (awaited (take (Upload.early (nets i)) (Upload.timers r)) left)
             eqn:Hfired.
           ++ right. split.
              ** apply map_id_other; [done|].
                 cbn [Upload.to_completed Upload.id]. by rewrite Hleft.
              ** exists i. split; [lia|]. intros Hzero.
                 rewrite Hzero in Hfired. done.
           ++ left. split.
              ** apply map_id_other; [done|by rewrite Hleft].
              ** apply elem_of_app. left.
                 apply awaited_elem in Hfired. rewrite Hleft in Hfired.
                 rewrite <- (take_drop (Upload.early (nets i)) (Upload.timers r)) in Hin.
                 by apply elem_of_app in Hin as [Hin|Hin].
        -- right. split; [|done].
           pose proof (Hwait (Upload.to_completed left) Hleft Hr) as Hw.
           apply map_id_other.
           ++ rewrite Hw. by destruct (awaited _ _).
           ++ cbn [Upload.to_completed Upload.id]. by rewrite Hleft.
      * destruct Hr as [Hr Hout]. split.
        -- apply map_id_other; [|by rewrite Hleft].
           rewrite (Hwait left Hleft Hr), awaited_false; [done|].
           rewrite Hleft. intros Hin%elem_of_take_timers. by apply Hout.
        -- intros [Hin|Hin]%elem_of_app.
           ++ apply Hout. by apply elem_of_drop_timers in Hin.
           ++ destruct (sets_timer (nets i)); [|by apply elem_of_nil in Hin].
              by apply list_elem_of_singleton in Hin.
Qed.

(** Once the timers have fired, the file is as its turn left it, and
    completed when the turn set a timer. *)
Lemma past_turn_settled nets f k r :
  past_turn_at starts ends nets f k r →
  Upload.files (Upload.settle r) !! k =
  Some (if sets_timer (nets k)
        then Upload.to_completed (ends (nets k) (starts (nets k) f))
        else ends (nets k) (starts (nets k) f)).
Proof.
  unfold past_turn_at. cbv zeta. rewrite settle_lookup.
  assert (Upload.id (ends (nets k) (starts (nets k) f)) = Upload.id f) as Hleft
    by (by rewrite ends_id, starts_id).
  destruct (sets_timer (nets k)).
  - intros [[-> Hin]|[-> _]]; cbn [fmap option_fmap option_map].
    + rewrite awaited_true; [done|by rewrite Hleft].
    + by destruct (awaited _ _).
  - intros [-> Hout]. cbn [fmap option_fmap option_map].
    rewrite awaited_false; [done|by rewrite Hleft].
Qed.

(** When no turn lets a timer fire, the file is as its turn left it. *)
Lemma past_turn_prompt nets f k r :
  (∀ j, Upload.early (nets j) = 0%nat) →
  past_turn_at starts ends nets f k r →
  Upload.files r !! k = Some (ends (nets k) (starts (nets k) f)).
Proof.
  intros Hprompt. unfold past_turn_at. cbv zeta.
  destruct (sets_timer (nets k)).
  - intros [[H _]|[_ (j & _ & Hj)]]; [done|]. by rewrite Hprompt in Hj.
  - by intros [H _].
Qed.
End UploadLoop.

(** *** The two components *)

Lemma map_id_compose target g1 g2 l :
  (∀ f, Upload.id (g1 f) = Upload.id f) →
  Upload.map_id target g2 (Upload.map_id target g1 l) =
  Upload.map_id target (λ f, g2 (g1 f)) l.
Proof.
  intros Hg1. unfold Upload.map_id. rewrite map_map. apply map_ext. intros f.
  destruct (String.eqb (Upload.id f) target) eqn:Heq.
  - by rewrite Hg1, Heq.
  - by rewrite Heq.
Qed.

Lemma map_id_same target l : Upload.map_id target (λ f, f) l = l.
Proof.
  unfold Upload.map_id. rewrite <- (map_id l) at 2. apply map_ext.
  intros f. by destruct (String.eqb (Upload.id f) target).
Qed.

Lemma tick1_id f : Upload.id (tick1 f) = Upload.id f.
Proof. unfold tick1. by destruct (Upload.progress f <? 90). Qed.

Lemma iter_tick1_id n f : Upload.id (Nat.iter n tick1 f) = Upload.id f.
Proof. induction n as [|n IH]; [done|]. rewrite Nat.iter_succ. by rewrite tick1_id. Qed.

Lemma iter_tick1_file n f : Upload.file (Nat.iter n tick1 f) = Upload.file f.
Proof.
  induction n as [|n IH]; [done|]. rewrite Nat.iter_succ. unfold tick1 at 1.
  by destruct (Upload.progress (Nat.iter n tick1 f) <? 90).
Qed.

Lemma iter_tick1_status n f : Upload.status (Nat.iter n tick1 f) = Upload.status f.
Proof.
  induction n as [|n IH]; [done|]. rewrite Nat.iter_succ. unfold tick1 at 1.
  by destruct (Upload.progress (Nat.iter n tick1 f) <? 90).
Qed.

Lemma iter_tick1_error n f : Upload.error (Nat.iter n tick1 f) = Upload.error f.
Proof.
  induction n as [|n IH]; [done|]. rewrite Nat.iter_succ. unfold tick1 at 1.
  by destruct (Upload.progress (Nat.iter n tick1 f) <? 90).
Qed.

Lemma iter_tick1_jobId n f : Upload.jobId (Nat.iter n tick1 f) = Upload.jobId f.
Proof.
  induction n as [|n IH]; [done|]. rewrite Nat.iter_succ. unfold tick1 at 1.
  by destruct (Upload.progress (Nat.iter n tick1 f) <? 90).
Qed.

Lemma tick_map_id target l : InlineUpload.tick target l = Upload.map_id target tick1 l.
Proof.
  unfold InlineUpload.tick, Upload.map_id, tick1. apply map_ext. intros f.
  by destruct (String.eqb (Upload.id f) target), (Upload.progress f <? 90).
Qed.

Lemma iter_tick_map_id target n l :
  Nat.iter n (InlineUpload.tick target) l = Upload.map_id target (Nat.iter n tick1) l.
Proof.
  induction n as [|n IH]; [by rewrite map_id_same|].
  rewrite Nat.iter_succ, IH, tick_map_id.
  rewrite map_id_compose by (intros f; apply iter_tick1_id). reflexivity.
Qed.

Lemma UploadModal_loop nets i todo c :
  UploadModal.upload_loop nets i todo c =
  upload_loop_with UploadModal.upload_one nets i todo c.
Proof. revert i c. induction todo as [|u todo IH]; intros i c; [done|]. apply IH. Qed.

Lemma InlineUpload_loop nets i todo c :
  InlineUpload.upload_loop nets i todo c =
  upload_loop_with InlineUpload.upload_one nets i todo c.
Proof. revert i c. induction todo as [|u todo IH]; intros i c; [done|]. apply IH. Qed.

Lemma UploadModal_one_skip n u c :
  Upload.is_pending u = false → UploadModal.upload_one n u c = c.
Proof. intros Hu. unfold UploadModal.upload_one. rewrite Hu. by destruct c. Qed.

Lemma InlineUpload_one_skip n u c :
  Upload.is_pending u = false → InlineUpload.upload_one n u c = c.
Proof. intros Hu. unfold InlineUpload.upload_one. rewrite Hu. by destruct c. Qed.

(** The answer handled, for both components: the updater that reads
    [result.job_id] takes the component down on a [null] body when it
    meets a file of the id, and sets the file to [processing] with the job
    id otherwise. *)
Lemma render_set_processing p n target r :
  sets_timer n = true →
  match Upload.try_request (Upload.result_of n) with
  | Ok result =>
      Upload.render r (Upload.set_processing p result target (Upload.files r))
        [target]
  | Throw _ => Upload.Mounted r
  end =
  if null_body n && has_file target (Upload.files r)
  then Upload.Unmounted_at (Upload.Run (Upload.files r) (Upload.isUploading r) [])
  else Upload.Mounted
         (Upload.Run
            (Upload.map_id target (Upload.to_processing p (job_of n)) (Upload.files r))
            (Upload.isUploading r) (Upload.timers r ++ [target])).
Proof.
  unfold sets_timer, null_body, job_of, Upload.render, Upload.set_processing.
  destruct (Upload.result_of n) as [|[] [result|]]; cbn [Upload.try_request];
    try discriminate.
  intros _. fold (has_file target (Upload.files r)).
  destruct result; cbn [get in_render andb]; try reflexivity.
  destruct (has_file target (Upload.files r)) eqn:Hhas; cbn [in_render].
  - reflexivity.
  - by rewrite (map_id_absent _ _ _ Hhas).
Qed.

Lemma UploadModal_one_run n u r :
  Upload.is_pending u = true →
  UploadModal.upload_one n u (Upload.Mounted r) =
  let r1 := waiting (λ _, Upload.to_uploading) n u r in
  if null_body n && has_file (Upload.id u) (Upload.files r1)
  then Upload.Unmounted_at
         (Upload.Run (Upload.files r1) (Upload.isUploading r1) [])
  else Upload.Mounted
         (Upload.Run (Upload.map_id (Upload.id u) (modal_ends n) (Upload.files r1))
            (Upload.isUploading r1)
            (Upload.timers r1 ++ if sets_timer n then [Upload.id u] else [])).
Proof.
  intros Hu. unfold UploadModal.upload_one. rewrite Hu. cbn [negb].
  fold (waiting (λ _, Upload.to_uploading) n u r). cbv zeta.
  set (r1 := waiting (λ _ : Upload.net, Upload.to_uploading) n u r).
  unfold modal_ends. destruct (sets_timer n) eqn:Hset.
  - pose proof (render_set_processing 50 n (Upload.id u) r1 Hset) as Hrender.
    unfold sets_timer in Hset.
    by destruct (Upload.try_request (Upload.result_of n)).
  - assert (null_body n = false) as ->.
    { unfold sets_timer, null_body in *.
      by destruct (Upload.result_of n) as [|[] [[]|]]. }
    unfold sets_timer in Hset.
    destruct (Upload.try_request (Upload.result_of n)); [done|].
    cbn [andb]. by rewrite app_nil_r.
Qed.

Lemma InlineUpload_one_run n u r :
  Upload.is_pending u = true →
  InlineUpload.upload_one n u (Upload.Mounted r) =
  let r1 := waiting inline_starts n u r in
  if null_body n && has_file (Upload.id u) (Upload.files r1)
  then Upload.Unmounted_at
         (Upload.Run (Upload.files r1) (Upload.isUploading r1) [])
  else Upload.Mounted
         (Upload.Run (Upload.map_id (Upload.id u) (inline_ends n) (Upload.files r1))
            (Upload.isUploading r1)
            (Upload.timers r1 ++ if sets_timer n then [Upload.id u] else [])).
Proof.
  intros Hu. unfold InlineUpload.upload_one. rewrite Hu. cbn [negb].
  rewrite iter_tick_map_id, (map_id_compose _ Upload.to_uploading) by done.
  fold (inline_starts n). fold (waiting inline_starts n u r). cbv zeta.
  set (r1 := waiting inline_starts n u r).
  unfold inline_ends. destruct (sets_timer n) eqn:Hset.
  - pose proof (render_set_processing 70 n (Upload.id u) r1 Hset) as Hrender.
    unfold sets_timer in Hset.
    by destruct (Upload.try_request (Upload.result_of n)).
  - assert (null_body n = false) as ->.
    { unfold sets_timer, null_body in *.
      by destruct (Upload.result_of n) as [|[] [[]|]]. }
    unfold sets_timer in Hset.
    destruct (Upload.try_request (Upload.result_of n)); [done|].
    cbn [andb]. by rewrite app_nil_r.
Qed.

Lemma modal_ends_id n f : Upload.id (modal_ends n f) = Upload.id f.
Proof. unfold modal_ends. by destruct (sets_timer n). Qed.

Lemma modal_ends_file n f : Upload.file (modal_ends n f) = Upload.file f.
Proof. unfold modal_ends. by destruct (sets_timer n). Qed.

Lemma modal_ends_settled n f : Upload.is_pending (modal_ends n f) = false.
Proof. unfold modal_ends. by destruct (sets_timer n). Qed.

Lemma inline_starts_id n f : Upload.id (inline_starts n f) = Upload.id f.
Proof. unfold inline_starts. by rewrite iter_tick1_id. Qed.

Lemma inline_starts_file n f : Upload.file (inline_starts n f) = Upload.file f.
Proof. unfold inline_starts. by rewrite iter_tick1_file. Qed.

Lemma inline_ends_id n f : Upload.id (inline_ends n f) = Upload.id f.
Proof. unfold inline_ends. by destruct (sets_timer n). Qed.

Lemma inline_ends_file n f : Upload.file (inline_ends n f) = Upload.file f.
Proof. unfold inline_ends. by destruct (sets_timer n). Qed.

Lemma inline_ends_settled n f : Upload.is_pending (inline_ends n f) = false.
Proof. unfold inline_ends. by destruct (sets_timer n). Qed.

(** What the component shows when [uploadFiles] has returned is what the
    loop left, but for the flag. *)
Lemma UploadModal_uploadFiles_shown nets st :
  let c := UploadModal.upload_loop nets 0 (Upload.files st)
             (Upload.Mounted (Upload.Run (Upload.files st) true (Upload.timers st))) in
  Upload.files (UploadModal.uploadFiles nets st) = Upload.files (Upload.shown c) ∧
  Upload.timers (UploadModal.uploadFiles nets st) = Upload.timers (Upload.shown c).
Proof.
  unfold UploadModal.uploadFiles, UploadModal.upload. cbv zeta.
  destruct (Upload.files st) as [|f0 fs0] eqn:Hfs.
  - cbn. by rewrite Hfs.
  - by destruct (UploadModal.upload_loop _ _ _ _).
Qed.

Lemma InlineUpload_uploadFiles_shown nets st :
  let c := InlineUpload.upload_loop nets 0 (Upload.files st)
             (Upload.Mounted (Upload.Run (Upload.files st) true (Upload.timers st))) in
  Upload.files (InlineUpload.uploadFiles nets st) = Upload.files (Upload.shown c) ∧
  Upload.timers (InlineUpload.uploadFiles nets st) = Upload.timers (Upload.shown c).
Proof.
  unfold InlineUpload.uploadFiles, InlineUpload.upload. cbv zeta.
  destruct (Upload.files st) as [|f0 fs0] eqn:Hfs.
  - cbn. by rewrite Hfs.
  - by destruct (InlineUpload.upload_loop _ _ _ _).
Qed.

(** With distinct ids and no answer that takes the component down, where
    a pending file with no timer waiting stands when [uploadFiles] has
    returned. *)
Lemma UploadModal_uploadFiles_at nets st k f :
  stays_mounted nets → NoDup (map Upload.id (Upload.files st)) →
  Upload.files st !! k = Some f → Upload.is_pending f = true →
  Upload.id f ∉ Upload.timers st →
  past_turn_at (λ _, Upload.to_uploading) modal_ends nets f k
    (UploadModal.uploadFiles nets st).
Proof.
  intros Hnets Hdup Hk Hf Hout.
  destruct (loop_at _ (λ _, Upload.to_uploading) _
              UploadModal_one_skip UploadModal_one_run
              (λ _ _, eq_refl) modal_ends_id nets (Upload.files st) k f
              (Upload.files st) 0%nat
              (Upload.Run (Upload.files st) true (Upload.timers st))
              Hnets Hdup Hk Hf eq_refl) as (r' & Hloop & Hat).
  { rewrite decide_True by lia. done. }
  rewrite <- UploadModal_loop in Hloop.
  unfold UploadModal.uploadFiles, UploadModal.upload.
  destruct (Upload.files st) as [|f0 fs0] eqn:Hfs; [done|].
  rewrite <- Hfs in *. rewrite Hloop. exact Hat.
Qed.

Lemma InlineUpload_uploadFiles_at nets st k f :
  stays_mounted nets → NoDup (map Upload.id (Upload.files st)) →
  Upload.files st !! k = Some f → Upload.is_pending f = true →
  Upload.id f ∉ Upload.timers st →
  past_turn_at inline_starts inline_ends nets f k
    (InlineUpload.uploadFiles nets st).
Proof.
  intros Hnets Hdup Hk Hf Hout.
  destruct (loop_at _ _ _ InlineUpload_one_skip InlineUpload_one_run
              inline_starts_id inline_ends_id nets (Upload.files st) k f
              (Upload.files st) 0%nat
              (Upload.Run (Upload.files st) true (Upload.timers st))
              Hnets Hdup Hk Hf eq_refl) as (r' & Hloop & Hat).
  { rewrite decide_True by lia. done. }
  rewrite <- InlineUpload_loop in Hloop.
  unfold InlineUpload.uploadFiles, InlineUpload.upload.
  destruct (Upload.files st) as [|f0 fs0] eqn:Hfs; [done|].
  rewrite <- Hfs in *. rewrite Hloop. exact Hat.
Qed.

(** The upload modal: the [catch] block marks the file failed, with the
    message, and sets no completion timer for it. *)
Lemma UploadModal_failure_marked_failed n uploadFile r :
  Upload.is_pending uploadFile = true → request_fails n →
  UploadModal.upload_one n uploadFile (Upload.Mounted r) =
  Upload.Mounted
    (Upload.Run
       (Upload.map_id (Upload.id uploadFile)
          (Upload.to_failed "Upload failed. Please try again.")
          (Upload.files (waiting (λ _, Upload.to_uploading) n uploadFile r)))
       (Upload.isUploading r) (drop (Upload.early n) (Upload.timers r))).
Proof.
  intros Hpending [e He]. unfold UploadModal.upload_one.
  by rewrite Hpending, He.
Qed.

(** The inline upload: the [catch] block marks the file completed. *)
Lemma InlineUpload_failure_marked_completed n uploadFile r :
  Upload.is_pending uploadFile = true → request_fails n →
  InlineUpload.upload_one n uploadFile (Upload.Mounted r) =
  Upload.Mounted
    (Upload.Run
       (Upload.map_id (Upload.id uploadFile) Upload.to_completed
          (Upload.files (waiting inline_starts n uploadFile r)))
       (Upload.isUploading r) (drop (Upload.early n) (Upload.timers r))).
Proof.
  intros Hpending [e He]. unfold InlineUpload.upload_one.
  rewrite Hpending, He. cbn [negb].
  by rewrite iter_tick_map_id, (map_id_compose _ Upload.to_uploading) by done.
Qed.

(** The upload modal, for every list of files with distinct ids and as
    long as no answer takes the component down: a pending file whose
    request fails shows as failed, with the message, when [uploadFiles] has
    run and every completion timer has fired. *)
Lemma UploadModal_failure_shown (nets : nat → Upload.net)
    (fs : list Upload.UploadedFile) (k : nat) (f : Upload.UploadedFile) :
  stays_mounted nets →
  NoDup (map Upload.id fs) →
  fs !! k = Some f → Upload.is_pending f = true → request_fails (nets k) →
  ∃ f',
    Upload.files (Upload.settle (UploadModal.uploadFiles nets (Upload.Run fs false [])))
      !! k = Some f' ∧
    shown_failed f'.
Proof.
  intros Hnets Hdup Hk Hpending [e Hfails].
  pose proof (UploadModal_uploadFiles_at nets (Upload.Run fs false []) k f
                Hnets Hdup Hk Hpending ltac:(apply not_elem_of_nil)) as Hat.
  apply (past_turn_settled (λ _, Upload.to_uploading) modal_ends
           (λ _ _, eq_refl) modal_ends_id) in Hat.
  rewrite Hat. unfold modal_ends, sets_timer. rewrite Hfails.
  eexists. split; [reflexivity|]. by split.
Qed.

(** C8 on the inline upload.  One pending file; the request is rejected, or
    answered with a status that is not ok.  [InlineUpload.uploadFiles]
    leaves the file completed at 100 with no error; the upload modal, on
    the same input, leaves it failed with the message. *)
Theorem C8_inline_upload_failure_shown_completed :
  Upload.files
    (InlineUpload.uploadFiles (λ _, Upload.Net 3 Upload.rejected)
       (Upload.Run [Upload.Make "f1" "report.pdf" Upload.pending 0 None None]
          false []))
  = [Upload.Make "f1" "report.pdf" Upload.completed 100 None None] ∧
  Upload.files
    (InlineUpload.uploadFiles (λ _, Upload.Net 3 (Upload.responded false None))
       (Upload.Run [Upload.Make "f1" "report.pdf" Upload.pending 0 None None]
          false []))
  = [Upload.Make "f1" "report.pdf" Upload.completed 100 None None] ∧
  Upload.files
    (Upload.settle
       (UploadModal.uploadFiles (λ _, Upload.Net 3 Upload.rejected)
          (Upload.Run [Upload.Make "f1" "report.pdf" Upload.pending 0 None None]
             false [])))
  = [Upload.Make "f1" "report.pdf" Upload.failed 0
       (Some "Upload failed. Please try again.") None].
Proof. repeat split; vm_compute; reflexivity. Qed.

(** ** C9: the polling loop *)

Lemma occurrences_snoc j l x :
  occurrences j (l ++ [x]) =
  (occurrences j l + if String.eqb j x then 1 else 0)%nat.
Proof.
  unfold occurrences. rewrite List.filter_app, length_app. cbn [List.filter].
  by destruct (String.eqb j x).
Qed.

Lemma occurrences_remove_one j j' l :
  UseIngestion.mem j' l = true →
  occurrences j (UseIngestion.remove_one j' l) =
  (occurrences j l - if String.eqb j j' then 1 else 0)%nat.
Proof.
  unfold occurrences, UseIngestion.mem.
  induction l as [|x l IH]; [done|]. cbn [existsb UseIngestion.remove_one List.filter].
  rewrite (String.eqb_sym j' x).
  destruct (String.eqb x j') eqn:Hx.
  - apply String.eqb_eq in Hx as ->. intros _.
    destruct (String.eqb j j'); cbn [length]; lia.
  - cbn [orb]. intros Hmem. cbn [List.filter].
    destruct (String.eqb j x) eqn:Hjx; cbn [length]; rewrite (IH Hmem); [|done].
    apply String.eqb_eq in Hjx as ->. rewrite Hx. lia.
Qed.

(** C9, as the code has it.  The loop is a chain of one-shot timers.  A
    response that carries a terminal status, or a failed status request,
    ends the chain it belongs to and schedules nothing; any other response
    schedules the next poll, without a bound.  Nothing cancels a chain:
    [clearJobs] empties the job map and leaves the requests in flight and
    the pending timers as they are, a pending timer still fires, and the
    next response writes the job back into the map. *)
Theorem C9_poll_ends_on_terminal_only :
  (∀ w j r,
     UseIngestion.mem j (UseIngestion.inflight w) = true →
     polls j (UseIngestion.poll_settles j r w) =
       if ends_poll r then (polls j w - 1)%nat else polls j w) ∧
  (∀ w j r,
     ends_poll r = true →
     UseIngestion.timers (UseIngestion.poll_settles j r w) = UseIngestion.timers w) ∧
  (∀ w j,
     UseIngestion.mem j (UseIngestion.timers w) = true →
     polls j (UseIngestion.timer_fires j w) = polls j w) ∧
  (∀ w,
     UseIngestion.jobs (UseIngestion.clearJobs w) = ∅ ∧
     UseIngestion.inflight (UseIngestion.clearJobs w) = UseIngestion.inflight w ∧
     UseIngestion.timers (UseIngestion.clearJobs w) = UseIngestion.timers w) ∧
  (∀ w j s,
     UseIngestion.jobs (UseIngestion.poll_settles j (Ok s) w) !! j = Some s).
Proof.
  split; [|split; [|split; [|split]]].
  - intros w j r Hmem. unfold polls, UseIngestion.poll_settles, ends_poll.
    pose proof (occurrences_remove_one j j _ Hmem) as Hrem.
    rewrite String.eqb_refl in Hrem.
    assert (0 < occurrences j (UseIngestion.inflight w))%nat as Hpos.
    { unfold occurrences, UseIngestion.mem in *. clear Hrem.
      induction (UseIngestion.inflight w) as [|x l IH]; [done|].
      cbn [existsb List.filter] in *.
      destruct (String.eqb j x); cbn [length]; [lia|]. by apply IH. }
    destruct r as [s|]; [destruct (UseIngestion.status s)|];
      cbn [UseIngestion.inflight UseIngestion.timers];
      rewrite ?occurrences_snoc, ?String.eqb_refl, Hrem; lia.
  - intros w j r Hend. unfold UseIngestion.poll_settles, ends_poll in *.
    destruct r as [s|]; [destruct (UseIngestion.status s)|]; done.
  - intros w j Hmem. unfold polls, UseIngestion.timer_fires.
    cbn [UseIngestion.inflight UseIngestion.timers].
    pose proof (occurrences_remove_one j j _ Hmem) as Hrem.
    rewrite String.eqb_refl in Hrem.
    assert (0 < occurrences j (UseIngestion.timers w))%nat as Hpos.
    { unfold occurrences, UseIngestion.mem in *. clear Hrem.
      induction (UseIngestion.timers w) as [|x l IH]; [done|].
      cbn [existsb List.filter] in *.
      destruct (String.eqb j x); cbn [length]; [lia|]. by apply IH. }
    rewrite occurrences_snoc, String.eqb_refl, Hrem. lia.
  - done.
  - intros w j s. unfold UseIngestion.poll_settles.
    destruct (UseIngestion.status s); cbn [UseIngestion.jobs];
      apply lookup_insert_eq.
Qed.

Lemma C9_poll_ends_on_terminal_only_witness :
  polls "job-1" (UseIngestion.poll_settles "job-1" (Ok Sample.at_40) Sample.polling)
    = polls "job-1" Sample.polling ∧
  polls "job-1"
    (UseIngestion.poll_settles "job-1" (Throw (ErrorObj "Failed to fetch"))
       Sample.polling)
    = (polls "job-1" Sample.polling - 1)%nat.
Proof.
  destruct C9_poll_ends_on_terminal_only as (Hsettle & _).
  split.
  - exact (Hsettle Sample.polling "job-1" (Ok Sample.at_40) eq_refl).
  - exact (Hsettle Sample.polling "job-1" (Throw (ErrorObj "Failed to fetch"))
             eq_refl).
Defined.

(** C9 as stated fails.  One job is polled; its first answer says
    processing, so a timer is set.  [clearJobs] is called: the map is
    empty, the timer is still pending.  The timer fires, the request is
    sent, and its answer puts the job back into the map. *)
Lemma C9_counterexample :
  ∃ w1 w2,
    UseIngestion.run
      [UseIngestion.Settles "job-1" (Ok Sample.at_40); UseIngestion.ClearJobs]
      Sample.polling = Some w1 ∧
    UseIngestion.jobs w1 = ∅ ∧
    UseIngestion.timers w1 = ["job-1"] ∧
    UseIngestion.run
      [UseIngestion.Fires "job-1"; UseIngestion.Settles "job-1" (Ok Sample.at_60)]
      w1 = Some w2 ∧
    UseIngestion.jobs w2 !! "job-1" = Some Sample.at_60 ∧
    UseIngestion.timers w2 = ["job-1"].
Proof.
  eexists _, _. split; [vm_compute; reflexivity|].
  repeat split; vm_compute; reflexivity.
Qed.

(** ** The loops on any object chunks *)

Lemma UseChat_on_chunk_object fs st v :
  Forall is_object (UseChat.currentSteps st) →
  UseChat.newConversationId v = UseChat.conversationId st →
  ∃ st' v',
    UseChat.on_chunk (JObj fs) st v = Ok (st', v') ∧
    Forall is_object (UseChat.currentSteps st') ∧
    UseChat.messages st' = UseChat.messages st ∧
    UseChat.isLoading st' = UseChat.isLoading st ∧
    UseChat.conversationId st' = id_after fs (UseChat.conversationId st) ∧
    UseChat.newConversationId v' = UseChat.conversationId st' ∧
    UseChat.executionTrace v' =
      UseChat.executionTrace v ++ (if has_agent fs then [JObj fs] else []) ∧
    UseChat.assistantContent v' = content_after fs (UseChat.assistantContent v) ∧
    UseChat.responseData v' = data_after fs (UseChat.responseData v) ∧
    UseChat.processingTime v' = time_after fs (UseChat.processingTime v).
Proof.
  intros Hsteps Hid.
  unfold UseChat.on_chunk, content_after, time_after, data_after, id_after,
    has_agent.
  cbn [get mbind except_bind]. rewrite Hid.
  set (fresh := JS_truthy (assoc "conversation_id" fs)
                && negb (JS_truthy (UseChat.conversationId st))).
  assert (UseChat.currentSteps
            (if fresh then UseChat.State (UseChat.messages st)
                             (UseChat.isLoading st) (UseChat.currentSteps st)
                             (assoc "conversation_id" fs)
             else st) = UseChat.currentSteps st) as Hs by (by destruct fresh).
  destruct (JS_truthy (assoc "agent" fs)).
  - rewrite Hs. fold (obj fs).
    destruct (step_update_objects fs _ Hsteps) as (steps & -> & Hobj).
    cbn [in_render mbind except_bind].
    destruct fresh, (assoc "content" fs), (JS_truthy (assoc "response_type" fs)),
      (JS_truthy (assoc "processing_time_ms" fs));
      eexists _, _; (split; [reflexivity|]); cbn; rewrite ?Hid, ?app_nil_r;
      repeat split; done.
  - cbn [mbind except_bind].
    destruct fresh, (assoc "content" fs), (JS_truthy (assoc "response_type" fs)),
      (JS_truthy (assoc "processing_time_ms" fs));
      eexists _, _; (split; [reflexivity|]); cbn; rewrite ?Hid, ?app_nil_r;
      repeat split; done.
Qed.

Lemma UseChat_for_await_objects es st v :
  Forall is_object (UseChat.currentSteps st) →
  UseChat.newConversationId v = UseChat.conversationId st →
  ∃ st' v',
    UseChat.for_await (map JObj es) st v = (st', v', None) ∧
    UseChat.messages st' = UseChat.messages st ∧
    UseChat.isLoading st' = UseChat.isLoading st ∧
    UseChat.conversationId st' =
      foldl (λ acc e, id_after e acc) (UseChat.conversationId st) es ∧
    UseChat.executionTrace v' =
      UseChat.executionTrace v ++ map JObj (List.filter has_agent es) ∧
    UseChat.assistantContent v' =
      foldl (λ acc e, content_after e acc) (UseChat.assistantContent v) es ∧
    UseChat.responseData v' =
      foldl (λ acc e, data_after e acc) (UseChat.responseData v) es ∧
    UseChat.processingTime v' =
      foldl (λ acc e, time_after e acc) (UseChat.processingTime v) es.
Proof.
  revert st v. induction es as [|e es IH]; intros st v Hsteps Hid.
  - exists st, v. cbn. by rewrite app_nil_r.
  - destruct (UseChat_on_chunk_object e st v Hsteps Hid)
      as (st1 & v1 & Hrun & Hobj & Hm & Hl & Hc & Hn & Ht & Ha & Hd & Hp).
    destruct (IH st1 v1 Hobj Hn)
      as (st2 & v2 & Hrun2 & Hm2 & Hl2 & Hc2 & Ht2 & Ha2 & Hd2 & Hp2).
    exists st2, v2. cbn [List.map UseChat.for_await foldl List.filter].
    rewrite Hrun, Hrun2, Hm2, Hl2, Hc2, Ht2, Ha2, Hd2, Hp2, Hm, Hl, Hc, Ht, Ha, Hd, Hp.
    repeat split; try done.
    rewrite <- app_assoc. by destruct (has_agent e).
Qed.

Lemma id_after_known es known :
  JS_truthy known = true → foldl (λ acc e, id_after e acc) known es = known.
Proof.
  intros Hknown. induction es as [|e es IH]; [done|].
  cbn [foldl]. unfold id_after at 2. rewrite Hknown, andb_false_r. exact IH.
Qed.

Lemma id_after_unknown es before :
  JS_truthy before = false →
  foldl (λ acc e, id_after e acc) before es =
  if JS_truthy (announced es) then announced es else before.
Proof.
  intros Hbefore. induction es as [|e es IH]; [done|].
  cbn [foldl announced]. unfold id_after at 2. rewrite Hbefore, andb_true_r.
  destruct (JS_truthy (assoc "conversation_id" e)) eqn:He.
  - rewrite He. by apply id_after_known.
  - exact IH.
Qed.

(** A turn of [useChat] whose stream yields the object chunks [es] and
    ends. *)
Lemma UseChat_sendMessage_objects (JSON_parse : string → option json)
    content net st es :
  JS_truthy (Some (JStr (trim content))) = true →
  UseChat.isLoading st = false →
  Api.chatStream JSON_parse net = (map JObj es, None) →
  UseChat.sendMessage JSON_parse content net st =
  UseChat.Turn
    (UseChat.State
       (UseChat.messages st ++ [userMessage (trim content); message_of es])
       false []
       (foldl (λ acc e, id_after e acc) (UseChat.conversationId st) es))
    Resolved [UseChat.chat_request content st]
    (map JObj (List.filter has_agent es)) [].
Proof.
  intros Hcontent Hidle Hnet.
  unfold UseChat.sendMessage. rewrite Hcontent, Hidle, Hnet. cbn [negb orb].
  destruct (UseChat_for_await_objects es (UseChat.started content st)
              (UseChat.locals0 st) (List.Forall_nil _) eq_refl)
    as (st1 & v1 & -> & Hm & Hl & Hc & Ht & Ha & Hd & Hp).
  cbn [UseChat.finally UseChat.messages UseChat.conversationId].
  rewrite Hm, Hc, Ht. cbn [UseChat.started UseChat.messages
    UseChat.conversationId UseChat.locals0 UseChat.executionTrace app].
  rewrite <- app_assoc. cbn [app].
  unfold UseChat.assistantMessage, message_of, shown_text.
  rewrite Ha, Hd, Hp, Ht. reflexivity.
Qed.

Lemma UseChat_for_await_app l1 l2 st v :
  UseChat.for_await (l1 ++ l2) st v =
  match UseChat.for_await l1 st v with
  | (st', v', None) => UseChat.for_await l2 st' v'
  | stopped => stopped
  end.
Proof.
  revert st v. induction l1 as [|chunk l1 IH]; intros st v; [done|].
  cbn [app UseChat.for_await].
  destruct (UseChat.on_chunk chunk st v) as [[st1 v1]|e]; [apply IH|done].
Qed.

(** ** The home page on any object events *)

Lemma HomePage_on_data_object fs st v :
  Forall is_object (HomePage.currentSteps st) →
  ∃ steps v',
    HomePage.on_data (JObj fs) st v = Ok (HomePage.with_steps st steps, v') ∧
    Forall is_object steps ∧
    HomePage.executionTrace v' =
      HomePage.executionTrace v ++ (if has_agent fs then [JObj fs] else []) ∧
    HomePage.assistantContent v' = content_after fs (HomePage.assistantContent v) ∧
    HomePage.responseData v' = data_after fs (HomePage.responseData v) ∧
    HomePage.processingTime v' = time_after fs (HomePage.processingTime v).
Proof.
  intros Hsteps.
  unfold HomePage.on_data, content_after, time_after, data_after, has_agent.
  cbn [get mbind except_bind].
  destruct (JS_truthy (assoc "agent" fs)).
  - fold (obj fs).
    destruct (step_update_objects fs _ Hsteps) as (steps & -> & Hobj).
    cbn [in_render mbind except_bind].
    destruct (assoc "content" fs), (JS_truthy (assoc "response_type" fs)),
      (JS_truthy (assoc "processing_time_ms" fs));
      eexists _, _; (split; [reflexivity|]); cbn; rewrite ?app_nil_r;
      repeat split; done.
  - cbn [mbind except_bind]. exists (HomePage.currentSteps st).
    destruct (assoc "content" fs), (JS_truthy (assoc "response_type" fs)),
      (JS_truthy (assoc "processing_time_ms" fs));
      eexists; (split; [by destruct st|]); cbn; rewrite ?app_nil_r;
      repeat split; done.
Qed.

Lemma HomePage_on_lines_objects (JSON_parse : string → option json)
    lines es rest st v :
  Forall2 (data_line_of JSON_parse) lines es →
  Forall is_object (HomePage.currentSteps st) →
  ∃ steps v',
    HomePage.on_lines JSON_parse (lines ++ rest) st v =
      HomePage.on_lines JSON_parse rest (HomePage.with_steps st steps) v' ∧
    Forall is_object steps ∧
    HomePage.executionTrace v' =
      HomePage.executionTrace v ++ map JObj (List.filter has_agent es) ∧
    HomePage.assistantContent v' =
      foldl (λ acc e, content_after e acc) (HomePage.assistantContent v) es ∧
    HomePage.responseData v' =
      foldl (λ acc e, data_after e acc) (HomePage.responseData v) es ∧
    HomePage.processingTime v' =
      foldl (λ acc e, time_after e acc) (HomePage.processingTime v) es.
Proof.
  intros Hlines. revert st v.
  induction Hlines as [|line e lines es Hline _ IH]; intros st v Hsteps.
  - exists (HomePage.currentSteps st), v. cbn. rewrite app_nil_r.
    split; [by destruct st|done].
  - destruct (HomePage_on_data_object e st v Hsteps)
      as (steps1 & v1 & Hrun & Hobj & Ht & Ha & Hd & Hp).
    destruct (IH (HomePage.with_steps st steps1) v1 Hobj)
      as (steps2 & v2 & Hrun2 & Hobj2 & Ht2 & Ha2 & Hd2 & Hp2).
    exists steps2, v2. cbn [app HomePage.on_lines foldl List.filter].
    rewrite (HomePage_on_line_data JSON_parse _ _ _ _ Hline), Hrun.
    cbn [mbind except_bind]. rewrite Hrun2, Ht2, Ha2, Hd2, Hp2, Ht, Ha, Hd, Hp.
    repeat split; try done.
    rewrite <- app_assoc. by destruct (has_agent e).
Qed.

Lemma foldl_data_after es before :
  foldl (λ acc e, data_after e acc) before es =
  match List.find has_kind (rev es) with
  | Some e => obj e
  | None => before
  end.
Proof.
  induction es as [|e es IH] using rev_ind; [done|].
  rewrite foldl_app, rev_unit. cbn [foldl List.find].
  unfold data_after at 1. fold (has_kind e).
  destruct (has_kind e); [done|exact IH].
Qed.

(** A turn of the home page whose body is the lines [lines], each a
    [data:] line with an object, read in one piece. *)
Lemma HomePage_handleSubmit_objects (JSON_parse : string → option json)
    lines es statusText hp :
  JS_truthy (Some (JStr (trim (HomePage.input hp)))) = true →
  HomePage.isLoading hp = false →
  Forall SingleLine lines → Forall2 (data_line_of JSON_parse) lines es →
  ∃ steps v,
    HomePage.handleSubmit JSON_parse
      (Response true statusText (Some (Body [stream_of lines] StreamDone))) hp =
    HomePage.completed
      (HomePage.State (HomePage.messages hp ++ [userMessage (trim (HomePage.input hp))])
         "" true steps (HomePage.showDataViewer hp) (HomePage.currentData hp))
      v (Request "/api/chat/stream" (trim (HomePage.input hp)) None) ∧
    HomePage.assistantMessage v = message_of es ∧
    HomePage.responseData v = foldl (λ acc e, data_after e acc) (Some JNull) es.
Proof.
  intros Hinput Hidle Hsingle Hlines.
  unfold HomePage.handleSubmit. rewrite Hinput, Hidle.
  cbn [negb orb reads ending HomePage.read_loop].
  rewrite (split_lines_stream_of _ Hsingle).
  destruct (HomePage_on_lines_objects JSON_parse lines es [""]
              (HomePage.State (HomePage.messages hp ++ [userMessage (trim (HomePage.input hp))])
                 "" true [] (HomePage.showDataViewer hp) (HomePage.currentData hp))
              HomePage.locals0 Hlines (List.Forall_nil _))
    as (steps & v & Hrun & _ & Ht & Ha & Hd & Hp).
  rewrite Hrun.
  cbn [HomePage.on_lines HomePage.on_line String.prefix mbind except_bind].
  exists steps, v. split; [|split].
  - reflexivity.
  - unfold HomePage.assistantMessage, message_of, shown_text.
    by rewrite Ha, Hd, Hp, Ht.
  - exact Hd.
Qed.

(** ** C6: one malformed line, one unparsable message *)

Section BadUnits.
Variable JSON_parse : string → option json.

Lemma unreadable_no_event line :
  unreadable JSON_parse line → Api.line_event JSON_parse line = None.
Proof.
  intros H. unfold Api.line_event.
  destruct (String.prefix "data:" line) eqn:Hprefix; [|done].
  destruct H as [H|H]; [congruence|].
  by rewrite <- (replace_first_prefix _ Hprefix).
Qed.

Lemma unreadable_skipped line st v :
  unreadable JSON_parse line → HomePage.on_line JSON_parse line st v = Ok (st, v).
Proof.
  intros H. unfold HomePage.on_line.
  destruct (String.prefix "event:" line); [done|].
  destruct (String.prefix "data:" line) eqn:Hprefix; [|done].
  destruct H as [H|H]; [congruence|]. by rewrite H.
Qed.

Lemma null_line_event line :
  null_line JSON_parse line → Api.line_event JSON_parse line = Some JNull.
Proof.
  intros [Hprefix H]. unfold Api.line_event.
  by rewrite Hprefix, <- (replace_first_prefix _ Hprefix).
Qed.

Lemma null_line_skipped line st v :
  null_line JSON_parse line → HomePage.on_line JSON_parse line st v = Ok (st, v).
Proof.
  intros [Hprefix H]. unfold HomePage.on_line.
  by rewrite (data_line_not_event _ Hprefix), Hprefix, H.
Qed.

(** What [chatStream] yields on a stream of complete lines, however the
    stream is cut into reads: the event of each line that has one. *)
Lemma chatStream_of_lines lines values statusText :
  Forall SingleLine lines → joined values = stream_of lines →
  Api.chatStream JSON_parse (Response true statusText (Some (Body values StreamDone)))
  = (omap (Api.line_event JSON_parse) lines, None).
Proof.
  intros Hlines Hjoin. cbn [Api.chatStream reads ending].
  by rewrite (read_loop_stream_of JSON_parse _ _ Hlines Hjoin).
Qed.

Lemma events_around pre bad post es1 es2 :
  Forall2 (data_line_of JSON_parse) pre es1 →
  Forall2 (data_line_of JSON_parse) post es2 →
  omap (Api.line_event JSON_parse) (pre ++ bad :: post) =
  map JObj es1 ++ option_list (Api.line_event JSON_parse bad) ++ map JObj es2.
Proof.
  intros Hpre Hpost. rewrite omap_app. cbn [omap list_omap].
  fold (omap (Api.line_event JSON_parse) post).
  rewrite (data_lines_events _ _ _ Hpre), (data_lines_events _ _ _ Hpost).
  by destruct (Api.line_event JSON_parse bad).
Qed.

Lemma HomePage_on_lines_app l1 l2 st v :
  HomePage.on_lines JSON_parse (l1 ++ l2) st v =
  r ← HomePage.on_lines JSON_parse l1 st v;
  HomePage.on_lines JSON_parse l2 r.1 r.2.
Proof.
  revert st v. induction l1 as [|l l1 IH]; intros st v; [done|].
  cbn [app HomePage.on_lines].
  destruct (HomePage.on_line JSON_parse l st v) as [[st1 v1]|e]; [|done].
  cbn [mbind except_bind]. apply IH.
Qed.

(** A line the home page passes over can be left out of the read. *)
Lemma HomePage_handleSubmit_skip pre bad post statusText hp :
  Forall SingleLine (pre ++ bad :: post) →
  (∀ st v, HomePage.on_line JSON_parse bad st v = Ok (st, v)) →
  HomePage.handleSubmit JSON_parse
    (Response true statusText
       (Some (Body [stream_of (pre ++ bad :: post)] StreamDone))) hp =
  HomePage.handleSubmit JSON_parse
    (Response true statusText (Some (Body [stream_of (pre ++ post)] StreamDone))) hp.
Proof.
  intros Hlines Hbad.
  assert (Forall SingleLine (pre ++ post)) as Hrest.
  { apply Forall_app in Hlines as [Hpre Hpost].
    apply Forall_cons in Hpost as [_ Hpost]. by apply Forall_app. }
  unfold HomePage.handleSubmit.
  destruct (negb (JS_truthy (Some (JStr (trim (HomePage.input hp)))))
            || HomePage.isLoading hp); [done|].
  cbn [reads ending HomePage.read_loop].
  rewrite (split_lines_stream_of _ Hlines), (split_lines_stream_of _ Hrest).
  rewrite <- !app_assoc, !HomePage_on_lines_app.
  destruct (HomePage.on_lines JSON_parse pre _ _) as [[st1 v1]|e]; [|done].
  cbn [mbind except_bind fst snd app HomePage.on_lines].
  by rewrite Hbad.
Qed.

(** The socket handler on the texts of step messages. *)
Lemma onmessages_steps texts es rest prev st :
  Forall2 (step_text_of JSON_parse) texts es →
  Forall StepEvent es → Forall StepEvent prev →
  UseWebSocketChat.currentSteps st = map obj prev →
  UseWebSocketChat.onmessages JSON_parse (texts ++ rest) st =
  UseWebSocketChat.onmessages JSON_parse rest
    (with_ws_steps st (map obj (fold_steps es prev))).
Proof.
  intros Htexts. revert prev st.
  induction Htexts as [|text e texts es (d & Hparse & Hd) _ IH];
    intros prev st Hes Hprev Hst.
  - cbn [app fold_steps foldl]. f_equal. destruct st. cbn in *. by subst.
  - apply Forall_cons in Hes as [He Hes].
    cbn [app UseWebSocketChat.onmessages]. unfold UseWebSocketChat.onmessage.
    rewrite Hparse, (ws_dispatch_step _ _ _ _ Hd He Hprev Hst).
    cbn [mbind except_bind].
    by rewrite (IH (upsert e prev) (with_ws_steps st (map obj (upsert e prev)))
                  Hes (upsert_steps _ _ He Hprev) eq_refl).
Qed.
End BadUnits.




(** C6.  One bad line in a stream of [data:] lines that carry objects, and
    one bad message among the step messages of the socket.

    A line that gives no JSON to read (it has no [data:] prefix, or
    [JSON.parse] rejects its payload) is passed over: however the stream is
    cut into reads, [chatStream] yields the objects of the other lines in
    their order, and the turn of [useChat] resolves with the message these
    objects amount to, each step chunk handed to [onStepUpdate] in order;
    the home page builds the same message from the stream read in one
    piece.  A socket message [JSON.parse] rejects is passed over as well:
    after step messages around it the step list is what their events fold
    to, in order, and among any messages the state is the state without it.

    The line [data: null] is a bad line [JSON.parse] accepts.  The home
    page passes over it like the others.  [chatStream] yields the [null],
    and the loop of [useChat] throws at the first property it reads: the
    turn rejects with the [TypeError], the events after the line are not
    applied and no assistant message is appended. *)
Theorem C6_unreadable_unit_dropped_null_line_aborts
    (JSON_parse : string → option json)
    (pre post : list string) (bad : string)
    (es1 es2 : list (list (string * json)))
    (content statusText : string) (st : UseChat.state) (hp : HomePage.state) :
  JS_truthy (Some (JStr (trim content))) = true →
  UseChat.isLoading st = false →
  HomePage.input hp = content → HomePage.isLoading hp = false →
  Forall SingleLine (pre ++ bad :: post) →
  Forall2 (data_line_of JSON_parse) pre es1 →
  Forall2 (data_line_of JSON_parse) post es2 →
  let whole :=
    Response true statusText
      (Some (Body [stream_of (pre ++ bad :: post)] StreamDone)) in
  (unreadable JSON_parse bad →
   (∀ values, joined values = stream_of (pre ++ bad :: post) →
      let net := Response true statusText (Some (Body values StreamDone)) in
      Api.chatStream JSON_parse net = (map JObj (es1 ++ es2), None) ∧
      UseChat.sendMessage JSON_parse content net st =
      UseChat.Turn
        (UseChat.State
           (UseChat.messages st ++
            [userMessage (trim content); message_of (es1 ++ es2)])
           false []
           (foldl (λ acc e, id_after e acc) (UseChat.conversationId st)
              (es1 ++ es2)))
        Resolved [UseChat.chat_request content st]
        (map JObj (List.filter has_agent (es1 ++ es2))) []) ∧
   HomePage.outcome (HomePage.handleSubmit JSON_parse whole hp) = Resolved ∧
   HomePage.messages (HomePage.final (HomePage.handleSubmit JSON_parse whole hp)) =
     HomePage.messages hp ++
     [userMessage (trim content); message_of (es1 ++ es2)]) ∧
  (null_line JSON_parse bad →
   (∀ values, joined values = stream_of (pre ++ bad :: post) →
      let net := Response true statusText (Some (Body values StreamDone)) in
      Api.chatStream JSON_parse net =
        (map JObj es1 ++ JNull :: map JObj es2, None) ∧
      UseChat.outcome (UseChat.sendMessage JSON_parse content net st)
        = Rejected (ErrorObj "TypeError") ∧
      UseChat.errorsReported (UseChat.sendMessage JSON_parse content net st)
        = [ErrorObj "TypeError"] ∧
      UseChat.messages
        (UseChat.final (UseChat.sendMessage JSON_parse content net st))
        = UseChat.messages st ++ [userMessage (trim content)] ∧
      UseChat.stepUpdates (UseChat.sendMessage JSON_parse content net st)
        = map JObj (List.filter has_agent es1)) ∧
   HomePage.outcome (HomePage.handleSubmit JSON_parse whole hp) = Resolved ∧
   HomePage.messages (HomePage.final (HomePage.handleSubmit JSON_parse whole hp)) =
     HomePage.messages hp ++
     [userMessage (trim content); message_of (es1 ++ es2)]) ∧
  (∀ texts1 texts2 unparsable ss1 ss2 prev ws,
     JSON_parse unparsable = None →
     Forall2 (step_text_of JSON_parse) texts1 ss1 →
     Forall2 (step_text_of JSON_parse) texts2 ss2 →
     Forall StepEvent ss1 → Forall StepEvent ss2 → Forall StepEvent prev →
     UseWebSocketChat.currentSteps ws = map obj prev →
     UseWebSocketChat.onmessages JSON_parse (texts1 ++ unparsable :: texts2) ws =
     Ok (with_ws_steps ws (map obj (fold_steps (ss1 ++ ss2) prev)))) ∧
  (∀ before after unparsable ws,
     JSON_parse unparsable = None →
     UseWebSocketChat.onmessages JSON_parse (before ++ unparsable :: after) ws =
     UseWebSocketChat.onmessages JSON_parse (before ++ after) ws).
Proof.
  intros Hcontent Hidle Hinput Hhp_idle Hlines Hpre Hpost whole. subst content.
  assert (Forall SingleLine (pre ++ post)) as Hrest.
  { apply Forall_app in Hlines as [H1 H2].
    apply Forall_cons in H2 as [_ H2]. by apply Forall_app. }
  assert (∀ (Hskip : ∀ s v, HomePage.on_line JSON_parse bad s v = Ok (s, v)),
    HomePage.outcome (HomePage.handleSubmit JSON_parse whole hp) = Resolved ∧
    HomePage.messages (HomePage.final (HomePage.handleSubmit JSON_parse whole hp)) =
      HomePage.messages hp ++
      [userMessage (trim (HomePage.input hp)); message_of (es1 ++ es2)])
    as Hpage.
  { intros Hskip. unfold whole.
    rewrite (HomePage_handleSubmit_skip JSON_parse _ _ _ _ _ Hlines Hskip).
    destruct (HomePage_handleSubmit_objects JSON_parse (pre ++ post) (es1 ++ es2)
                statusText hp Hcontent Hhp_idle Hrest (Forall2_app Hpre Hpost))
      as (steps & v & -> & Hmessage & _).
    cbn [HomePage.completed HomePage.outcome HomePage.final HomePage.finally
         HomePage.messages].
    split; [reflexivity|]. by rewrite <- Hmessage, <- app_assoc. }
  split; [|split; [|split]].
  - intros Hbad. split; [|apply Hpage; intros; by apply unreadable_skipped].
    intros values Hjoin net.
    assert (Api.chatStream JSON_parse net = (map JObj (es1 ++ es2), None))
      as Hstream.
    { unfold net. rewrite (chatStream_of_lines _ _ _ _ Hlines Hjoin).
      rewrite (events_around _ _ _ _ _ _ Hpre Hpost).
      rewrite (unreadable_no_event _ _ Hbad). cbn [option_list app].
      by rewrite List.map_app. }
    split; [exact Hstream|].
    exact (UseChat_sendMessage_objects _ _ _ _ _ Hcontent Hidle Hstream).
  - intros Hbad. split; [|apply Hpage; intros; by apply null_line_skipped].
    intros values Hjoin net.
    assert (Api.chatStream JSON_parse net =
            (map JObj es1 ++ JNull :: map JObj es2, None)) as Hstream.
    { unfold net. rewrite (chatStream_of_lines _ _ _ _ Hlines Hjoin).
      rewrite (events_around _ _ _ _ _ _ Hpre Hpost).
      by rewrite (null_line_event _ _ Hbad). }
    split; [exact Hstream|].
    unfold UseChat.sendMessage. rewrite Hcontent, Hidle, Hstream.
    cbn [negb orb]. rewrite UseChat_for_await_app.
    destruct (UseChat_for_await_objects es1 (UseChat.started (HomePage.input hp) st)
                (UseChat.locals0 st) (List.Forall_nil _) eq_refl)
      as (st1 & v1 & -> & Hm & Hl & Hc & Ht & _).
    cbn [UseChat.for_await UseChat.on_chunk get mbind except_bind as_Error
         UseChat.outcome UseChat.errorsReported UseChat.final UseChat.finally
         UseChat.messages UseChat.isLoading UseChat.stepUpdates].
    rewrite Hm, Ht. repeat split.
  - intros texts1 texts2 unparsable ss1 ss2 prev ws Hparse H1 H2 Hs1 Hs2 Hprev Hws.
    rewrite (onmessages_steps JSON_parse _ _ _ _ _ H1 Hs1 Hprev Hws).
    cbn [UseWebSocketChat.onmessages]. unfold UseWebSocketChat.onmessage at 1.
    rewrite Hparse. cbn [mbind except_bind].
    rewrite <- (app_nil_r texts2).
    rewrite (onmessages_steps JSON_parse _ _ [] _
               (with_ws_steps ws (map obj (fold_steps ss1 prev))) H2 Hs2
               (fold_steps_valid _ _ Hs1 Hprev) eq_refl).
    cbn [UseWebSocketChat.onmessages]. unfold fold_steps. by rewrite foldl_app.
  - intros before after unparsable ws Hparse.
    rewrite !onmessages_app. cbn [UseWebSocketChat.onmessages].
    destruct (UseWebSocketChat.onmessages JSON_parse before ws) as [st1|e]; [|done].
    cbn [mbind except_bind]. unfold UseWebSocketChat.onmessage.
    by rewrite Hparse.
Qed.

Lemma C6_unreadable_unit_dropped_null_line_aborts_witness :
  let es := [Sample.step "switchboard" "completed"; Sample.pong] in
  let cut := Response true "OK" (Some (Body Sample.mixed_reads StreamDone)) in
  let nulled :=
    Response true "OK"
      (Some (Body [stream_of (Sample.lines_before ++
                              Sample.null_line :: Sample.lines_after)]
               StreamDone)) in
  (Api.chatStream Sample.parse cut = (map JObj es, None) ∧
   UseChat.sendMessage Sample.parse "ping" cut UseChat.init =
   UseChat.Turn
     (UseChat.State [userMessage "ping"; message_of es] false [] (Some JNull))
     Resolved [Request "/api/v1/chat/stream" "ping" None]
     [JObj (Sample.step "switchboard" "completed")] []) ∧
  (Api.chatStream Sample.parse nulled =
     ([JObj (Sample.step "switchboard" "completed"); JNull; JObj Sample.pong],
      None) ∧
   UseChat.outcome (UseChat.sendMessage Sample.parse "ping" nulled UseChat.init)
     = Rejected (ErrorObj "TypeError") ∧
   UseChat.errorsReported
     (UseChat.sendMessage Sample.parse "ping" nulled UseChat.init)
     = [ErrorObj "TypeError"] ∧
   UseChat.messages
     (UseChat.final (UseChat.sendMessage Sample.parse "ping" nulled UseChat.init))
     = [userMessage "ping"] ∧
   UseChat.stepUpdates
     (UseChat.sendMessage Sample.parse "ping" nulled UseChat.init)
     = [JObj (Sample.step "switchboard" "completed")]) ∧
  (HomePage.outcome (HomePage.handleSubmit Sample.parse nulled Sample.asked)
     = Resolved ∧
   HomePage.messages
     (HomePage.final (HomePage.handleSubmit Sample.parse nulled Sample.asked))
     = [userMessage "ping"; message_of es]) ∧
  UseWebSocketChat.onmessages Sample.parse
    ([Sample.stringify (Sample.step_message (Sample.step "switchboard" "running"))]
     ++ "{oops" ::
     [Sample.stringify (Sample.step_message (Sample.step "switchboard" "completed"))])
    Sample.socket_ready =
  Ok (with_ws_steps Sample.socket_ready
        [obj (Sample.step "switchboard" "completed")]).
Proof.
  assert (∀ bad, SingleLine bad →
            Forall SingleLine (Sample.lines_before ++ bad :: Sample.lines_after))
    as Hlines.
  { intros bad Hbad.
    apply List.Forall_cons; [vm_compute; reflexivity|].
    apply List.Forall_cons; [exact Hbad|].
    apply List.Forall_cons; [vm_compute; reflexivity|apply List.Forall_nil]. }
  assert (Forall2 (data_line_of Sample.parse) Sample.lines_before
            [Sample.step "switchboard" "completed"]) as Hpre.
  { apply List.Forall2_cons; [split; vm_compute; reflexivity|].
    apply List.Forall2_nil. }
  assert (Forall2 (data_line_of Sample.parse) Sample.lines_after [Sample.pong])
    as Hpost.
  { apply List.Forall2_cons; [split; vm_compute; reflexivity|].
    apply List.Forall2_nil. }
  pose proof (C6_unreadable_unit_dropped_null_line_aborts Sample.parse
                Sample.lines_before Sample.lines_after Sample.bad_line
                [Sample.step "switchboard" "completed"] [Sample.pong]
                "ping" "OK" UseChat.init Sample.asked
                eq_refl eq_refl eq_refl eq_refl
                (Hlines Sample.bad_line eq_refl) Hpre Hpost)
    as H1.
  cbv zeta in H1. destruct H1 as (Hunreadable & _ & Hsocket & _).
  pose proof (C6_unreadable_unit_dropped_null_line_aborts Sample.parse
                Sample.lines_before Sample.lines_after Sample.null_line
                [Sample.step "switchboard" "completed"] [Sample.pong]
                "ping" "OK" UseChat.init Sample.asked
                eq_refl eq_refl eq_refl eq_refl
                (Hlines Sample.null_line eq_refl) Hpre Hpost)
    as H2.
  cbv zeta in H2. destruct H2 as (_ & Hnull & _).
  assert (unreadable Sample.parse Sample.bad_line) as Hbad
    by (right; vm_compute; reflexivity).
  assert (null_line Sample.parse Sample.null_line) as Hnil
    by (split; vm_compute; reflexivity).
  destruct (Hunreadable Hbad) as [Hcut _].
  destruct (Hnull Hnil) as [Hwhole Hpage].
  assert (joined Sample.mixed_reads =
          stream_of (Sample.lines_before ++ Sample.bad_line :: Sample.lines_after))
    as Hjoin by (vm_compute; reflexivity).
  cbv zeta. split; [|split; [|split]].
  - destruct (Hcut Sample.mixed_reads Hjoin) as [Hyield Hturn].
    split; [exact Hyield|]. rewrite Hturn. reflexivity.
  - destruct (Hwhole [stream_of (Sample.lines_before ++
                                 Sample.null_line :: Sample.lines_after)]
                (append_nil_r _)) as (Hyield & Hout & Herr & Hmsg & Hsteps).
    rewrite Hyield, Hout, Herr, Hmsg, Hsteps. repeat split.
  - destruct Hpage as [Hout Hmsg]. rewrite Hout, Hmsg. split; reflexivity.
  - apply (Hsocket _ _ _ [Sample.step "switchboard" "running"]
             [Sample.step "switchboard" "completed"] []).
    + vm_compute. reflexivity.
    + apply List.Forall2_cons; [|apply List.Forall2_nil].
      eexists. split; [vm_compute; reflexivity|]. eexists. by repeat split.
    + apply List.Forall2_cons; [|apply List.Forall2_nil].
      eexists. split; [vm_compute; reflexivity|]. eexists. by repeat split.
    + apply List.Forall_cons; [by eexists|apply List.Forall_nil].
    + apply List.Forall_cons; [by eexists|apply List.Forall_nil].
    + apply List.Forall_nil.
    + reflexivity.
Defined.

(** ** C10: the guard of [sendMessage] *)

(** A text of white space only is blank. *)
Lemma all_space_blank s : all_space s = true → blank s.
Proof.
  unfold blank, trim. induction s as [|c s IH]; [done|].
  cbn [all_space trimStart]. intros [Hc Hs]%andb_true_iff.
  rewrite Hc. by apply IH.
Qed.

(** White space beyond ASCII is stripped at both ends, and a text of it
    is blank. *)
Example trim_strips_unicode_space :
  trim (Sample.wide_space +:+ "ping pong" +:+ Sample.wide_space) = "ping pong" ∧
  blank Sample.wide_space.
Proof. split; vm_compute; reflexivity. Qed.

Lemma blank_falsy content :
  blank content → JS_truthy (Some (JStr (trim content))) = false.
Proof. unfold blank. by intros ->. Qed.

(** C10.  [sendMessage] of [useChat], [sendMessage] of [useWebSocketChat]
    and [handleSubmit] of the home page, called with a text that is blank
    once trimmed, or while a turn is loading, or (on the socket) while
    [wsRef] holds no socket: the state is returned as it was, and no
    request and no frame is sent. *)
Theorem C10_guarded_send_is_noop (JSON_parse : string → option json)
    (content : string) (cid : option string) (net : fetched)
    (st : UseChat.state) (ws : UseWebSocketChat.state) (hp : HomePage.state) :
  (blank content ∨ UseChat.isLoading st = true →
   UseChat.sendMessage JSON_parse content net st = UseChat.Turn st Resolved [] [] []) ∧
  (blank content ∨ UseWebSocketChat.isLoading ws = true
   ∨ UseWebSocketChat.wsRef ws = false →
   UseWebSocketChat.sendMessage content cid ws = (ws, [])) ∧
  (blank (HomePage.input hp) ∨ HomePage.isLoading hp = true →
   HomePage.handleSubmit JSON_parse net hp = HomePage.Turn hp Resolved [] []).
Proof.
  split; [|split].
  - intros [Hblank|Hloading]; unfold UseChat.sendMessage.
    + by rewrite (blank_falsy _ Hblank).
    + rewrite Hloading. by rewrite orb_true_r.
  - intros [Hblank|[Hloading|Hws]]; unfold UseWebSocketChat.sendMessage.
    + by rewrite (blank_falsy _ Hblank).
    + rewrite Hloading. by rewrite orb_true_r.
    + rewrite Hws. by rewrite orb_true_r.
  - intros [Hblank|Hloading]; unfold HomePage.handleSubmit.
    + by rewrite (blank_falsy _ Hblank).
    + rewrite Hloading. by rewrite orb_true_r.
Qed.

Lemma C10_guarded_send_is_noop_witness :
  UseChat.sendMessage Sample.parse "   " Sample.ping_net UseChat.init
    = UseChat.Turn UseChat.init Resolved [] [] [] ∧
  UseWebSocketChat.sendMessage "ping" None UseWebSocketChat.init
    = (UseWebSocketChat.init, []) ∧
  HomePage.handleSubmit Sample.parse Sample.ping_net
    (HomePage.State [] "next" true [] false (Some JNull))
    = HomePage.Turn (HomePage.State [] "next" true [] false (Some JNull))
        Resolved [] [] ∧
  UseChat.sendMessage Sample.parse Sample.wide_space Sample.ping_net UseChat.init
    = UseChat.Turn UseChat.init Resolved [] [] [] ∧
  UseWebSocketChat.sendMessage Sample.wide_space None Sample.socket_ready
    = (Sample.socket_ready, []) ∧
  HomePage.handleSubmit Sample.parse Sample.ping_net
    (HomePage.State [] Sample.wide_space false [] false (Some JNull))
    = HomePage.Turn (HomePage.State [] Sample.wide_space false [] false (Some JNull))
        Resolved [] [].
Proof.
  split; [|split; [|split; [|split; [|split]]]].
  4: { apply (C10_guarded_send_is_noop Sample.parse Sample.wide_space None
                Sample.ping_net UseChat.init UseWebSocketChat.init HomePage.init).
       left. reflexivity. }
  4: { apply (C10_guarded_send_is_noop Sample.parse Sample.wide_space None
                Sample.ping_net UseChat.init Sample.socket_ready HomePage.init).
       left. reflexivity. }
  4: { apply (C10_guarded_send_is_noop Sample.parse Sample.wide_space None
                Sample.ping_net UseChat.init UseWebSocketChat.init
                (HomePage.State [] Sample.wide_space false [] false (Some JNull))).
       left. reflexivity. }
  - apply (C10_guarded_send_is_noop Sample.parse "   " None Sample.ping_net
             UseChat.init UseWebSocketChat.init HomePage.init).
    left. reflexivity.
  - apply (C10_guarded_send_is_noop Sample.parse "ping" None Sample.ping_net
             UseChat.init UseWebSocketChat.init HomePage.init).
    right. right. reflexivity.
  - apply (C10_guarded_send_is_noop Sample.parse "ping" None Sample.ping_net
             UseChat.init UseWebSocketChat.init
             (HomePage.State [] "next" true [] false (Some JNull))).
    right. reflexivity.
Defined.

(** * Further properties of the code *)

(** ** [chatStream]: what the generator yields *)

Lemma split_lines_single tail : SingleLine tail → split_lines tail = [tail].
Proof.
  unfold SingleLine. induction tail as [|c tail IH]; [done|].
  cbn [single_line split_lines]. intros [Hc Ht]%andb_true_iff.
  apply negb_true_iff in Hc. by rewrite Hc, (IH Ht).
Qed.

Lemma split_lines_stream_tail lines tail :
  Forall SingleLine lines → SingleLine tail →
  split_lines (stream_of lines +:+ tail) = lines ++ [tail].
Proof.
  intros Hlines Htail. induction Hlines as [|l ls Hl _ IH].
  - unfold stream_of. cbn [map joined foldr]. rewrite append_nil_l.
    by apply split_lines_single.
  - rewrite stream_of_cons, !append_assoc.
    rewrite (split_lines_line _ _ Hl), IH. done.
Qed.

(** The loop of [chatStream] depends on the reads only through the text
    they carry together. *)
Lemma read_loop_complete_lines (JSON_parse : string → option json) values :
  Api.read_loop JSON_parse "" values =
  omap (Api.line_event JSON_parse) (removelast (split_lines (joined values))).
Proof.
  destruct values as [|a values]; [done|].
  rewrite read_loop_whole. cbn [Api.read_loop]. unfold Api.read_step.
  rewrite append_nil_l. cbn [fst snd]. by rewrite app_nil_r.
Qed.

(** X1.  Whatever the sizes of the chunks the body is read in,
    [chatStream] yields the events of the complete lines of the whole text,
    in order: the lines of the text but the last, which no line feed ends. *)
Theorem chatStream_yields_complete_lines (JSON_parse : string → option json)
    (values : list string) (statusText : string) (fin : read_end) :
  (Api.chatStream JSON_parse
     (Response true statusText (Some (Body values fin)))).1 =
  omap (Api.line_event JSON_parse) (removelast (split_lines (joined values))).
Proof. cbn [Api.chatStream reads fst]. apply read_loop_complete_lines. Qed.

(** X2.  [chatStream] never looks at its buffer once the body is done: a
    last line that no line feed ends is not yielded, whatever it holds. *)
Theorem chatStream_drops_unterminated_line (JSON_parse : string → option json)
    (lines values : list string) (tail statusText : string) (fin : read_end) :
  Forall SingleLine lines → SingleLine tail →
  joined values = stream_of lines +:+ tail →
  (Api.chatStream JSON_parse
     (Response true statusText (Some (Body values fin)))).1 =
  omap (Api.line_event JSON_parse) lines.
Proof.
  intros Hlines Htail Hjoined. cbn [Api.chatStream reads fst].
  rewrite read_loop_complete_lines, Hjoined.
  rewrite (split_lines_stream_tail _ _ Hlines Htail).
  by rewrite removelast_last.
Qed.

Lemma chatStream_drops_unterminated_line_witness :
  (Api.chatStream Sample.parse
     (Response true "OK"
        (Some (Body [stream_of [Sample.first_line];
                     Sample.line (JObj Sample.pong)] StreamDone)))).1 =
  omap (Api.line_event Sample.parse) [Sample.first_line].
Proof.
  apply (chatStream_drops_unterminated_line Sample.parse [Sample.first_line]
           _ (Sample.line (JObj Sample.pong))).
  - apply List.Forall_cons; [vm_compute; reflexivity|apply List.Forall_nil].
  - vm_compute; reflexivity.
  - vm_compute; reflexivity.
Defined.

(** X3.  The home page splits what it reads and handles every piece, the
    last one too: a last line that no line feed ends is handled like the
    lines before it. *)
Theorem HomePage_handles_unterminated_line (JSON_parse : string → option json)
    (lines : list string) (tail : string)
    (st : HomePage.state) (v : HomePage.locals) :
  Forall SingleLine lines → SingleLine tail →
  HomePage.read_loop JSON_parse [stream_of lines +:+ tail] st v =
  HomePage.on_lines JSON_parse (lines ++ [tail]) st v.
Proof.
  intros Hlines Htail. cbn [HomePage.read_loop].
  rewrite (split_lines_stream_tail _ _ Hlines Htail).
  by destruct (HomePage.on_lines JSON_parse (lines ++ [tail]) st v) as [[? ?]|].
Qed.

Lemma HomePage_handles_unterminated_line_witness :
  HomePage.read_loop Sample.parse
    [stream_of [Sample.first_line] +:+ Sample.line (JObj Sample.pong)]
    Sample.asked HomePage.locals0 =
  HomePage.on_lines Sample.parse
    ([Sample.first_line] ++ [Sample.line (JObj Sample.pong)])
    Sample.asked HomePage.locals0.
Proof.
  apply (HomePage_handles_unterminated_line Sample.parse [Sample.first_line]).
  - apply List.Forall_cons; [vm_compute; reflexivity|apply List.Forall_nil].
  - vm_compute; reflexivity.
Defined.

(** ** The payload of a [data:] line *)

Lemma prefix_append p s : String.prefix p (p +:+ s) = true.
Proof.
  induction p as [|c p IH]; [by destruct s|].
  rewrite append_cons. cbn [String.prefix].
  by destruct (Ascii.ascii_dec c c).
Qed.

Lemma slice_from_append p s : slice_from (String.length p) (p +:+ s) = s.
Proof.
  induction p as [|c p IH]; [by rewrite append_nil_l|].
  by rewrite append_cons.
Qed.

Lemma is_space_byte c : Ascii.is_space c = true → (byte_of c < 128)%N.
Proof.
  destruct c as [[] [] [] [] [] [] [] []]; vm_compute; congruence.
Qed.

Lemma space2_not_space a b : Ascii.is_space b = true → space2 a b = false.
Proof.
  intros H%is_space_byte. unfold space2.
  destruct (N.eqb_spec (byte_of b) 160); [lia|]. by rewrite andb_false_r.
Qed.

Lemma space3_not_space_2 a b c : Ascii.is_space b = true → space3 a b c = false.
Proof.
  intros H%is_space_byte. unfold space3.
  repeat match goal with
  | |- context [N.eqb (byte_of b) ?n] => destruct (N.eqb_spec (byte_of b) n); [lia|]
  end.
  by rewrite ?andb_false_r, ?andb_false_l.
Qed.

Lemma space3_not_space_3 a b c : Ascii.is_space c = true → space3 a b c = false.
Proof.
  intros H%is_space_byte. unfold space3.
  repeat match goal with
  | |- context [N.eqb (byte_of c) ?n] => destruct (N.eqb_spec (byte_of c) n); [lia|]
  end.
  destruct (N.leb_spec 128 (byte_of c)); [lia|].
  by rewrite ?andb_false_r, ?andb_false_l, ?orb_false_r.
Qed.

Lemma trimStart_all_space pad s :
  all_space pad = true → trimStart (pad +:+ s) = trimStart s.
Proof.
  induction pad as [|c pad IH]; [by rewrite append_nil_l|].
  cbn [all_space]. intros [Hc Hpad]%andb_true_iff.
  rewrite append_cons. cbn [trimStart]. rewrite Hc. by apply IH.
Qed.

Lemma trimStart_space_only pad : all_space pad = true → trimStart pad = "".
Proof.
  induction pad as [|c pad IH]; [done|].
  cbn [all_space trimStart]. intros [Hc Hpad]%andb_true_iff.
  rewrite Hc. by apply IH.
Qed.

(** White space after a text is kept by [trimStart], unless the text is
    white space only. *)
Lemma trimStart_before_space pad s :
  all_space pad = true →
  trimStart (s +:+ pad) = match trimStart s with "" => "" | t => t +:+ pad end.
Proof.
  intros Hpad.
  assert (∀ n s, (String.length s < n)%nat →
    trimStart (s +:+ pad)
    = match trimStart s with "" => "" | t => t +:+ pad end) as H;
    [|apply (H (S (String.length s))); lia].
  clear s. induction n as [|n IH]; [intros; lia|].
  intros [|a [|b [|c r3]]] Hlen.
  - rewrite append_nil_l. by apply trimStart_space_only.
  - rewrite append_cons, append_nil_l. cbn [trimStart].
    destruct (Ascii.is_space a) eqn:Ha; [by apply trimStart_space_only|].
    destruct pad as [|p [|q pad]]; [done| |];
      cbn [all_space] in Hpad; apply andb_true_iff in Hpad as [Hp Hq].
    + by rewrite (space2_not_space _ _ Hp).
    + by rewrite (space2_not_space _ _ Hp), (space3_not_space_2 _ _ _ Hp).
  - rewrite !append_cons, append_nil_l. cbn [trimStart].
    destruct (Ascii.is_space a) eqn:Ha.
    { apply (IH (String b "")). cbn in *. lia. }
    destruct (space2 a b) eqn:Hab; [by apply trimStart_space_only|].
    destruct pad as [|p pad]; [done|].
    cbn [all_space] in Hpad; apply andb_true_iff in Hpad as [Hp Hq].
    by rewrite (space3_not_space_3 _ _ _ Hp).
  - rewrite !append_cons. cbn [trimStart].
    destruct (Ascii.is_space a) eqn:Ha.
    { apply (IH (String b (String c r3))). cbn in *. lia. }
    destruct (space2 a b) eqn:Hab.
    { apply (IH (String c r3)). cbn in *. lia. }
    destruct (space3 a b c) eqn:Habc; [|done].
    apply (IH r3). cbn in *. lia.
Qed.

Lemma trimEnd_space_only pad : all_space pad = true → trimEnd pad = "".
Proof.
  intros Hpad. destruct pad as [|c pad]; [done|].
  cbn [trimEnd]. by rewrite (trimStart_space_only _ Hpad).
Qed.

Lemma trimEnd_all_space s pad :
  all_space pad = true → trimEnd (s +:+ pad) = trimEnd s.
Proof.
  intros Hpad. induction s as [|c s IH].
  - rewrite append_nil_l. by apply trimEnd_space_only.
  - rewrite append_cons. cbn [trimEnd]. rewrite <- append_cons.
    rewrite (trimStart_before_space _ _ Hpad), IH.
    by destruct (trimStart (String c s)).
Qed.

Lemma trim_all_space pad1 s pad2 :
  all_space pad1 = true → all_space pad2 = true →
  trim (pad1 +:+ s +:+ pad2) = trim s.
Proof.
  intros H1 H2. unfold trim. rewrite (trimStart_all_space _ _ H1).
  rewrite (trimStart_before_space _ _ H2).
  destruct (trimStart s) as [|c t]; [done|]. by apply trimEnd_all_space.
Qed.

(** X4.  White space around the payload of a [data:] line does not count
    (the space after the colon, a carriage return before the line feed):
    both parsers treat the line like the one without it. *)
Theorem data_line_padding_ignored (JSON_parse : string → option json)
    (pad1 payload pad2 : string) (st : HomePage.state) (v : HomePage.locals) :
  all_space pad1 = true → all_space pad2 = true →
  Api.line_event JSON_parse ("data:" +:+ pad1 +:+ payload +:+ pad2) =
    Api.line_event JSON_parse ("data:" +:+ payload) ∧
  HomePage.on_line JSON_parse ("data:" +:+ pad1 +:+ payload +:+ pad2) st v =
    HomePage.on_line JSON_parse ("data:" +:+ payload) st v.
Proof.
  intros H1 H2.
  assert (∀ rest, String.prefix "event:" ("data:" +:+ rest) = false) as Hevent.
  { intros rest. apply data_line_not_event, prefix_append. }
  split.
  - unfold Api.line_event. rewrite !prefix_append.
    rewrite !(slice_from_append "data:").
    by rewrite (trim_all_space _ _ _ H1 H2).
  - unfold HomePage.on_line. rewrite !Hevent, !prefix_append.
    rewrite !replace_first_prefix by apply prefix_append.
    rewrite !(slice_from_append "data:").
    by rewrite (trim_all_space _ _ _ H1 H2).
Qed.

Lemma data_line_padding_ignored_witness :
  Api.line_event Sample.parse
    ("data:" +:+ " " +:+ "{}" +:+ String "013"%char "") =
    Api.line_event Sample.parse ("data:" +:+ "{}") ∧
  HomePage.on_line Sample.parse
    ("data:" +:+ " " +:+ "{}" +:+ String "013"%char "")
    Sample.asked HomePage.locals0 =
    HomePage.on_line Sample.parse ("data:" +:+ "{}") Sample.asked HomePage.locals0.
Proof.
  apply (data_line_padding_ignored Sample.parse " " "{}" (String "013"%char ""));
    reflexivity.
Defined.

(** ** The turn of [useChat] on object chunks *)

(** X5.  The conversation id of [useChat].  A turn sends the id the hook
    holds ([undefined] when it holds none).  When its stream of object
    chunks ends, the hook holds the id it held if that was truthy, else the
    first truthy [conversation_id] of the chunks: an id once held is never
    replaced by a later chunk, and it is what the next turn sends. *)
Theorem UseChat_conversation_id_first_wins (JSON_parse : string → option json)
    (content : string) (net : fetched) (st : UseChat.state)
    (es : list (list (string * json))) :
  JS_truthy (Some (JStr (trim content))) = true →
  UseChat.isLoading st = false →
  Api.chatStream JSON_parse net = (map JObj es, None) →
  UseChat.requests (UseChat.sendMessage JSON_parse content net st) =
    [Request "/api/v1/chat/stream" content
       (if JS_truthy (UseChat.conversationId st)
        then UseChat.conversationId st else None)] ∧
  UseChat.conversationId
    (UseChat.final (UseChat.sendMessage JSON_parse content net st)) =
    if JS_truthy (UseChat.conversationId st) then UseChat.conversationId st
    else if JS_truthy (announced es) then announced es
         else UseChat.conversationId st.
Proof.
  intros Hcontent Hidle Hnet.
  rewrite (UseChat_sendMessage_objects _ _ _ _ _ Hcontent Hidle Hnet).
  cbn [UseChat.requests UseChat.final UseChat.conversationId].
  split; [reflexivity|].
  destruct (JS_truthy (UseChat.conversationId st)) eqn:Hknown.
  - by apply id_after_known.
  - by apply id_after_unknown.
Qed.


Lemma UseChat_conversation_id_first_wins_witness :
  UseChat.requests
    (UseChat.sendMessage Sample.parse "ping" Sample.two_ids_net UseChat.init) =
    [Request "/api/v1/chat/stream" "ping" None] ∧
  UseChat.conversationId
    (UseChat.final
       (UseChat.sendMessage Sample.parse "ping" Sample.two_ids_net UseChat.init)) =
    Some (JStr "c-1").
Proof.
  apply (UseChat_conversation_id_first_wins Sample.parse "ping" _ UseChat.init
           [Sample.first_id; Sample.second_id]).
  - reflexivity.
  - reflexivity.
  - vm_compute. reflexivity.
Defined.

(** X6.  The assistant message of [useChat].  When the stream yields the
    object chunks [es] and ends, the turn resolves without an error and
    appends, after the user message, one assistant message: its content is
    the last [content] a chunk gave (the placeholder when that is falsy or
    none came), its data the last chunk with a truthy [response_type]
    ([null] when there is none), its trace the chunks with a truthy
    [agent], its time the last truthy [processing_time_ms] (0 when there is
    none).  [onStepUpdate] was called with each chunk of the trace, in
    order. *)
Theorem UseChat_message_of_chunks (JSON_parse : string → option json)
    (content : string) (net : fetched) (st : UseChat.state)
    (es : list (list (string * json))) :
  JS_truthy (Some (JStr (trim content))) = true →
  UseChat.isLoading st = false →
  Api.chatStream JSON_parse net = (map JObj es, None) →
  UseChat.outcome (UseChat.sendMessage JSON_parse content net st) = Resolved ∧
  UseChat.errorsReported (UseChat.sendMessage JSON_parse content net st) = [] ∧
  UseChat.messages (UseChat.final (UseChat.sendMessage JSON_parse content net st)) =
    UseChat.messages st ++ [userMessage (trim content); message_of es] ∧
  UseChat.stepUpdates (UseChat.sendMessage JSON_parse content net st) =
    map JObj (List.filter has_agent es).
Proof.
  intros Hcontent Hidle Hnet.
  rewrite (UseChat_sendMessage_objects _ _ _ _ _ Hcontent Hidle Hnet).
  repeat split.
Qed.

Lemma UseChat_message_of_chunks_witness :
  UseChat.outcome
    (UseChat.sendMessage Sample.parse "ping" Sample.ping_net UseChat.init)
    = Resolved ∧
  UseChat.errorsReported
    (UseChat.sendMessage Sample.parse "ping" Sample.ping_net UseChat.init) = [] ∧
  UseChat.messages
    (UseChat.final
       (UseChat.sendMessage Sample.parse "ping" Sample.ping_net UseChat.init)) =
    UseChat.messages UseChat.init ++
    [userMessage (trim "ping"); message_of (Sample.ping_steps ++ [Sample.pong])] ∧
  UseChat.stepUpdates
    (UseChat.sendMessage Sample.parse "ping" Sample.ping_net UseChat.init) =
    map JObj (List.filter has_agent (Sample.ping_steps ++ [Sample.pong])).
Proof.
  apply (UseChat_message_of_chunks Sample.parse "ping" Sample.ping_net
           UseChat.init (Sample.ping_steps ++ [Sample.pong])).
  - reflexivity.
  - reflexivity.
  - vm_compute. reflexivity.
Defined.

(** ** The turn of the home page on object events *)

(** X7.  The home page builds the message the hook builds.  When the body
    is a sequence of [data:] lines with objects, read in one piece, the
    turn of the home page appends the user message and the assistant
    message [message_of es], the one [useChat] appends for the same chunks.
    It then shows the success toast, unless the processing time of that
    message cannot be turned into a number: building the toast then throws
    and the page shows the error toast, the message staying appended. *)
Theorem HomePage_message_of_events (JSON_parse : string → option json)
    (lines : list string) (es : list (list (string * json)))
    (statusText : string) (hp : HomePage.state) :
  JS_truthy (Some (JStr (trim (HomePage.input hp)))) = true →
  HomePage.isLoading hp = false →
  Forall SingleLine lines → Forall2 (data_line_of JSON_parse) lines es →
  let turn :=
    HomePage.handleSubmit JSON_parse
      (Response true statusText (Some (Body [stream_of lines] StreamDone))) hp in
  HomePage.messages (HomePage.final turn) =
    HomePage.messages hp ++
    [userMessage (trim (HomePage.input hp)); message_of es] ∧
  HomePage.toasts turn =
    [if ToNumber_throws (Message.processingTime (message_of es))
     then HomePage.toast_error "Failed to process request" "Please try again."
     else HomePage.toast_success "Response generated"] ∧
  HomePage.input (HomePage.final turn) = "" ∧
  HomePage.isLoading (HomePage.final turn) = false.
Proof.
  intros Hinput Hidle Hsingle Hlines.
  destruct (HomePage_handleSubmit_objects JSON_parse lines es statusText hp
              Hinput Hidle Hsingle Hlines) as (steps & v & Hrun & Hmessage & _).
  cbn zeta. rewrite Hrun.
  cbn [HomePage.completed HomePage.final HomePage.finally HomePage.messages
       HomePage.toasts HomePage.input HomePage.isLoading].
  rewrite <- Hmessage, <- app_assoc. done.
Qed.

Lemma HomePage_message_of_events_witness :
  let turn :=
    HomePage.handleSubmit Sample.parse
      (Response true "OK"
         (Some (Body [stream_of (map (λ fs, Sample.line (JObj fs))
                                   (Sample.ping_steps ++ [Sample.pong]))]
                  StreamDone)))
      Sample.asked in
  HomePage.messages (HomePage.final turn) =
    HomePage.messages Sample.asked ++
    [userMessage (trim (HomePage.input Sample.asked));
     message_of (Sample.ping_steps ++ [Sample.pong])] ∧
  HomePage.toasts turn = [HomePage.toast_success "Response generated"] ∧
  HomePage.input (HomePage.final turn) = "" ∧
  HomePage.isLoading (HomePage.final turn) = false.
Proof.
  apply (HomePage_message_of_events Sample.parse
           (map (λ fs, Sample.line (JObj fs)) (Sample.ping_steps ++ [Sample.pong]))
           (Sample.ping_steps ++ [Sample.pong]) "OK" Sample.asked).
  - reflexivity.
  - reflexivity.
  - repeat (apply List.Forall_cons; [vm_compute; reflexivity|]).
    apply List.Forall_nil.
  - repeat (apply List.Forall2_cons; [split; vm_compute; reflexivity|]).
    apply List.Forall2_nil.
Defined.

(** A processing time that is an object with a field [toString]: the
    message is appended and the error toast shown. *)
Example HomePage_unconvertible_time_shows_error_toast :
  let turn := HomePage.handleSubmit Sample.parse Sample.odd_net Sample.asked in
  HomePage.messages (HomePage.final turn) =
    [userMessage "ping";
     Message.Make Message.assistant (Some (JStr placeholder)) (Some JNull)
       (Some [JObj Sample.odd_time]) (Some (JObj [("toString", JNum 1)]))] ∧
  HomePage.toasts turn =
    [HomePage.toast_error "Failed to process request" "Please try again."].
Proof. split; vm_compute; reflexivity. Qed.

(** X8.  When the home page opens the data viewer.  After a turn whose
    body is a sequence of [data:] lines with objects, read in one piece,
    the viewer is open on the last chunk that named a truthy
    [response_type], provided that type is not the string [text]; when that
    type is [text], or no chunk named one, the viewer and its data are as
    they were before the turn. *)
Theorem HomePage_viewer_opens_on_structured_data
    (JSON_parse : string → option json)
    (lines : list string) (es : list (list (string * json)))
    (statusText : string) (hp : HomePage.state) :
  JS_truthy (Some (JStr (trim (HomePage.input hp)))) = true →
  HomePage.isLoading hp = false →
  Forall SingleLine lines → Forall2 (data_line_of JSON_parse) lines es →
  let done :=
    HomePage.final
      (HomePage.handleSubmit JSON_parse
         (Response true statusText (Some (Body [stream_of lines] StreamDone))) hp) in
  (HomePage.showDataViewer done, HomePage.currentData done) =
  match List.find has_kind (rev es) with
  | Some e =>
      if structured e then (true, obj e)
      else (HomePage.showDataViewer hp, HomePage.currentData hp)
  | None => (HomePage.showDataViewer hp, HomePage.currentData hp)
  end.
Proof.
  intros Hinput Hidle Hsingle Hlines.
  destruct (HomePage_handleSubmit_objects JSON_parse lines es statusText hp
              Hinput Hidle Hsingle Hlines) as (steps & v & Hrun & _ & Hdata).
  cbn zeta. rewrite Hrun.
  cbn [HomePage.completed HomePage.final HomePage.finally
       HomePage.showDataViewer HomePage.currentData].
  unfold HomePage.reveals_viewer. rewrite Hdata, foldl_data_after.
  destruct (List.find has_kind (rev es)) as [e|]; [|done].
  unfold structured. cbn [JS_truthy obj get andb].
  by destruct (strict_eq (assoc "response_type" e) (Some (JStr "text"))).
Qed.


Lemma HomePage_viewer_opens_on_structured_data_witness :
  let done :=
    HomePage.final
      (HomePage.handleSubmit Sample.parse
         (Response true "OK"
            (Some (Body [stream_of [Sample.first_line;
                                    Sample.line (JObj Sample.table_block)]]
                     StreamDone)))
         Sample.asked) in
  (HomePage.showDataViewer done, HomePage.currentData done) =
  (true, obj Sample.table_block).
Proof.
  apply (HomePage_viewer_opens_on_structured_data Sample.parse
           [Sample.first_line; Sample.line (JObj Sample.table_block)]
           [Sample.step "switchboard" "running"; Sample.table_block]
           "OK" Sample.asked).
  - reflexivity.
  - reflexivity.
  - repeat (apply List.Forall_cons; [vm_compute; reflexivity|]).
    apply List.Forall_nil.
  - repeat (apply List.Forall2_cons; [split; vm_compute; reflexivity|]).
    apply List.Forall2_nil.
Defined.

(** ** The socket handler on the edges of its protocol *)

(** X9.  A [response] or [error] message without a payload (no [data]
    field, or [null]) does not end the turn: the handler throws at
    [data.data.message], inside its [try], before any state is set, and the
    hook stays as it was, loading included. *)
Theorem ws_terminal_message_without_payload (JSON_parse : string → option json)
    (text : string) (fs : list (string * json)) (st : UseWebSocketChat.state) :
  JSON_parse text = Some (JObj fs) →
  assoc "type" fs = Some (JStr "response") ∨
  assoc "type" fs = Some (JStr "error") →
  assoc "data" fs = None ∨ assoc "data" fs = Some JNull →
  UseWebSocketChat.onmessage JSON_parse text st = Ok st.
Proof.
  intros Hparse Hty Hdata. unfold UseWebSocketChat.onmessage. rewrite Hparse.
  unfold UseWebSocketChat.try_dispatch, UseWebSocketChat.dispatch.
  cbn [get mbind except_bind].
  destruct Hty as [-> | ->], Hdata as [-> | ->]; reflexivity.
Qed.

Lemma ws_terminal_message_without_payload_witness :
  UseWebSocketChat.onmessage Sample.parse
    (Sample.stringify (JObj [("type", JStr "error")]))
    (ws_started "ping" None Sample.socket_ready) =
  Ok (ws_started "ping" None Sample.socket_ready).
Proof.
  apply (ws_terminal_message_without_payload Sample.parse _
           [("type", JStr "error")]).
  - vm_compute. reflexivity.
  - right. reflexivity.
  - left. reflexivity.
Defined.

(** X10.  What a message of the socket can do to the hook.  It never
    touches [isConnected] or the socket reference, and never drops or
    changes a message of the list: the list stays as it is, or one
    assistant message is appended, and then the loading flag and the step
    list are cleared.  No message sets the loading flag. *)
Theorem ws_onmessage_keeps_history (JSON_parse : string → option json)
    (text : string) (st st' : UseWebSocketChat.state) :
  UseWebSocketChat.onmessage JSON_parse text st = Ok st' →
  UseWebSocketChat.isConnected st' = UseWebSocketChat.isConnected st ∧
  UseWebSocketChat.wsRef st' = UseWebSocketChat.wsRef st ∧
  (UseWebSocketChat.isLoading st' = UseWebSocketChat.isLoading st ∨
   UseWebSocketChat.isLoading st' = false) ∧
  (UseWebSocketChat.messages st' = UseWebSocketChat.messages st ∨
   ∃ m, UseWebSocketChat.messages st' = UseWebSocketChat.messages st ++ [m] ∧
        Message.role m = Message.assistant ∧
        UseWebSocketChat.isLoading st' = false ∧
        UseWebSocketChat.currentSteps st' = []).
Proof.
  unfold UseWebSocketChat.onmessage.
  destruct (JSON_parse text) as [d|]; [|intros [= <-]; tauto].
  unfold UseWebSocketChat.try_dispatch, UseWebSocketChat.dispatch.
  destruct (get (Some d) "type") as [ty|e] eqn:Hty; cbn [mbind except_bind].
  2: { destruct (catchable e); intros [= <-]; tauto. }
  destruct (UseWebSocketChat.is_type ty "ack"); [intros [= <-]; tauto|].
  destruct (UseWebSocketChat.is_type ty "step").
  { destruct (get (Some d) "data") as [payload|e]; cbn [mbind except_bind].
    2: { destruct (catchable e); intros [= <-]; tauto. }
    unfold UseWebSocketChat.on_step.
    destruct (step_update payload (UseWebSocketChat.currentSteps st))
      as [steps|e]; cbn [in_render mbind except_bind catchable];
      [intros [= <-]; cbn; tauto|done]. }
  destruct (UseWebSocketChat.is_type ty "response").
  { destruct (get (Some d) "data") as [payload|e]; cbn [mbind except_bind].
    2: { destruct (catchable e); intros [= <-]; tauto. }
    unfold UseWebSocketChat.on_response.
    destruct (get payload "message") as [x|e]; cbn [mbind except_bind].
    2: { destruct (catchable e); intros [= <-]; tauto. }
    destruct (get payload "data") as [y|e]; cbn [mbind except_bind].
    2: { destruct (catchable e); intros [= <-]; tauto. }
    destruct (get payload "processing_time_ms") as [z|e]; cbn [mbind except_bind].
    2: { destruct (catchable e); intros [= <-]; tauto. }
    intros [= <-]. cbn. repeat split; [by right|]. right. by eexists. }
  destruct (UseWebSocketChat.is_type ty "error"); [|intros [= <-]; tauto].
  destruct (get (Some d) "data") as [payload|e]; cbn [mbind except_bind].
  2: { destruct (catchable e); intros [= <-]; tauto. }
  unfold UseWebSocketChat.on_error.
  destruct (get payload "message") as [x|e]; cbn [mbind except_bind].
  2: { destruct (catchable e); intros [= <-]; tauto. }
  intros [= <-]. cbn. repeat split; [by right|by left].
Qed.

Lemma ws_onmessage_keeps_history_witness :
  UseWebSocketChat.isConnected Sample.answered
    = UseWebSocketChat.isConnected (ws_started "ping" None Sample.socket_ready) ∧
  UseWebSocketChat.wsRef Sample.answered
    = UseWebSocketChat.wsRef (ws_started "ping" None Sample.socket_ready) ∧
  (UseWebSocketChat.isLoading Sample.answered
     = UseWebSocketChat.isLoading (ws_started "ping" None Sample.socket_ready) ∨
   UseWebSocketChat.isLoading Sample.answered = false) ∧
  (UseWebSocketChat.messages Sample.answered
     = UseWebSocketChat.messages (ws_started "ping" None Sample.socket_ready) ∨
   ∃ m, UseWebSocketChat.messages Sample.answered
          = UseWebSocketChat.messages (ws_started "ping" None Sample.socket_ready)
            ++ [m] ∧
        Message.role m = Message.assistant ∧
        UseWebSocketChat.isLoading Sample.answered = false ∧
        UseWebSocketChat.currentSteps Sample.answered = []).
Proof.
  apply (ws_onmessage_keeps_history Sample.parse
           (Sample.stringify (Sample.response_message Sample.pong_payload))).
  vm_compute. reflexivity.
Defined.


(** ** The step reducer: a repeated event, and the fields of an entry *)

Lemma assoc_elem_of k v (fs : list (string * json)) :
  (k, v) ∈ fs → assoc k fs ≠ None.
Proof.
  induction fs as [|[k' v'] fs IH]; [by intros ?%elem_of_nil|].
  cbn [assoc]. destruct (String.eqb k k') eqn:Heq; [done|].
  intros [[= -> ->]|Hin]%elem_of_cons; [|by apply IH].
  by rewrite String.eqb_refl in Heq.
Qed.

Lemma assoc_distinct k v (fs : list (string * json)) :
  distinct_keys fs → (k, v) ∈ fs → assoc k fs = Some v.
Proof.
  unfold distinct_keys. induction fs as [|[k' v'] fs IH]; [by intros _ ?%elem_of_nil|].
  cbn [map fst assoc]. intros [Hk' Hfs]%NoDup_cons [[= -> ->]|Hin]%elem_of_cons.
  - by rewrite String.eqb_refl.
  - destruct (String.eqb k k') eqn:Heq; [|by apply IH].
    apply String.eqb_eq in Heq as ->. destruct Hk'.
    apply list_elem_of_fmap. by exists (k', v).
Qed.

Lemma filter_none {A} (P : A → Prop) `{∀ x, Decision (P x)} (l : list A) :
  (∀ x, x ∈ l → ¬ P x) → filter P l = [].
Proof.
  induction l as [|x l IH]; [done|]. intros Hl.
  rewrite filter_cons_False by (apply Hl; left).
  apply IH. intros y Hy. apply Hl. by right.
Qed.

Lemma map_fixed {A} (f : A → A) (l : list A) :
  (∀ x, x ∈ l → f x = x) → map f l = l.
Proof.
  induction l as [|x l IH]; [done|]. intros Hl. cbn [map].
  rewrite (Hl x) by left. f_equal. apply IH. intros y Hy. apply Hl. by right.
Qed.

(** Spreading the same object a second time changes nothing. *)
Lemma spread_fields_again s e :
  distinct_keys e → spread_fields (spread_fields s e) e = spread_fields s e.
Proof.
  intros He. unfold spread_fields at 1.
  rewrite (filter_none _ e), app_nil_r.
  - unfold spread_fields. rewrite map_app. f_equal.
    + rewrite map_map. apply map_ext. intros [k v]. cbn [fst snd].
      by destruct (assoc k e).
    + apply map_fixed. intros [k v] [_ Hin]%list_elem_of_filter. cbn [fst snd].
      by rewrite (assoc_distinct _ _ _ He Hin).
  - intros [k v] Hin. cbn [fst]. rewrite assoc_spread.
    pose proof (assoc_elem_of _ _ _ Hin). by destruct (assoc k e).
Qed.

Lemma spread_fields_self e : distinct_keys e → spread_fields e e = e.
Proof.
  intros He. unfold spread_fields. rewrite (filter_none _ e), app_nil_r.
  - apply map_fixed. intros [k v] Hin. cbn [fst snd].
    by rewrite (assoc_distinct _ _ _ He Hin).
  - intros [k v] Hin. cbn [fst]. by apply (assoc_elem_of _ v).
Qed.

Lemma for_agent_spread a s e :
  agent_name e = Some a → for_agent a (spread_fields s e) = true.
Proof.
  intros He. unfold for_agent. rewrite (agent_name_spread _ _ _ He).
  by apply bool_decide_eq_true.
Qed.

Lemma upsert_again e prev :
  StepEvent e → distinct_keys e → upsert e (upsert e prev) = upsert e prev.
Proof.
  intros [a Ha] He. unfold upsert. rewrite Ha.
  assert (for_agent a e = true) as Hself.
  { unfold for_agent. by apply bool_decide_eq_true. }
  destruct (existsb (for_agent a) prev) eqn:Hex.
  - assert (existsb (for_agent a)
              (map (λ s, if for_agent a s then spread_fields s e else s) prev)
            = true) as ->.
    { apply existsb_exists in Hex as (s & Hin & Hs). apply existsb_exists.
      exists (spread_fields s e). split; [|by apply for_agent_spread].
      apply in_map_iff. exists s. by rewrite Hs. }
    rewrite map_map. apply map_ext. intros s.
    destruct (for_agent a s) eqn:Hs; [|by rewrite Hs].
    by rewrite (for_agent_spread _ _ _ Ha), (spread_fields_again _ _ He).
  - rewrite existsb_app. cbn [existsb]. rewrite Hself, Hex. cbn [orb].
    rewrite map_app. cbn [map]. rewrite Hself, (spread_fields_self _ He).
    f_equal. apply map_fixed. intros s Hin.
    destruct (for_agent a s) eqn:Hs; [|done].
    assert (existsb (for_agent a) prev = true) as Hex'; [|congruence].
    apply existsb_exists. exists s. split; [|done]. by apply list_elem_of_In.
Qed.

(** X11.  The updater of the step list absorbs a repeated event.  For a
    step event with distinct keys (what [JSON.parse] gives) and a list of
    step entries, running the updater a second time with the same event
    returns the list the first run returned. *)
Theorem step_update_absorbs_repeat (e : list (string * json))
    (prev : list (list (string * json))) :
  StepEvent e → distinct_keys e → Forall StepEvent prev →
  ∃ steps,
    step_update (obj e) (map obj prev) = Ok steps ∧
    step_update (obj e) steps = Ok steps.
Proof.
  intros He Hkeys Hprev. exists (map obj (upsert e prev)). split.
  - by apply step_update_steps.
  - rewrite (step_update_steps _ _ He (upsert_steps _ _ He Hprev)).
    by rewrite (upsert_again _ _ He Hkeys).
Qed.

Lemma step_update_absorbs_repeat_witness :
  ∃ steps,
    step_update (obj (Sample.step "switchboard" "completed"))
      (map obj [Sample.step "switchboard" "running";
                Sample.step "librarian" "running"]) = Ok steps ∧
    step_update (obj (Sample.step "switchboard" "completed")) steps = Ok steps.
Proof.
  apply (step_update_absorbs_repeat (Sample.step "switchboard" "completed")
           [Sample.step "switchboard" "running"; Sample.step "librarian" "running"]).
  - by eexists.
  - unfold distinct_keys. cbn [Sample.step map fst].
    repeat (apply NoDup_cons; split;
            [by intros ?%list_elem_of_In; cbn in *; intuition discriminate|]).
    apply NoDup_nil_2.
  - repeat (apply List.Forall_cons; [by eexists|]). apply List.Forall_nil.
Defined.


Lemma assoc_merge_all k l : assoc k (merge_all l) = last_given k l.
Proof.
  unfold last_given. induction l as [|e l IH] using rev_ind; [done|].
  rewrite merge_all_snoc, foldl_app. cbn [foldl]. rewrite <- IH.
  destruct l as [|e' l].
  - cbn [merge_all assoc]. by destruct (assoc k e).
  - by rewrite assoc_spread.
Qed.

Lemma find_entry a (names : list string) (M : string → list (string * json)) :
  (∀ b, b ∈ names → agent_name (M b) = Some b) →
  List.find (λ s, bool_decide (entry_agent s = Some a)) (map obj (map M names)) =
  if decide (a ∈ names) then Some (obj (M a)) else None.
Proof.
  induction names as [|b names IH]; intros HM.
  - by rewrite decide_False by apply not_elem_of_nil.
  - cbn [map List.find entry_agent obj]. rewrite (HM b) by left.
    destruct (decide (b = a)) as [->|Hne].
    + rewrite bool_decide_eq_true_2 by done.
      by rewrite decide_True by left.
    + rewrite bool_decide_eq_false_2 by congruence.
      rewrite IH by (intros c Hc; apply HM; by right).
      destruct (decide (a ∈ names)) as [Hin|Hout].
      * by rewrite decide_True by (by right).
      * rewrite decide_False; [done|].
        intros [->|Hin]%elem_of_cons; done.
Qed.

Lemma displayed_field_folded a k es :
  Forall StepEvent es →
  displayed_field a k (map obj (fold_steps es [])) = last_given k (events_for a es).
Proof.
  intros Hes. rewrite (fold_steps_closed _ Hes). unfold displayed_field.
  rewrite find_entry.
  - destruct (decide (a ∈ first_seen (agents es))) as [Hin|Hout].
    + cbn [obj]. apply assoc_merge_all.
    + assert (events_for a es = []) as ->; [|done].
      apply events_for_nil. by rewrite <- elem_of_first_seen.
  - intros b Hb. apply agent_name_merged. by apply elem_of_first_seen.
Qed.

(** X12.  Last write wins field by field.  After the loop of [useChat] has
    taken the step events [es], the entry of an agent shows, under every
    key, the value the last event of that agent that has the key gave it: a
    later event that leaves a field out does not erase it. *)
Theorem UseChat_entry_keeps_last_given_fields
    (es : list (list (string * json)))
    (st : UseChat.state) (v : UseChat.locals) :
  Forall StepEvent es → UseChat.currentSteps st = [] →
  ∃ st' v',
    UseChat.for_await (map JObj es) st v = (st', v', None) ∧
    ∀ a k, displayed_field a k (UseChat.currentSteps st') =
           last_given k (events_for a es).
Proof.
  intros Hes Hempty.
  destruct (UseChat_for_await_steps es [] [] st v Hes (List.Forall_nil _) Hempty)
    as (st' & v' & Hrun & Hsteps & _).
  rewrite app_nil_r in Hrun. exists st', v'. split; [exact Hrun|].
  intros a k. rewrite Hsteps. by apply displayed_field_folded.
Qed.

Lemma UseChat_entry_keeps_last_given_fields_witness :
  ∃ st' v',
    UseChat.for_await
      (map JObj [Sample.step "librarian" "running";
                 [("agent", JStr "librarian"); ("status", JStr "completed")]])
      UseChat.init (UseChat.locals0 UseChat.init) = (st', v', None) ∧
    ∀ a k, displayed_field a k (UseChat.currentSteps st') =
           last_given k
             (events_for a
                [Sample.step "librarian" "running";
                 [("agent", JStr "librarian"); ("status", JStr "completed")]]).
Proof.
  apply (UseChat_entry_keeps_last_given_fields
           [Sample.step "librarian" "running";
            [("agent", JStr "librarian"); ("status", JStr "completed")]]).
  - repeat (apply List.Forall_cons; [by eexists|]). apply List.Forall_nil.
  - reflexivity.
Defined.


(** ** The upload components: the loop of [uploadFiles] *)

(** X13.  [uploadFiles] leaves no file pending.  As long as no upload is
    answered ok with the body [null], when [uploadFiles] of the upload
    modal or of the inline upload returns (nothing else having set the list
    meanwhile) the component is mounted and every file of the list has left
    the status [pending], whatever else the requests meet and whenever the
    completion timers fire.  (On a [null] body the updater that reads
    [result.job_id] throws while React renders: the component is taken
    down and the files after that one stay pending.) *)
Theorem uploadFiles_leaves_none_pending (nets : nat → Upload.net)
    (st : Upload.run) :
  stays_mounted nets →
  (UploadModal.upload nets st = Upload.Mounted (UploadModal.uploadFiles nets st) ∧
   Forall (λ f, Upload.is_pending f = false)
     (Upload.files (UploadModal.uploadFiles nets st))) ∧
  (InlineUpload.upload nets st = Upload.Mounted (InlineUpload.uploadFiles nets st) ∧
   Forall (λ f, Upload.is_pending f = false)
     (Upload.files (InlineUpload.uploadFiles nets st))).
Proof.
  intros Hnets. split.
  - unfold UploadModal.uploadFiles, UploadModal.upload.
    destruct (Upload.files st) as [|f0 fs0] eqn:Hfs.
    { cbn [Upload.shown]. by rewrite Hfs. }
    rewrite <- Hfs. rewrite UploadModal_loop.
    destruct (loop_no_pending _ (λ _, Upload.to_uploading) _
                UploadModal_one_skip UploadModal_one_run
                (λ _ _, eq_refl) modal_ends_settled nets
                (Upload.files st) (Upload.files st) 0%nat
                (Upload.Run (Upload.files st) true (Upload.timers st))
                Hnets eq_refl) as (r' & -> & Hr').
    { intros k f Hk _. split; [lia|exact Hk]. }
    done.
  - unfold InlineUpload.uploadFiles, InlineUpload.upload.
    destruct (Upload.files st) as [|f0 fs0] eqn:Hfs.
    { cbn [Upload.shown]. by rewrite Hfs. }
    rewrite <- Hfs. rewrite InlineUpload_loop.
    destruct (loop_no_pending _ _ _ InlineUpload_one_skip InlineUpload_one_run
                inline_starts_id inline_ends_settled nets
                (Upload.files st) (Upload.files st) 0%nat
                (Upload.Run (Upload.files st) true (Upload.timers st))
                Hnets eq_refl) as (r' & -> & Hr').
    { intros k f Hk _. split; [lia|exact Hk]. }
    done.
Qed.

Lemma uploadFiles_leaves_none_pending_witness :
  (UploadModal.upload Sample.accepting Sample.two_files =
     Upload.Mounted (UploadModal.uploadFiles Sample.accepting Sample.two_files) ∧
   Forall (λ f, Upload.is_pending f = false)
     (Upload.files (UploadModal.uploadFiles Sample.accepting Sample.two_files))) ∧
  (InlineUpload.upload Sample.accepting Sample.two_files =
     Upload.Mounted (InlineUpload.uploadFiles Sample.accepting Sample.two_files) ∧
   Forall (λ f, Upload.is_pending f = false)
     (Upload.files (InlineUpload.uploadFiles Sample.accepting Sample.two_files))).
Proof.
  apply (uploadFiles_leaves_none_pending Sample.accepting Sample.two_files).
  intros i. reflexivity.
Defined.

(** An upload answered ok with the body [null]: the file of the turn shows
    as uploading for good, the file after it stays pending, and no timer
    is left that would change them. *)
Example null_body_takes_the_component_down :
  UploadModal.upload
    (λ _, Upload.Net 0 (Upload.responded true (Some JNull))) Sample.two_pending =
  Upload.Unmounted_at
    (Upload.Run
       [Upload.Make "f1" "a.pdf" Upload.uploading 0 None None;
        Upload.Make "f2" "b.pdf" Upload.pending 0 None None] true []) ∧
  InlineUpload.upload
    (λ _, Upload.Net 3 (Upload.responded true (Some JNull))) Sample.two_pending =
  Upload.Unmounted_at
    (Upload.Run
       [Upload.Make "f1" "a.pdf" Upload.uploading 30 None None;
        Upload.Make "f2" "b.pdf" Upload.pending 0 None None] true []).
Proof. split; vm_compute; reflexivity. Qed.

(** X14.  The list of files is only ever mapped over.  [uploadFiles] and
    the completion timers it sets keep every file in its place under its id
    and its [File]: none is added, dropped, moved or renamed. *)
Theorem uploadFiles_keeps_the_files (nets : nat → Upload.net) (st : Upload.run) :
  (map Upload.id (Upload.files (Upload.settle (UploadModal.uploadFiles nets st)))
     = map Upload.id (Upload.files st) ∧
   map Upload.file (Upload.files (Upload.settle (UploadModal.uploadFiles nets st)))
     = map Upload.file (Upload.files st)) ∧
  (map Upload.id (Upload.files (Upload.settle (InlineUpload.uploadFiles nets st)))
     = map Upload.id (Upload.files st) ∧
   map Upload.file (Upload.files (Upload.settle (InlineUpload.uploadFiles nets st)))
     = map Upload.file (Upload.files st)).
Proof.
  split.
  - destruct (settle_ids (UploadModal.uploadFiles nets st)) as [-> ->].
    destruct (UploadModal_uploadFiles_shown nets st) as [-> _].
    rewrite UploadModal_loop.
    exact (loop_ids _ _ _ (λ _ _ _, eq_refl) UploadModal_one_skip
             UploadModal_one_run (λ _ _, eq_refl) (λ _ _, eq_refl)
             modal_ends_id modal_ends_file nets 0%nat (Upload.files st)
             (Upload.Mounted (Upload.Run (Upload.files st) true (Upload.timers st)))).
  - destruct (settle_ids (InlineUpload.uploadFiles nets st)) as [-> ->].
    destruct (InlineUpload_uploadFiles_shown nets st) as [-> _].
    rewrite InlineUpload_loop.
    exact (loop_ids _ _ _ (λ _ _ _, eq_refl) InlineUpload_one_skip
             InlineUpload_one_run inline_starts_id inline_starts_file
             inline_ends_id inline_ends_file nets 0%nat (Upload.files st)
             (Upload.Mounted (Upload.Run (Upload.files st) true (Upload.timers st)))).
Qed.

(** X15.  [uploadFiles] has no retry.  With distinct ids, a file that is
    not pending when [uploadFiles] is called (it failed, it is completed, it
    is being processed) and has no completion timer waiting is exactly as
    it was when [uploadFiles] has run and the timers have fired; in
    particular no request is made again for a file that failed. *)
Theorem uploadFiles_skips_settled_files (nets : nat → Upload.net)
    (st : Upload.run) (k : nat) (f : Upload.UploadedFile) :
  NoDup (map Upload.id (Upload.files st)) →
  Upload.files st !! k = Some f → Upload.is_pending f = false →
  Upload.id f ∉ Upload.timers st →
  Upload.files (Upload.settle (UploadModal.uploadFiles nets st)) !! k = Some f ∧
  Upload.files (Upload.settle (InlineUpload.uploadFiles nets st)) !! k = Some f.
Proof.
  intros Hdup Hk Hf Htimers. split.
  - rewrite settle_lookup.
    destruct (UploadModal_uploadFiles_shown nets st) as [-> ->].
    rewrite UploadModal_loop.
    destruct (loop_untouched _ _ _ (λ _ _ _, eq_refl) UploadModal_one_skip
                UploadModal_one_run nets (Upload.files st) k f (Upload.files st)
                0%nat
                (Upload.Mounted (Upload.Run (Upload.files st) true (Upload.timers st)))
                Hdup Hk Hf eq_refl Hk Htimers) as [-> Hout].
    cbn. by rewrite (awaited_false _ _ Hout).
  - rewrite settle_lookup.
    destruct (InlineUpload_uploadFiles_shown nets st) as [-> ->].
    rewrite InlineUpload_loop.
    destruct (loop_untouched _ _ _ (λ _ _ _, eq_refl) InlineUpload_one_skip
                InlineUpload_one_run nets (Upload.files st) k f (Upload.files st)
                0%nat
                (Upload.Mounted (Upload.Run (Upload.files st) true (Upload.timers st)))
                Hdup Hk Hf eq_refl Hk Htimers) as [-> Hout].
    cbn. by rewrite (awaited_false _ _ Hout).
Qed.

Lemma uploadFiles_skips_settled_files_witness :
  Upload.files (Upload.settle (UploadModal.uploadFiles Sample.accepting Sample.two_files))
    !! 0%nat = Some Sample.failed_file ∧
  Upload.files (Upload.settle (InlineUpload.uploadFiles Sample.accepting Sample.two_files))
    !! 0%nat = Some Sample.failed_file.
Proof.
  apply (uploadFiles_skips_settled_files Sample.accepting Sample.two_files 0%nat).
  - cbn. repeat (apply NoDup_cons; split;
                 [by intros ?%list_elem_of_In; cbn in *; intuition discriminate|]).
    apply NoDup_nil_2.
  - reflexivity.
  - reflexivity.
  - apply not_elem_of_nil.
Defined.


Lemma iter_tick1_progress n f :
  Upload.progress f = 0 →
  Upload.progress (Nat.iter n tick1 f) = Z.min (10 * Z.of_nat n) 90.
Proof.
  intros Hzero. induction n as [|n IH]; [cbn; lia|].
  rewrite Nat.iter_succ. unfold tick1 at 1.
  destruct (Upload.progress (Nat.iter n tick1 f) <? 90) eqn:Hlt.
  - apply Z.ltb_lt in Hlt. cbn [Upload.progress]. lia.
  - apply Z.ltb_ge in Hlt. lia.
Qed.

(** X16.  The progress the inline upload shows while a request is pending
    is counted, not measured: after the file is set to [uploading] and the
    interval has fired [n] times, its progress is [10 * n], capped at 90;
    nothing else of the file has changed. *)
Theorem InlineUpload_simulated_progress (target : string) (n : nat)
    (l : list Upload.UploadedFile) (k : nat) (f : Upload.UploadedFile) :
  l !! k = Some f → Upload.id f = target →
  Nat.iter n (InlineUpload.tick target)
    (Upload.map_id target Upload.to_uploading l) !! k =
  Some (Upload.Make (Upload.id f) (Upload.file f) Upload.uploading
          (Z.min (10 * Z.of_nat n) 90) (Upload.error f) (Upload.jobId f)).
Proof.
  intros Hk Hid. rewrite iter_tick_map_id, map_id_compose by done.
  rewrite map_id_lookup, Hk. cbn [fmap option_fmap option_map].
  rewrite Hid, String.eqb_refl. f_equal.
  pose proof (iter_tick1_id n (Upload.to_uploading f)) as H1.
  pose proof (iter_tick1_file n (Upload.to_uploading f)) as H2.
  pose proof (iter_tick1_status n (Upload.to_uploading f)) as H3.
  pose proof (iter_tick1_progress n (Upload.to_uploading f) eq_refl) as H4.
  pose proof (iter_tick1_error n (Upload.to_uploading f)) as H5.
  pose proof (iter_tick1_jobId n (Upload.to_uploading f)) as H6.
  destruct (Nat.iter n tick1 (Upload.to_uploading f)).
  cbn in *. by subst.
Qed.

Lemma InlineUpload_simulated_progress_witness :
  Nat.iter 12 (InlineUpload.tick "f1")
    (Upload.map_id "f1" Upload.to_uploading
       [Upload.Make "f1" "report.pdf" Upload.pending 0 None None]) !! 0%nat =
  Some (Upload.Make "f1" "report.pdf" Upload.uploading 90 None None).
Proof.
  apply (InlineUpload_simulated_progress "f1" 12
           [Upload.Make "f1" "report.pdf" Upload.pending 0 None None] 0%nat
           (Upload.Make "f1" "report.pdf" Upload.pending 0 None None));
    reflexivity.
Defined.

Lemma job_of_body n result job :
  Upload.try_request (Upload.result_of n) = Ok result →
  get (Some result) "job_id" = Ok job →
  sets_timer n = true ∧ job_of n = job.
Proof.
  intros Hbody Hjob. unfold sets_timer, job_of. rewrite Hbody.
  split; [done|]. destruct result; cbn in Hjob; congruence.
Qed.

(** X17.  An accepted upload.  With distinct ids and no answer that takes
    the component down, take a pending file with no completion timer
    waiting, whose request is answered with a body that gives the job id
    [job].  When [uploadFiles] returns, the file is [processing] with that
    job id (at 50 per cent in the upload modal, at 70 in the inline
    upload), or it is already [completed] at 100, which takes a later turn
    of the loop during which timers fired.  Once the timers have fired it
    is [completed] at 100 with the job id: the timer alone completes it, no
    status of the job is asked for. *)
Theorem uploadFiles_accepted_file_completes (nets : nat → Upload.net)
    (st : Upload.run) (k : nat) (f : Upload.UploadedFile)
    (result : json) (job : jsval) :
  stays_mounted nets →
  NoDup (map Upload.id (Upload.files st)) →
  Upload.files st !! k = Some f → Upload.is_pending f = true →
  Upload.id f ∉ Upload.timers st →
  Upload.try_request (Upload.result_of (nets k)) = Ok result →
  get (Some result) "job_id" = Ok job →
  ((Upload.files (UploadModal.uploadFiles nets st) !! k =
      Some (Upload.Make (Upload.id f) (Upload.file f) Upload.processing 50
              (Upload.error f) job) ∨
    Upload.files (UploadModal.uploadFiles nets st) !! k =
      Some (Upload.Make (Upload.id f) (Upload.file f) Upload.completed 100
              (Upload.error f) job) ∧
    ∃ j, (k < j)%nat ∧ Upload.early (nets j) ≠ 0%nat) ∧
   Upload.files (Upload.settle (UploadModal.uploadFiles nets st)) !! k =
     Some (Upload.Make (Upload.id f) (Upload.file f) Upload.completed 100
             (Upload.error f) job)) ∧
  ((Upload.files (InlineUpload.uploadFiles nets st) !! k =
      Some (Upload.Make (Upload.id f) (Upload.file f) Upload.processing 70
              (Upload.error f) job) ∨
    Upload.files (InlineUpload.uploadFiles nets st) !! k =
      Some (Upload.Make (Upload.id f) (Upload.file f) Upload.completed 100
              (Upload.error f) job) ∧
    ∃ j, (k < j)%nat ∧ Upload.early (nets j) ≠ 0%nat) ∧
   Upload.files (Upload.settle (InlineUpload.uploadFiles nets st)) !! k =
     Some (Upload.Make (Upload.id f) (Upload.file f) Upload.completed 100
             (Upload.error f) job)).
Proof.
  intros Hnets Hdup Hk Hf Hout Hbody Hjob.
  destruct (job_of_body _ _ _ Hbody Hjob) as [Hset Hjob_of].
  split.
  - pose proof (UploadModal_uploadFiles_at nets st k f Hnets Hdup Hk Hf Hout)
      as Hat.
    pose proof (past_turn_settled (λ _, Upload.to_uploading) modal_ends
                  (λ _ _, eq_refl) modal_ends_id _ _ _ _ Hat) as Hsettled.
    unfold past_turn_at in Hat. cbv zeta in Hat.
    rewrite Hset in Hat, Hsettled. unfold modal_ends in Hat, Hsettled.
    rewrite Hset, Hjob_of in Hat, Hsettled. split; [|exact Hsettled].
    destruct Hat as [[Hat _]|[Hat Hlater]]; [by left|by right].
  - pose proof (InlineUpload_uploadFiles_at nets st k f Hnets Hdup Hk Hf Hout)
      as Hat.
    pose proof (past_turn_settled inline_starts inline_ends
                  inline_starts_id inline_ends_id _ _ _ _ Hat) as Hsettled.
    unfold past_turn_at in Hat. cbv zeta in Hat.
    rewrite Hset in Hat, Hsettled. unfold inline_ends in Hat, Hsettled.
    rewrite Hset, Hjob_of in Hat, Hsettled.
    unfold Upload.to_processing, Upload.to_completed in Hat, Hsettled.
    cbn [Upload.id Upload.file Upload.error Upload.jobId] in Hat, Hsettled.
    rewrite inline_starts_id, inline_starts_file in Hat, Hsettled.
    unfold inline_starts in Hat, Hsettled.
    rewrite iter_tick1_error in Hat, Hsettled.
    split; [|exact Hsettled].
    destruct Hat as [[Hat _]|[Hat Hlater]]; [by left|by right].
Qed.

Lemma uploadFiles_accepted_file_completes_witness :
  ((Upload.files (UploadModal.uploadFiles Sample.accepting Sample.two_files) !! 1%nat =
      Some (Upload.Make "f2" "b.pdf" Upload.processing 50 None (Some (JStr "j-2"))) ∨
    Upload.files (UploadModal.uploadFiles Sample.accepting Sample.two_files) !! 1%nat =
      Some (Upload.Make "f2" "b.pdf" Upload.completed 100 None (Some (JStr "j-2"))) ∧
    ∃ j, (1 < j)%nat ∧ Upload.early (Sample.accepting j) ≠ 0%nat) ∧
   Upload.files (Upload.settle (UploadModal.uploadFiles Sample.accepting Sample.two_files))
     !! 1%nat =
     Some (Upload.Make "f2" "b.pdf" Upload.completed 100 None (Some (JStr "j-2")))) ∧
  ((Upload.files (InlineUpload.uploadFiles Sample.accepting Sample.two_files) !! 1%nat =
      Some (Upload.Make "f2" "b.pdf" Upload.processing 70 None (Some (JStr "j-2"))) ∨
    Upload.files (InlineUpload.uploadFiles Sample.accepting Sample.two_files) !! 1%nat =
      Some (Upload.Make "f2" "b.pdf" Upload.completed 100 None (Some (JStr "j-2"))) ∧
    ∃ j, (1 < j)%nat ∧ Upload.early (Sample.accepting j) ≠ 0%nat) ∧
   Upload.files (Upload.settle (InlineUpload.uploadFiles Sample.accepting Sample.two_files))
     !! 1%nat =
     Some (Upload.Make "f2" "b.pdf" Upload.completed 100 None (Some (JStr "j-2")))).
Proof.
  apply (uploadFiles_accepted_file_completes Sample.accepting Sample.two_files
           1%nat (Upload.Make "f2" "b.pdf" Upload.pending 0 None None)
           (JObj [("job_id", JStr "j-2")]) (Some (JStr "j-2"))).
  - intros i. reflexivity.
  - cbn. repeat (apply NoDup_cons; split;
                 [by intros ?%list_elem_of_In; cbn in *; intuition discriminate|]).
    apply NoDup_nil_2.
  - reflexivity.
  - reflexivity.
  - apply not_elem_of_nil.
  - reflexivity.
  - reflexivity.
Defined.

(** A later request that outlasts the timer: the first of two accepted
    files is completed already when [uploadFiles] returns. *)
Example earlier_file_completed_at_return :
  Upload.files (UploadModal.uploadFiles Sample.slow_second Sample.two_pending) =
    [Upload.Make "f1" "a.pdf" Upload.completed 100 None (Some (JStr "j-1"));
     Upload.Make "f2" "b.pdf" Upload.processing 50 None (Some (JStr "j-2"))] ∧
  Upload.files (InlineUpload.uploadFiles Sample.slow_second Sample.two_pending) =
    [Upload.Make "f1" "a.pdf" Upload.completed 100 None (Some (JStr "j-1"));
     Upload.Make "f2" "b.pdf" Upload.processing 70 None (Some (JStr "j-2"))].
Proof. split; vm_compute; reflexivity. Qed.

(** ** [useIngestion]: poll loops and the callbacks they end with *)

Lemma length_remove_one j l :
  UseIngestion.mem j l = true → S (length (UseIngestion.remove_one j l)) = length l.
Proof.
  unfold UseIngestion.mem. induction l as [|x l IH]; [done|].
  cbn [existsb UseIngestion.remove_one length].
  rewrite (String.eqb_sym j x). destruct (String.eqb x j); [done|].
  cbn [orb length]. intros Hmem. by rewrite (IH Hmem).
Qed.

Lemma delivered_snoc w c jobs' uploading inflight' timers' :
  delivered (UseIngestion.World jobs' uploading inflight' timers'
               (UseIngestion.called w ++ [c])) =
  (delivered w + if ends_chain c then 1 else 0)%nat.
Proof.
  unfold delivered. cbn [UseIngestion.called].
  rewrite List.filter_app, length_app. cbn [List.filter].
  by destruct (ends_chain c).
Qed.

Lemma step_conserves ev w :
  UseIngestion.enabled ev w = true →
  (chains (UseIngestion.step ev w) + delivered (UseIngestion.step ev w) =
   chains w + delivered w)%nat.
Proof.
  destruct ev as [j r|j|]; cbn [UseIngestion.enabled UseIngestion.step]; intros Hen.
  - apply length_remove_one in Hen. unfold UseIngestion.poll_settles.
    destruct r as [s|e]; [destruct (UseIngestion.status s)|];
      rewrite ?delivered_snoc; unfold chains, delivered;
      cbn [UseIngestion.inflight UseIngestion.timers UseIngestion.called
           ends_chain];
      rewrite ?length_app; cbn [length]; lia.
  - apply length_remove_one in Hen. unfold UseIngestion.timer_fires.
    unfold chains, delivered.
    cbn [UseIngestion.inflight UseIngestion.timers UseIngestion.called].
    rewrite length_app. cbn [length]. lia.
  - done.
Qed.

(** X18.  Every poll loop ends with one callback.  Along any run of the
    event loop (status responses, timers firing, [clearJobs]) the number of
    poll loops alive plus the number of [onProcessingComplete] and
    [onError] calls made stays the same: a loop delivers one of the two
    when it ends, and neither callback is called at any other time. *)
Theorem poll_loops_end_with_one_callback (evs : list UseIngestion.event)
    (w w' : UseIngestion.world) :
  UseIngestion.run evs w = Some w' →
  (chains w' + delivered w' = chains w + delivered w)%nat.
Proof.
  revert w. induction evs as [|ev evs IH]; intros w; cbn [UseIngestion.run].
  - by intros [= ->].
  - destruct (UseIngestion.enabled ev w) eqn:Hen; [|done].
    intros Hrun. rewrite (IH _ Hrun). by apply step_conserves.
Qed.


Lemma poll_loops_end_with_one_callback_witness :
  (chains Sample.processed + delivered Sample.processed =
   chains Sample.polling + delivered Sample.polling)%nat.
Proof.
  apply (poll_loops_end_with_one_callback
           [UseIngestion.Settles "job-1" (Ok Sample.at_40);
            UseIngestion.Fires "job-1";
            UseIngestion.Settles "job-1" (Ok Sample.at_100)]).
  vm_compute. reflexivity.
Defined.

Lemma run_cons ev evs w :
  UseIngestion.enabled ev w = true →
  UseIngestion.run (ev :: evs) w = UseIngestion.run evs (UseIngestion.step ev w).
Proof. intros Hen. cbn [UseIngestion.run]. by rewrite Hen. Qed.

Lemma poll_goes_on j si known uploading cbs :
  ends_poll (Ok si) = false →
  UseIngestion.timer_fires j
    (UseIngestion.poll_settles j (Ok si)
       (UseIngestion.World known uploading [j] [] cbs)) =
  UseIngestion.World (<[j := si]> known) uploading [j] [] cbs.
Proof.
  unfold ends_poll, UseIngestion.poll_settles, UseIngestion.timer_fires.
  cbn [UseIngestion.inflight UseIngestion.timers UseIngestion.called
       UseIngestion.jobs UseIngestion.isUploading UseIngestion.remove_one].
  rewrite String.eqb_refl.
  destruct (UseIngestion.status si); try done;
    cbn [UseIngestion.inflight UseIngestion.timers UseIngestion.called
         UseIngestion.jobs UseIngestion.isUploading UseIngestion.remove_one app];
    by rewrite String.eqb_refl.
Qed.

Lemma poll_ends j s known uploading cbs :
  ends_poll (Ok s) = true →
  UseIngestion.poll_settles j (Ok s)
    (UseIngestion.World known uploading [j] [] cbs) =
  UseIngestion.World (<[j := s]> known) uploading [] [] (cbs ++ [report s]).
Proof.
  unfold ends_poll, UseIngestion.poll_settles, report.
  cbn [UseIngestion.inflight UseIngestion.timers UseIngestion.called
       UseIngestion.jobs UseIngestion.isUploading UseIngestion.remove_one].
  rewrite String.eqb_refl. by destruct (UseIngestion.status s).
Qed.

Lemma poll_loop_from (j : string) (ss : list UseIngestion.IngestionJobStatus)
    (s : UseIngestion.IngestionJobStatus)
    (known : gmap string UseIngestion.IngestionJobStatus) (uploading : bool)
    (cbs : list UseIngestion.callback) :
  Forall (λ si, ends_poll (Ok si) = false) ss → ends_poll (Ok s) = true →
  ∃ w',
    UseIngestion.run (poll_events j ss s)
      (UseIngestion.World known uploading [j] [] cbs) = Some w' ∧
    UseIngestion.getJobStatus j w' = Some s ∧
    UseIngestion.inflight w' = [] ∧
    UseIngestion.timers w' = [] ∧
    UseIngestion.isUploading w' = uploading ∧
    UseIngestion.called w' = cbs ++ [report s].
Proof.
  intros Hss Hs. revert known.
  assert (UseIngestion.mem j [j] = true) as Hmem.
  { unfold UseIngestion.mem. cbn. by rewrite String.eqb_refl. }
  induction Hss as [|si ss Hsi _ IH]; intros known.
  - unfold poll_events.
    cbn [flat_map app UseIngestion.run UseIngestion.enabled UseIngestion.step
         UseIngestion.inflight].
    rewrite Hmem, (poll_ends _ _ _ _ _ Hs).
    eexists. split; [reflexivity|].
    unfold UseIngestion.getJobStatus. cbn [UseIngestion.jobs].
    by rewrite lookup_insert_eq.
  - change (poll_events j (si :: ss) s) with
      (UseIngestion.Settles j (Ok si) :: UseIngestion.Fires j :: poll_events j ss s).
    rewrite run_cons by exact Hmem.
    rewrite run_cons.
    + cbn [UseIngestion.step]. rewrite (poll_goes_on _ _ _ _ _ Hsi). apply IH.
    + unfold ends_poll in Hsi. cbn [UseIngestion.step UseIngestion.enabled].
      unfold UseIngestion.poll_settles.
      destruct (UseIngestion.status si); try done; exact Hmem.
Qed.

(** X19.  One poll loop, from the upload to the end.  On a fresh hook,
    [uploadFile] is accepted with a job id; the status endpoint then
    answers with statuses that are not terminal (each followed by the timer
    it sets) and at last with a terminal one, [s].  The run is possible,
    and at its end the hook holds [s] for the job, no request or timer is
    left, and the callbacks were [onUploadComplete] once and then the
    report of [s] once: [onProcessingComplete], or [onError] with the
    error of the status, or [Processing failed]. *)
Theorem poll_loop_runs_to_its_end (name : string)
    (response : Api.IngestionResponse)
    (ss : list UseIngestion.IngestionJobStatus)
    (s : UseIngestion.IngestionJobStatus) :
  Forall (λ si, ends_poll (Ok si) = false) ss → ends_poll (Ok s) = true →
  ∃ w',
    UseIngestion.run (poll_events (Api.job_id response) ss s)
      (UseIngestion.uploadFile name (Ok response) UseIngestion.init).1 = Some w' ∧
    UseIngestion.getJobStatus (Api.job_id response) w' = Some s ∧
    UseIngestion.inflight w' = [] ∧
    UseIngestion.timers w' = [] ∧
    UseIngestion.isUploading w' = false ∧
    UseIngestion.called w' =
      [UseIngestion.onUploadComplete (Api.job_id response); report s].
Proof.
  intros Hss Hs.
  exact (poll_loop_from (Api.job_id response) ss s _ false
           [UseIngestion.onUploadComplete (Api.job_id response)] Hss Hs).
Qed.

Lemma poll_loop_runs_to_its_end_witness :
  ∃ w',
    UseIngestion.run
      (poll_events "job-1" [Sample.at_40; Sample.at_60] Sample.at_100)
      (UseIngestion.uploadFile "report.pdf"
         (Ok (Api.Accepted "job-1" "pending" "Queued report.pdf"))
         UseIngestion.init).1 = Some w' ∧
    UseIngestion.getJobStatus "job-1" w' = Some Sample.at_100 ∧
    UseIngestion.inflight w' = [] ∧
    UseIngestion.timers w' = [] ∧
    UseIngestion.isUploading w' = false ∧
    UseIngestion.called w' =
      [UseIngestion.onUploadComplete "job-1"; report Sample.at_100].
Proof.
  apply (poll_loop_runs_to_its_end "report.pdf"
           (Api.Accepted "job-1" "pending" "Queued report.pdf")
           [Sample.at_40; Sample.at_60] Sample.at_100).
  - repeat (apply List.Forall_cons; [reflexivity|]). apply List.Forall_nil.
  - reflexivity.
Defined.

(** ** [useIngestion]: the bulk upload *)

Lemma track_fold files response_jobs w :
  let w1 := foldl (λ acc job, UseIngestion.track files job acc) w response_jobs in
  UseIngestion.inflight w1 = UseIngestion.inflight w ++ tracked response_jobs ∧
  UseIngestion.timers w1 = UseIngestion.timers w ∧
  UseIngestion.called w1 = UseIngestion.called w ∧
  (∀ j, j ∉ tracked response_jobs →
     UseIngestion.jobs w1 !! j = UseIngestion.jobs w !! j) ∧
  (∀ j, j ∈ tracked response_jobs →
     ∃ name, UseIngestion.jobs w1 !! j =
             Some (UseIngestion.Make j UseIngestion.pending name 0 0 0 None)).
Proof.
  cbn zeta. revert w.
  induction response_jobs as [|job rest IH]; intros w.
  - cbn. rewrite app_nil_r. repeat split; try done. by intros j ?%elem_of_nil.
  - cbn [foldl]. destruct (IH (UseIngestion.track files job w))
      as (Hin & Ht & Hc & Hframe & Hnew).
    unfold tracked in *. cbn [map List.filter].
    rewrite Hin, Ht, Hc. unfold UseIngestion.track in *.
    destruct (String.eqb (Api.job_id job) "") eqn:Hid; cbn [negb].
    + repeat split; done.
    + cbn [UseIngestion.pollJobStatus UseIngestion.inflight UseIngestion.timers
           UseIngestion.called UseIngestion.jobs] in *.
      rewrite <- app_assoc. repeat split; try done.
      * intros j Hj. rewrite Hframe.
        -- apply lookup_insert_ne. intros Heq. apply Hj. rewrite <- Heq. by left.
        -- intros Hin'. apply Hj. by right.
      * intros j [->|Hj]%elem_of_cons.
        -- destruct (decide (Api.job_id job ∈
                      List.filter (λ j, negb (String.eqb j "")) (map Api.job_id rest)))
             as [Hlater|Hlast]; [by apply Hnew|].
           rewrite (Hframe _ Hlast), lookup_insert_eq. by eexists.
        -- by apply Hnew.
Qed.

(** X20.  The bulk upload starts one poll loop per job the server
    accepted.  When [api.uploadDocuments] resolves, [uploadFiles] sends one
    status request for every job of the response whose id is not empty, in
    the order of the response; each of these ids is tracked as [pending]
    with progress 0, every other id is as it was; no callback is called
    ([onUploadComplete] is only called by [uploadFile]) and the upload flag
    is cleared. *)
Theorem uploadFiles_polls_each_accepted_job (files : list string)
    (response_jobs : list Api.IngestionResponse) (w : UseIngestion.world) :
  let done := UseIngestion.uploadFiles files (Ok response_jobs) w in
  done.2 = Resolved ∧
  UseIngestion.inflight done.1 = UseIngestion.inflight w ++ tracked response_jobs ∧
  UseIngestion.timers done.1 = UseIngestion.timers w ∧
  UseIngestion.called done.1 = UseIngestion.called w ∧
  UseIngestion.isUploading done.1 = false ∧
  (∀ j, j ∉ tracked response_jobs →
     UseIngestion.getJobStatus j done.1 = UseIngestion.getJobStatus j w) ∧
  (∀ j, j ∈ tracked response_jobs →
     ∃ name, UseIngestion.getJobStatus j done.1 =
             Some (UseIngestion.Make j UseIngestion.pending name 0 0 0 None)).
Proof.
  cbn zeta. cbn [UseIngestion.uploadFiles fst snd].
  destruct (track_fold files response_jobs w) as (Hin & Ht & Hc & Hframe & Hnew).
  unfold UseIngestion.getJobStatus.
  cbn [UseIngestion.inflight UseIngestion.timers UseIngestion.called
       UseIngestion.isUploading UseIngestion.jobs].
  repeat split; done.
Qed.

Lemma uploadFiles_polls_each_accepted_job_witness :
  UseIngestion.inflight
    (UseIngestion.uploadFiles ["a.pdf"; "b.pdf"]
       (Ok [Api.Accepted "j-1" "pending" "Queued a.pdf";
            Api.Accepted "" "failed" "Rejected b.pdf"])
       UseIngestion.init).1 = [] ++ ["j-1"] ∧
  UseIngestion.called
    (UseIngestion.uploadFiles ["a.pdf"; "b.pdf"]
       (Ok [Api.Accepted "j-1" "pending" "Queued a.pdf";
            Api.Accepted "" "failed" "Rejected b.pdf"])
       UseIngestion.init).1 = [] ∧
  ∃ name,
    UseIngestion.getJobStatus "j-1"
      (UseIngestion.uploadFiles ["a.pdf"; "b.pdf"]
         (Ok [Api.Accepted "j-1" "pending" "Queued a.pdf";
              Api.Accepted "" "failed" "Rejected b.pdf"])
         UseIngestion.init).1 =
    Some (UseIngestion.Make "j-1" UseIngestion.pending name 0 0 0 None).
Proof.
  destruct (uploadFiles_polls_each_accepted_job ["a.pdf"; "b.pdf"]
              [Api.Accepted "j-1" "pending" "Queued a.pdf";
               Api.Accepted "" "failed" "Rejected b.pdf"]
              UseIngestion.init) as (_ & Hinflight & _ & Hcalled & _ & _ & Hnew).
  split; [exact Hinflight|]. split; [exact Hcalled|].
  apply Hnew. by left.
Defined.

(** ** [useIngestion]: the file name of a job of the bulk upload *)

Lemma prefix_spec t s : String.prefix t s = true ↔ ∃ b, s = t +:+ b.
Proof.
  revert s. induction t as [|c t IH]; intros s.
  - split; [intros _; exists s; by rewrite append_nil_l|by destruct s].
  - destruct s as [|c' s]; cbn [String.prefix].
    + split; [done|]. intros [b Hb]. by rewrite append_cons in Hb.
    + destruct (Ascii.ascii_dec c c') as [->|Hne].
      * rewrite IH. split; intros [b Hb]; exists b.
        -- by rewrite append_cons, Hb.
        -- rewrite append_cons in Hb. by injection Hb.
      * split; [done|]. intros [b Hb]. rewrite append_cons in Hb.
        injection Hb as Hc _. by destruct Hne.
Qed.

Lemma includes_spec s t :
  UseIngestion.includes s t = true ↔ ∃ a b, s = a +:+ t +:+ b.
Proof.
  induction s as [|c s IH]; cbn [UseIngestion.includes].
  - rewrite orb_false_r, prefix_spec. split.
    + intros [b Hb]. exists "", b. by rewrite append_nil_l.
    + intros (a & b & Hab). destruct a as [|c a].
      * exists b. by rewrite append_nil_l in Hab.
      * by rewrite append_cons in Hab.
  - rewrite orb_true_iff, prefix_spec, IH. split.
    + intros [[b Hb]|(a & b & Hab)].
      * exists "", b. by rewrite append_nil_l.
      * exists (String c a), b. by rewrite append_cons, Hab.
    + intros (a & b & Hab). destruct a as [|c' a].
      * left. exists b. by rewrite append_nil_l in Hab.
      * right. rewrite append_cons in Hab. injection Hab as _ Hab.
        by exists a, b.
Qed.

Lemma includes_trans s t u :
  UseIngestion.includes s t = true → UseIngestion.includes t u = true →
  UseIngestion.includes s u = true.
Proof.
  intros (a & b & ->)%includes_spec (c & d & ->)%includes_spec.
  apply includes_spec. exists (a +:+ c), (d +:+ b).
  by rewrite !append_assoc.
Qed.

(** X21.  Which file a job of the bulk upload is shown under.  The job is
    shown under the first selected file whose name occurs in the message of
    the job.  So when the message names the file [late], and the name of a
    file [early] selected before it occurs in the name [late], the job is
    shown under [early] (provided no file before [early] matches). *)
Theorem filename_for_takes_first_contained_name
    (before after : list string) (early late text : string) :
  early ≠ "" →
  UseIngestion.includes late early = true →
  UseIngestion.includes text late = true →
  Forall (λ name, UseIngestion.includes text name = false) before →
  UseIngestion.filename_for (before ++ early :: after) text = early.
Proof.
  intros Hne Hin Htext Hbefore. unfold UseIngestion.filename_for.
  assert (List.find (λ name, UseIngestion.includes text name)
            (before ++ early :: after) = Some early) as ->.
  { induction Hbefore as [|name before Hname _ IH]; cbn [app List.find].
    - by rewrite (includes_trans _ _ _ Htext Hin).
    - by rewrite Hname. }
  by apply String.eqb_neq in Hne as ->.
Qed.

Lemma filename_for_takes_first_contained_name_witness :
  UseIngestion.filename_for ([] ++ "a.pdf" :: ["data.pdf"]) "Queued data.pdf"
  = "a.pdf".
Proof.
  apply (filename_for_takes_first_contained_name [] ["data.pdf"] "a.pdf"
           "data.pdf" "Queued data.pdf").
  - discriminate.
  - reflexivity.
  - reflexivity.
  - apply List.Forall_nil.
Defined.


(** ** The upload page *)

Lemma filter_index_all {A} (keep : nat → bool) (i : nat) (l : list A) :
  (∀ n, (i ≤ n)%nat → keep n = true) → UploadPage.filter_index keep i l = l.
Proof.
  revert i. induction l as [|x l IH]; intros i Hkeep; [done|].
  cbn [UploadPage.filter_index]. rewrite (Hkeep i) by lia.
  f_equal. apply IH. intros n Hn. apply Hkeep. lia.
Qed.

Lemma filter_index_drops_one {A} (index off : nat) (l : list A) :
  UploadPage.filter_index (λ i, negb (i =? off + index)%nat) off l =
  take index l ++ drop (S index) l.
Proof.
  revert index off. induction l as [|x l IH]; intros index off.
  - by destruct index.
  - cbn [UploadPage.filter_index]. destruct index as [|index].
    + rewrite Nat.add_0_r, Nat.eqb_refl. cbn [negb take drop app].
      rewrite drop_0. apply filter_index_all. intros n Hn.
      apply negb_true_iff, Nat.eqb_neq. lia.
    + assert ((off =? off + S index)%nat = false) as ->
        by (apply Nat.eqb_neq; lia).
      cbn [negb take drop app]. f_equal.
      replace (off + S index)%nat with (S off + index)%nat by lia.
      apply IH.
Qed.

(** X22.  [removeFile(index)] of the upload page takes out the file at
    that place and no other: the files before it and the files after it
    stay, in order; an index past the end changes nothing. *)
Theorem UploadPage_removeFile_takes_one_out (index beyond : nat)
    (st : UploadPage.state) :
  UploadPage.selectedFiles (UploadPage.removeFile index st) =
    take index (UploadPage.selectedFiles st) ++
    drop (S index) (UploadPage.selectedFiles st) ∧
  UploadPage.removeFile (length (UploadPage.selectedFiles st) + beyond) st = st.
Proof.
  assert (∀ i, UploadPage.selectedFiles (UploadPage.removeFile i st) =
               take i (UploadPage.selectedFiles st) ++
               drop (S i) (UploadPage.selectedFiles st)) as Hfiles.
  { intros i. unfold UploadPage.removeFile. cbn [UploadPage.selectedFiles].
    apply (filter_index_drops_one i 0). }
  split; [apply Hfiles|].
  specialize (Hfiles (length (UploadPage.selectedFiles st) + beyond)%nat).
  destruct st as [drag files]. unfold UploadPage.removeFile in *.
  cbn [UploadPage.selectedFiles UploadPage.dragActive] in *.
  rewrite Hfiles. rewrite take_ge, drop_ge by lia. by rewrite app_nil_r.
Qed.


(** X23.  [handleUpload] of the upload page, with files selected.  When
    the bulk upload is accepted the selection is emptied, one poll loop is
    started per accepted job and no callback is called: the page's
    [onUploadComplete] toast is never raised by this path.  When the
    request fails the selection is kept, the hook tracks and polls nothing
    new, and [onError] is called once, with the error of the request. *)
Theorem UploadPage_handleUpload_outcomes
    (a : Api.answer (list Api.IngestionResponse))
    (st : UploadPage.state) (w : UseIngestion.world) :
  UploadPage.selectedFiles st ≠ [] →
  let after := UploadPage.handleUpload a st w in
  UseIngestion.isUploading after.2 = false ∧
  UseIngestion.timers after.2 = UseIngestion.timers w ∧
  match Api.uploadDocuments a with
  | Ok response_jobs =>
      after.1 = UploadPage.State (UploadPage.dragActive st) [] ∧
      UseIngestion.inflight after.2 =
        UseIngestion.inflight w ++ tracked response_jobs ∧
      UseIngestion.called after.2 = UseIngestion.called w
  | Throw e =>
      after.1 = st ∧
      UseIngestion.jobs after.2 = UseIngestion.jobs w ∧
      UseIngestion.inflight after.2 = UseIngestion.inflight w ∧
      UseIngestion.called after.2 =
        UseIngestion.called w ++ [UseIngestion.onError (as_Error "Upload failed" e)]
  end.
Proof.
  intros Hselected. cbn zeta. unfold UploadPage.handleUpload.
  destruct (UploadPage.selectedFiles st) as [|name names] eqn:Hfiles; [done|].
  destruct (Api.uploadDocuments a) as [response_jobs|e].
  - cbn [UseIngestion.uploadFiles fst snd].
    destruct (track_fold (name :: names) response_jobs w)
      as (Hin & Ht & Hc & _).
    cbn [UseIngestion.inflight UseIngestion.timers UseIngestion.called
         UseIngestion.isUploading].
    by rewrite Hin, Ht, Hc.
  - cbn [UseIngestion.uploadFiles].
    destruct (as_Error "Upload failed" e); cbn; by rewrite ?Hfiles.
Qed.

Lemma UploadPage_handleUpload_outcomes_witness :
  let after :=
    UploadPage.handleUpload (Api.Answer false "Service Unavailable" (Ok []))
      (UploadPage.State false ["a.pdf"]) UseIngestion.init in
  UseIngestion.isUploading after.2 = false ∧
  UseIngestion.timers after.2 = UseIngestion.timers UseIngestion.init ∧
  after.1 = UploadPage.State false ["a.pdf"] ∧
  UseIngestion.jobs after.2 = UseIngestion.jobs UseIngestion.init ∧
  UseIngestion.inflight after.2 = UseIngestion.inflight UseIngestion.init ∧
  UseIngestion.called after.2 =
    UseIngestion.called UseIngestion.init ++
    [UseIngestion.onError
       (as_Error "Upload failed"
          (ErrorObj ("Bulk upload" +:+ " failed: " +:+ "Service Unavailable")))].
Proof.
  apply (UploadPage_handleUpload_outcomes
           (Api.Answer false "Service Unavailable" (Ok []))
           (UploadPage.State false ["a.pdf"]) UseIngestion.init).
  discriminate.
Defined.


(** ** [getFileIcon] *)

Lemma split_dots_single ext : no_dot ext = true → FileIcon.split_dots ext = [ext].
Proof.
  induction ext as [|c ext IH]; [done|].
  cbn [no_dot FileIcon.split_dots]. intros [Hc Hext]%andb_true_iff.
  apply negb_true_iff in Hc. by rewrite Hc, (IH Hext).
Qed.

Lemma split_dots_last stem ext :
  no_dot ext = true →
  ∃ p pre,
    FileIcon.split_dots (stem +:+ String FileIcon.dot ext) = p :: pre ++ [ext].
Proof.
  intros Hext. induction stem as [|c stem (p & pre & IH)].
  - rewrite append_nil_l. cbn [FileIcon.split_dots]. rewrite Ascii.eqb_refl.
    rewrite (split_dots_single _ Hext). by exists "", [].
  - rewrite append_cons. cbn [FileIcon.split_dots]. rewrite IH.
    destruct (Ascii.eqb c FileIcon.dot).
    + by exists "", (p :: pre).
    + by exists (String c p), pre.
Qed.

(** X24.  [getFileIcon] looks the icon up under the lower-cased text after
    the last dot of the name, whatever comes before that dot and whatever
    the case of the letters; a name without a dot is taken whole. *)
Theorem getFileIcon_by_last_extension (stem ext : string) :
  no_dot ext = true →
  FileIcon.getFileIcon (stem +:+ String FileIcon.dot ext) =
    default FileIcon.File (FileIcon.property (FileIcon.toLowerCase ext)) ∧
  FileIcon.getFileIcon ext =
    default FileIcon.File (FileIcon.property (FileIcon.toLowerCase ext)).
Proof.
  intros Hext. unfold FileIcon.getFileIcon, FileIcon.extension. split.
  - destruct (split_dots_last stem ext Hext) as (p & pre & ->).
    by rewrite app_comm_cons, last_snoc.
  - by rewrite (split_dots_single _ Hext).
Qed.

Lemma getFileIcon_by_last_extension_witness :
  FileIcon.getFileIcon ("Q3.report" +:+ String FileIcon.dot "PDF") =
    default FileIcon.File (FileIcon.property (FileIcon.toLowerCase "PDF")) ∧
  FileIcon.getFileIcon "PDF" =
    default FileIcon.File (FileIcon.property (FileIcon.toLowerCase "PDF")).
Proof.
  apply (getFileIcon_by_last_extension "Q3.report" "PDF"). reflexivity.
Defined.

(** ** A [null] event *)

(** X25.  A [null] event.  When the stream of [useChat] yields [null] after
    the object chunks [es], the loop throws at the first property it reads:
    the turn rejects with that [TypeError] and reports it, no assistant
    message is appended, whatever the stream yields afterwards is not
    read, and the loading flag is cleared.  The home page reads the same
    properties inside its inner [try]: there a [data:] line whose payload
    is [null] changes nothing. *)
Theorem null_event_ends_the_turn_of_useChat (JSON_parse : string → option json)
    (content line : string) (net : fetched) (st : UseChat.state)
    (es : list (list (string * json))) (rest : list json) (stop : option exn)
    (hp : HomePage.state) (v : HomePage.locals) :
  JS_truthy (Some (JStr (trim content))) = true →
  UseChat.isLoading st = false →
  Api.chatStream JSON_parse net = (map JObj es ++ JNull :: rest, stop) →
  String.prefix "data:" line = true →
  JSON_parse (trim (replace_first "data:" "" line)) = Some JNull →
  (UseChat.outcome (UseChat.sendMessage JSON_parse content net st)
     = Rejected (ErrorObj "TypeError") ∧
   UseChat.errorsReported (UseChat.sendMessage JSON_parse content net st)
     = [ErrorObj "TypeError"] ∧
   UseChat.messages (UseChat.final (UseChat.sendMessage JSON_parse content net st))
     = UseChat.messages st ++ [userMessage (trim content)] ∧
   UseChat.isLoading (UseChat.final (UseChat.sendMessage JSON_parse content net st))
     = false ∧
   UseChat.stepUpdates (UseChat.sendMessage JSON_parse content net st)
     = map JObj (List.filter has_agent es)) ∧
  HomePage.on_line JSON_parse line hp v = Ok (hp, v).
Proof.
  intros Hcontent Hidle Hnet Hprefix Hparse. split.
  - unfold UseChat.sendMessage. rewrite Hcontent, Hidle, Hnet. cbn [negb orb].
    rewrite UseChat_for_await_app.
    destruct (UseChat_for_await_objects es (UseChat.started content st)
                (UseChat.locals0 st) (List.Forall_nil _) eq_refl)
      as (st1 & v1 & -> & Hm & Hl & Hc & Ht & _).
    cbn [UseChat.for_await UseChat.on_chunk get mbind except_bind as_Error
         UseChat.outcome UseChat.errorsReported UseChat.final UseChat.finally
         UseChat.messages UseChat.isLoading UseChat.stepUpdates].
    rewrite Hm, Ht. repeat split.
  - unfold HomePage.on_line.
    rewrite (data_line_not_event _ Hprefix), Hprefix, Hparse. reflexivity.
Qed.

Lemma null_event_ends_the_turn_of_useChat_witness :
  (UseChat.outcome
     (UseChat.sendMessage Sample.parse "ping"
        (Response true "OK"
           (Some (Body [stream_of [Sample.first_line; "data: null";
                                   Sample.line (JObj Sample.pong)]] StreamDone)))
        UseChat.init)
     = Rejected (ErrorObj "TypeError") ∧
   UseChat.errorsReported
     (UseChat.sendMessage Sample.parse "ping"
        (Response true "OK"
           (Some (Body [stream_of [Sample.first_line; "data: null";
                                   Sample.line (JObj Sample.pong)]] StreamDone)))
        UseChat.init)
     = [ErrorObj "TypeError"] ∧
   UseChat.messages
     (UseChat.final
        (UseChat.sendMessage Sample.parse "ping"
           (Response true "OK"
              (Some (Body [stream_of [Sample.first_line; "data: null";
                                      Sample.line (JObj Sample.pong)]] StreamDone)))
           UseChat.init))
     = UseChat.messages UseChat.init ++ [userMessage (trim "ping")] ∧
   UseChat.isLoading
     (UseChat.final
        (UseChat.sendMessage Sample.parse "ping"
           (Response true "OK"
              (Some (Body [stream_of [Sample.first_line; "data: null";
                                      Sample.line (JObj Sample.pong)]] StreamDone)))
           UseChat.init))
     = false ∧
   UseChat.stepUpdates
     (UseChat.sendMessage Sample.parse "ping"
        (Response true "OK"
           (Some (Body [stream_of [Sample.first_line; "data: null";
                                   Sample.line (JObj Sample.pong)]] StreamDone)))
        UseChat.init)
     = map JObj (List.filter has_agent [Sample.step "switchboard" "running"])) ∧
  HomePage.on_line Sample.parse "data: null" Sample.asked HomePage.locals0
    = Ok (Sample.asked, HomePage.locals0).
Proof.
  apply (null_event_ends_the_turn_of_useChat Sample.parse "ping" "data: null"
           _ UseChat.init [Sample.step "switchboard" "running"]
           [JObj Sample.pong] None).
  - reflexivity.
  - reflexivity.
  - vm_compute. reflexivity.
  - reflexivity.
  - vm_compute. reflexivity.
Defined.


(** ** Further consequences *)

(** X26.  A turn of [useChat] depends on the body only through the text it
    carries: however the same text is cut into reads, [sendMessage] ends in
    the same state, settles the same way and makes the same calls. *)
Theorem UseChat_turn_depends_on_text_only (JSON_parse : string → option json)
    (content statusText : string) (fin : read_end)
    (values values' : list string) (st : UseChat.state) :
  joined values = joined values' →
  UseChat.sendMessage JSON_parse content
    (Response true statusText (Some (Body values fin))) st =
  UseChat.sendMessage JSON_parse content
    (Response true statusText (Some (Body values' fin))) st.
Proof.
  intros Htext. unfold UseChat.sendMessage.
  cbn [Api.chatStream reads ending].
  by rewrite !read_loop_complete_lines, Htext.
Qed.

Lemma UseChat_turn_depends_on_text_only_witness :
  UseChat.sendMessage Sample.parse "ping"
    (Response true "OK" (Some (Body [Sample.cut_head; Sample.cut_tail] StreamDone)))
    UseChat.init =
  UseChat.sendMessage Sample.parse "ping"
    (Response true "OK" (Some (Body [Sample.ping_stream] StreamDone)))
    UseChat.init.
Proof.
  apply (UseChat_turn_depends_on_text_only Sample.parse "ping" "OK" StreamDone
           [Sample.cut_head; Sample.cut_tail] [Sample.ping_stream]).
  vm_compute. reflexivity.
Defined.

(** X27.  The inline upload reports every upload as done.  With distinct
    ids and no answer that takes the component down, a pending file with
    no completion timer waiting is [completed] at 100 per cent when
    [uploadFiles] has run and the timers have fired, whether its request
    was accepted or failed: an accepted upload is completed by its timer, a
    failed one by the [catch] block. *)
Theorem InlineUpload_every_upload_ends_completed (nets : nat → Upload.net)
    (st : Upload.run) (k : nat) (f : Upload.UploadedFile) :
  stays_mounted nets →
  NoDup (map Upload.id (Upload.files st)) →
  Upload.files st !! k = Some f → Upload.is_pending f = true →
  Upload.id f ∉ Upload.timers st →
  ∃ f',
    Upload.files (Upload.settle (InlineUpload.uploadFiles nets st)) !! k = Some f' ∧
    Upload.id f' = Upload.id f ∧ Upload.file f' = Upload.file f ∧
    Upload.status f' = Upload.completed ∧ Upload.progress f' = 100 ∧
    Upload.error f' = Upload.error f.
Proof.
  intros Hnets Hdup Hk Hf Hout.
  pose proof (InlineUpload_uploadFiles_at nets st k f Hnets Hdup Hk Hf Hout)
    as Hat.
  rewrite (past_turn_settled inline_starts inline_ends
             inline_starts_id inline_ends_id _ _ _ _ Hat).
  eexists. split; [reflexivity|].
  unfold inline_ends, inline_starts.
  destruct (sets_timer (nets k)); cbn;
    by rewrite iter_tick1_id, iter_tick1_file, iter_tick1_error.
Qed.

Lemma InlineUpload_every_upload_ends_completed_witness :
  ∃ f',
    Upload.files
      (Upload.settle
         (InlineUpload.uploadFiles (λ _, Upload.Net 3 Upload.rejected)
            Sample.two_files)) !! 1%nat = Some f' ∧
    Upload.id f' = "f2" ∧ Upload.file f' = "b.pdf" ∧
    Upload.status f' = Upload.completed ∧ Upload.progress f' = 100 ∧
    Upload.error f' = None.
Proof.
  apply (InlineUpload_every_upload_ends_completed
           (λ _, Upload.Net 3 Upload.rejected) Sample.two_files 1%nat
           (Upload.Make "f2" "b.pdf" Upload.pending 0 None None)).
  - intros i. reflexivity.
  - cbn. repeat (apply NoDup_cons; split;
                 [by intros ?%list_elem_of_In; cbn in *; intuition discriminate|]).
    apply NoDup_nil_2.
  - reflexivity.
  - reflexivity.
  - apply not_elem_of_nil.
Defined.


(** X28.  [clearMessages] of [useChat] starts a new conversation.  The
    turn sent after it carries no conversation id; when its stream of
    object chunks ends, the list holds the user message and the assistant
    message of this turn only, and the hook has taken the first truthy
    [conversation_id] of the stream, if there is one. *)
Theorem UseChat_clearMessages_starts_new_conversation
    (JSON_parse : string → option json)
    (content : string) (net : fetched) (st : UseChat.state)
    (es : list (list (string * json))) :
  JS_truthy (Some (JStr (trim content))) = true →
  UseChat.isLoading st = false →
  Api.chatStream JSON_parse net = (map JObj es, None) →
  UseChat.requests
    (UseChat.sendMessage JSON_parse content net (UseChat.clearMessages st)) =
    [Request "/api/v1/chat/stream" content None] ∧
  UseChat.messages
    (UseChat.final
       (UseChat.sendMessage JSON_parse content net (UseChat.clearMessages st))) =
    [userMessage (trim content); message_of es] ∧
  UseChat.conversationId
    (UseChat.final
       (UseChat.sendMessage JSON_parse content net (UseChat.clearMessages st))) =
    if JS_truthy (announced es) then announced es else Some JNull.
Proof.
  intros Hcontent Hidle Hnet.
  rewrite (UseChat_sendMessage_objects _ _ _ (UseChat.clearMessages st) es
             Hcontent Hidle Hnet).
  cbn [UseChat.requests UseChat.final UseChat.messages UseChat.conversationId
       UseChat.clearMessages app].
  repeat split. by apply id_after_unknown.
Qed.

Lemma UseChat_clearMessages_starts_new_conversation_witness :
  UseChat.requests
    (UseChat.sendMessage Sample.parse "ping" Sample.two_ids_net
       (UseChat.clearMessages
          (UseChat.State [userMessage "earlier"] false [] (Some (JStr "c-0"))))) =
    [Request "/api/v1/chat/stream" "ping" None] ∧
  UseChat.messages
    (UseChat.final
       (UseChat.sendMessage Sample.parse "ping" Sample.two_ids_net
          (UseChat.clearMessages
             (UseChat.State [userMessage "earlier"] false [] (Some (JStr "c-0")))))) =
    [userMessage (trim "ping"); message_of [Sample.first_id; Sample.second_id]] ∧
  UseChat.conversationId
    (UseChat.final
       (UseChat.sendMessage Sample.parse "ping" Sample.two_ids_net
          (UseChat.clearMessages
             (UseChat.State [userMessage "earlier"] false [] (Some (JStr "c-0")))))) =
    if JS_truthy (announced [Sample.first_id; Sample.second_id])
    then announced [Sample.first_id; Sample.second_id] else Some JNull.
Proof.
  apply (UseChat_clearMessages_starts_new_conversation Sample.parse "ping"
           Sample.two_ids_net
           (UseChat.State [userMessage "earlier"] false [] (Some (JStr "c-0")))
           [Sample.first_id; Sample.second_id]).
  - reflexivity.
  - reflexivity.
  - vm_compute. reflexivity.
Defined.
